(** * TaT dashboard: the ingestion, normalisation and aggregation pipeline

    A shallow embedding of the decision logic of [src/App.tsx]
    ([normalizeDigits], [parseDate], [minutesBetween], [formatMinutes],
    [formatPercentage], the body of [handleFileChange], the data of the
    three charts and the conditions of the page) together with the
    properties the design document states about it and further
    properties of the code.

    Conventions of the embedding.
    - A JavaScript [number] is an IEEE 754 binary64 value.  Module
      [Binary64] gives finite values as rationals and every arithmetic
      operation as the exact rational result rounded to nearest, ties to
      even, with overflow to an infinity and gradual underflow.  The two
      zeros are identified: the program never divides by a zero and never
      inspects the sign of a zero.
    - A JavaScript string is its sequence of UTF-16 code units.
    - A [Date] is either invalid or a whole number of milliseconds within
      8.64e15 of the epoch, as ECMAScript's TimeClip guarantees.
    - What the browser decides (the text parser behind [new Date(text)],
      [Number(text)], local time, the printing of numbers and dates) is a
      [Host] record that every host-dependent function takes as argument.
    - An exception is a value of type [thrown]; the [try] block of
      [handleFileChange] is a function into a sum type. *)

From Stdlib Require Import ZArith NArith QArith Qround Qabs Qpower.
From Stdlib Require Import List Bool Lia Lqa Sorted Permutation SpecFloat.
Import ListNotations.

(** ** IEEE 754 binary64 arithmetic *)

Module Binary64.

Inductive number : Type :=
| NaN
| Inf (negative : bool)
| Fin (q : Q).

(** [Qilog2 x] is the integer [e] with [2^e <= x < 2^(e+1)], for [0 < x]. *)
Definition Qilog2 (x : Q) : Z :=
  let e0 := (Z.log2 (Qnum x) - Z.log2 (Zpos (Qden x)))%Z in
  if Qle_bool (2 ^ e0) x then e0 else (e0 - 1)%Z.

(** Exponent of the unit in the last place of a binary64 value of the
    magnitude of [x]: 53 significant bits, smallest quantum [2^-1074]. *)
Definition ulp_exp (x : Q) : Z := Z.max (Qilog2 (Qabs x) - 52) (-1074).

(** Nearest integer, ties to the even one. *)
Definition rne (m : Q) : Z :=
  let f := Qfloor m in
  match Qcompare (m - inject_Z f) (1 # 2) with
  | Lt => f
  | Gt => (f + 1)%Z
  | Eq => if Z.even f then f else (f + 1)%Z
  end.

(** The binary64 value nearest to the rational [x]. *)
Definition round64 (x : Q) : number :=
  if Qeq_bool x 0 then Fin 0 else
  let q := ulp_exp x in
  let r := (inject_Z (rne (x / 2 ^ q)) * 2 ^ q)%Q in
  if Qle_bool (2 ^ 1024) (Qabs r) then Inf (negb (Qle_bool 0 r)) else Fin (Qred r).

Definition Qneg (x : Q) : bool := negb (Qle_bool 0 x).

Definition fneg (a : number) : number :=
  match a with
  | NaN => NaN
  | Inf s => Inf (negb s)
  | Fin x => Fin (- x)
  end.

Definition fadd (a b : number) : number :=
  match a, b with
  | NaN, _ | _, NaN => NaN
  | Inf s, Inf t => if Bool.eqb s t then Inf s else NaN
  | Inf s, Fin _ => Inf s
  | Fin _, Inf t => Inf t
  | Fin x, Fin y => round64 (x + y)
  end.

Definition fsub (a b : number) : number := fadd a (fneg b).

Definition fmul (a b : number) : number :=
  match a, b with
  | NaN, _ | _, NaN => NaN
  | Inf s, Inf t => Inf (xorb s t)
  | Inf s, Fin y => if Qeq_bool y 0 then NaN else Inf (xorb s (Qneg y))
  | Fin x, Inf t => if Qeq_bool x 0 then NaN else Inf (xorb (Qneg x) t)
  | Fin x, Fin y => round64 (x * y)
  end.

Definition fdiv (a b : number) : number :=
  match a, b with
  | NaN, _ | _, NaN => NaN
  | Inf _, Inf _ => NaN
  | Inf s, Fin y => Inf (xorb s (Qneg y))
  | Fin _, Inf _ => Fin 0
  | Fin x, Fin y =>
      if Qeq_bool y 0 then (if Qeq_bool x 0 then NaN else Inf (Qneg x))
      else round64 (x / y)
  end.

(** The number a whole-number literal or counter denotes. *)
Definition of_Z (z : Z) : number := round64 (inject_Z z).

Definition of_nat (n : nat) : number := of_Z (Z.of_nat n).

(** [Number.isNaN], [Number.isFinite] and [x < 0]. *)
Definition isNaN (a : number) : bool :=
  match a with NaN => true | _ => false end.

Definition isFinite (a : number) : bool :=
  match a with Fin _ => true | _ => false end.

Definition lt_zero (a : number) : bool :=
  match a with
  | NaN => false
  | Inf s => s
  | Fin x => Qneg x
  end.

(** Truncation toward zero (ECMAScript ToIntegerOrInfinity on a finite
    value). *)
Definition Qtrunc (x : Q) : Z := Z.quot (Qnum x) (Zpos (Qden x)).

(** Membership of a rational in binary64. *)
Definition is_binary64 (x : Q) : Prop := exists r, round64 x = Fin r /\ r == x.

End Binary64.

Import Binary64.

(** ** Strings: sequences of UTF-16 code units *)

Definition jsstring : Type := list N.

Definition jsstring_eqb (a b : jsstring) : bool :=
  if list_eq_dec N.eq_dec a b then true else false.

(** ECMAScript WhiteSpace and LineTerminator code units, the ones
    [String.prototype.trim] removes. *)
Definition is_trim_char (c : N) : bool :=
  existsb (N.eqb c)
    [9; 10; 11; 12; 13; 32; 160; 5760; 8232; 8233; 8239; 8287; 12288; 65279]%N
  || ((8192 <=? c) && (c <=? 8202))%N.

Fixpoint trimStart (s : jsstring) : jsstring :=
  match s with
  | [] => []
  | c :: s' => if is_trim_char c then trimStart s' else s
  end.

Definition trim (s : jsstring) : jsstring := rev (trimStart (rev (trimStart s))).

(** [Array.prototype.join]. *)
Fixpoint join (sep : jsstring) (l : list jsstring) : jsstring :=
  match l with
  | [] => []
  | [s] => s
  | s :: l' => s ++ sep ++ join sep l'
  end.

(** [String.prototype.split] on a class of one-code-unit separators. *)
Fixpoint split_on (is_sep : N -> bool) (s : jsstring) : list jsstring :=
  match s with
  | [] => [[]]
  | c :: s' =>
      if is_sep c then [] :: split_on is_sep s'
      else match split_on is_sep s' with
           | [] => [[c]]
           | p :: ps => (c :: p) :: ps
           end
  end.

(** ** Dates *)

Definition max_time : Z := 8640000000000000.

Record TimeValue : Type := {
  ms : Z;
  ms_range : (Z.abs ms <=? max_time)%Z = true
}.

Inductive Date : Type :=
| Date_of (t : TimeValue)
| Invalid_Date.

Definition getTime (d : Date) : number :=
  match d with
  | Date_of t => Fin (inject_Z (ms t))
  | Invalid_Date => NaN
  end.

Definition TimeValue_of (t : Z) : option TimeValue :=
  match (Z.abs t <=? max_time)%Z as b
        return ((Z.abs t <=? max_time)%Z = b -> option TimeValue) with
  | true => fun H => Some {| ms := t; ms_range := H |}
  | false => fun _ => None
  end eq_refl.

(** ECMAScript TimeClip, the conversion [new Date(number)] applies. *)
Definition TimeClip (time : number) : Date :=
  match time with
  | Fin q =>
      if Qle_bool (Qabs q) (inject_Z max_time) then
        match TimeValue_of (Qtrunc q) with
        | Some t => Date_of t
        | None => Invalid_Date
        end
      else Invalid_Date
  | _ => Invalid_Date
  end.

(** ECMAScript DayFromYear, MakeDay and [Date.UTC] for a month index
    [0..11] and a four-digit year (hours and smaller fields zero). *)
Definition DayFromYear (y : Z) : Z :=
  (365 * (y - 1970) + (y - 1969) / 4 - (y - 1901) / 100 + (y - 1601) / 400)%Z.

Definition InLeapYear (y : Z) : bool :=
  ((y mod 4 =? 0) && negb (y mod 100 =? 0) || (y mod 400 =? 0))%Z.

Definition DaysBeforeMonth (y m : Z) : Z :=
  let leap := if InLeapYear y then 1%Z else 0%Z in
  match m with
  | 0 => 0 | 1 => 31 | 2 => 59 + leap | 3 => 90 + leap | 4 => 120 + leap
  | 5 => 151 + leap | 6 => 181 + leap | 7 => 212 + leap | 8 => 243 + leap
  | 9 => 273 + leap | 10 => 304 + leap | _ => 334 + leap
  end%Z.

Definition msPerDay : Z := 86400000.

Definition Date_UTC (year month date : Z) : number :=
  of_Z ((DayFromYear year + DaysBeforeMonth year month + date - 1) * msPerDay).

(** What the browser supplies. *)
Record Host : Type := {
  Date_parse : jsstring -> Date;
  Number_of_string : jsstring -> number;
  Date_local : number -> number -> number -> Date;
  String_of_number : number -> jsstring;
  String_of_Date : Date -> jsstring;
  LocalTZA : Z -> Z;
  TypeError_message : jsstring
}.

(** ** Data model of [src/App.tsx] *)

(** A cell of a parsed sheet: [null] (the [defval]), a boolean, a number,
    a text or, with [cellDates], a native date.  A key that is absent from
    a row reads as [undefined], here [None] of [row_get]. *)
Inductive cell : Type :=
| CNull
| CBool (b : bool)
| CNumber (v : number)
| CString (s : jsstring)
| CDate (d : Date).

Definition RawRow : Type := list (jsstring * cell).

Fixpoint row_get (row : RawRow) (key : jsstring) : option cell :=
  match row with
  | [] => None
  | (k, v) :: row' => if jsstring_eqb k key then Some v else row_get row' key
  end.

(** The three durations of a [ParsedRow] are results of [Math.round],
    whole numbers, and are kept as integers; the counters of the
    aggregator count elements of an array and are kept as naturals. *)
Record ParsedRow : Type := {
  patientCode : jsstring;
  userName : jsstring;
  doctorName : jsstring;
  sentDate : Date;
  deliveredDate : Date;
  approvedDate : Date;
  waitingTime : Z;
  handlingTime : Z;
  totalTat : Z
}.

Record AgentMetrics : Type := {
  am_userName : jsstring;
  totalRequests : nat;
  averageHandlingTime : number;
  handlingSla : number
}.

Record HourCount : Type := { hour : nat; count : nat }.

Record TeamMetrics : Type := {
  averageWaitingTime : number;
  assignmentSla : number;
  peakHours : list HourCount
}.

(** The six headers, in the order of [REQUIRED_COLUMNS]: patient code,
    user name, doctor name, sent date, delivered date, approved date. *)
Definition col_patientCode : jsstring :=
  [1603; 1608; 1583; 32; 1575; 1604; 1605; 1585; 1610; 1590]%N.
Definition col_userName : jsstring :=
  [1575; 1587; 1605; 32; 1575; 1604; 1605; 1587; 1578; 1582; 1583; 1605]%N.
Definition col_doctorName : jsstring :=
  [1575; 1587; 1605; 32; 1575; 1604; 1591; 1576; 1610; 1576]%N.
Definition col_sentDate : jsstring :=
  [1578; 1575; 1585; 1610; 1582; 32; 1575; 1604; 1573; 1585; 1587; 1575; 1604]%N.
Definition col_deliveredDate : jsstring :=
  [1578; 1575; 1585; 1610; 1582; 32; 1575; 1604; 1578; 1587; 1604; 1610; 1605]%N.
Definition col_approvedDate : jsstring :=
  [1578; 1575; 1585; 1610; 1582; 32; 1575; 1604; 1605; 1608; 1575; 1601; 1602; 1577]%N.

Definition REQUIRED_COLUMNS : list jsstring :=
  [col_patientCode; col_userName; col_doctorName;
   col_sentDate; col_deliveredDate; col_approvedDate].

(** The sheet name [ag-grid] and the five messages of [handleFileChange]. *)
Definition sheet_name : jsstring := [97; 103; 45; 103; 114; 105; 100]%N.

Definition msg_missing_sheet : jsstring :=
  [1604; 1605; 32; 1610; 1578; 1605; 32; 1575; 1604; 1593; 1579; 1608; 1585;
   32; 1593; 1604; 1609; 32; 1608; 1585; 1602; 1577; 32; 1575; 1604; 1593;
   1605; 1604; 32; 97; 103; 45; 103; 114; 105; 100; 32; 1601; 1610; 32; 1575;
   1604; 1605; 1604; 1601; 46]%N.

Definition msg_no_rows : jsstring :=
  [1604; 1575; 32; 1578; 1608; 1580; 1583; 32; 1576; 1610; 1575; 1606; 1575;
   1578; 32; 1601; 1610; 32; 1608; 1585; 1602; 1577; 32; 1575; 1604; 1593;
   1605; 1604; 32; 97; 103; 45; 103; 114; 105; 100; 46]%N.

Definition msg_missing_columns_prefix : jsstring :=
  [1575; 1604; 1575; 1593; 1605; 1583; 1577; 32; 1575; 1604; 1578; 1575; 1604;
   1610; 1577; 32; 1594; 1610; 1585; 32; 1605; 1608; 1580; 1608; 1583; 1577;
   58; 32]%N.

Definition arabic_comma_space : jsstring := [1548; 32]%N.

Definition msg_no_valid_rows : jsstring :=
  [1604; 1605; 32; 1610; 1578; 1605; 32; 1575; 1604; 1593; 1579; 1608; 1585;
   32; 1593; 1604; 1609; 32; 1589; 1601; 1608; 1601; 32; 1589; 1575; 1604;
   1581; 1577; 32; 1576; 1593; 1583; 32; 1575; 1604; 1578; 1581; 1602; 1602;
   32; 1605; 1606; 32; 1575; 1604; 1576; 1610; 1575; 1606; 1575; 1578; 46]%N.

Definition msg_unexpected : jsstring :=
  [1581; 1583; 1579; 32; 1582; 1591; 1571; 32; 1594; 1610; 1585; 32; 1605;
   1578; 1608; 1602; 1593; 32; 1571; 1579; 1606; 1575; 1569; 32; 1605; 1593;
   1575; 1604; 1580; 1577; 32; 1575; 1604; 1605; 1604; 1601; 46]%N.

(** [arabicDigitMap]: the Arabic-Indic digits U+0660..U+0669 and their
    ASCII digits. *)
Definition arabicDigitMap : list (N * N) :=
  [(1632, 48); (1633, 49); (1634, 50); (1635, 51); (1636, 52);
   (1637, 53); (1638, 54); (1639, 55); (1640, 56); (1641, 57)]%N.

Fixpoint digit_lookup (m : list (N * N)) (c : N) : option N :=
  match m with
  | [] => None
  | (k, v) :: m' => if N.eqb k c then Some v else digit_lookup m' c
  end.

(** The class [[٠-٩]] of the regular expression of [normalizeDigits]. *)
Definition is_arabic_digit (c : N) : bool := ((1632 <=? c) && (c <=? 1641))%N.

(** The callback [(digit) => arabicDigitMap[digit] ?? digit] where the
    class matches, the code unit itself elsewhere. *)
Definition normalize_char (c : N) : N :=
  if is_arabic_digit c then
    match digit_lookup arabicDigitMap c with
    | Some d => d
    | None => c
    end
  else c.

(** [value.replace(/[٠-٩]/g, (digit) => arabicDigitMap[digit] ?? digit)]. *)
Definition normalizeDigits (value : jsstring) : jsstring := map normalize_char value.

(** The class [[\/\-\.]]. *)
Definition is_separator (c : N) : bool :=
  ((c =? 47) || (c =? 45) || (c =? 46))%N.

Definition is_valid (d : Date) : bool := negb (isNaN (getTime d)).

Definition parseDate (host : Host) (value : option cell) : option Date :=
  match value with
  | Some (CDate d) => if is_valid d then Some d else None
  | Some (CNumber v) =>
      let excelEpoch := TimeClip (Date_UTC 1899 11 30) in
      let ms_ := fmul (fmul (fmul (fmul v (of_Z 24)) (of_Z 60)) (of_Z 60)) (of_Z 1000) in
      let date := TimeClip (fadd (getTime excelEpoch) ms_) in
      if isNaN (getTime date) then None else Some date
  | Some (CString s) =>
      let normalized := normalizeDigits (trim s) in
      match normalized with
      | [] => None
      | _ :: _ =>
          let parsed := Date_parse host normalized in
          if is_valid parsed then Some parsed
          else if existsb is_separator normalized then
            let parts := map trim (split_on is_separator normalized) in
            if (3 <=? length parts)%nat then
              match map (Number_of_string host) parts with
              | day :: month :: year :: _ =>
                  let fallback := Date_local host year (fsub month (of_Z 1)) day in
                  if isNaN (getTime fallback) then None else Some fallback
              | _ => None
              end
            else None
          else None
      end
  | _ => None
  end.

(** [Math.round]: the nearest integer, a tie going up. *)
Definition Math_round (x : Q) : Z := Qfloor (x + (1 # 2)).

Definition minutesBetween (start end_ : Date) : option Z :=
  let diff := fdiv (fsub (getTime end_) (getTime start)) (fmul (of_Z 1000) (of_Z 60)) in
  if negb (isFinite diff) || lt_zero diff then None
  else match diff with
       | Fin q => Some (Math_round q)
       | _ => None
       end.

(** [String(v)] for the value [v] of [row[key]], with the empty text for
    [null] and [undefined]. *)
Definition String_of (host : Host) (v : option cell) : jsstring :=
  match v with
  | None | Some CNull => []
  | Some (CBool true) => [116; 114; 117; 101]%N
  | Some (CBool false) => [102; 97; 108; 115; 101]%N
  | Some (CNumber n) => String_of_number host n
  | Some (CString s) => s
  | Some (CDate d) => String_of_Date host d
  end.

(** The trimmed text of a cell. *)
Definition text_field (host : Host) (row : RawRow) (key : jsstring) : jsstring :=
  trim (String_of host (row_get row key)).

Definition is_empty (s : jsstring) : bool :=
  match s with [] => true | _ => false end.

(** The callback of [rows.forEach]: [None] is a skipped row. *)
Definition transformRow (host : Host) (row : RawRow) : option ParsedRow :=
  let patientCode := text_field host row col_patientCode in
  let userName := text_field host row col_userName in
  let doctorName := text_field host row col_doctorName in
  let sentDate := parseDate host (row_get row col_sentDate) in
  let deliveredDate := parseDate host (row_get row col_deliveredDate) in
  let approvedDate := parseDate host (row_get row col_approvedDate) in
  if is_empty patientCode || is_empty userName || is_empty doctorName then None
  else
    match sentDate, deliveredDate, approvedDate with
    | Some sentDate, Some deliveredDate, Some approvedDate =>
        match minutesBetween sentDate deliveredDate,
              minutesBetween deliveredDate approvedDate,
              minutesBetween sentDate approvedDate with
        | Some waitingTime, Some handlingTime, Some totalTat =>
            Some {| patientCode := patientCode; userName := userName;
                    doctorName := doctorName; sentDate := sentDate;
                    deliveredDate := deliveredDate; approvedDate := approvedDate;
                    waitingTime := waitingTime; handlingTime := handlingTime;
                    totalTat := totalTat |}
        | _, _, _ => None
        end
    | _, _, _ => None
    end.

(** [rows.forEach] with its two accumulators [skipped] and [parsed]. *)
Definition processRows (host : Host) (rows : list RawRow) : nat * list ParsedRow :=
  fold_left
    (fun acc row =>
       match transformRow host row with
       | None => (S (fst acc), snd acc)
       | Some r => (fst acc, snd acc ++ [r])
       end)
    rows (0%nat, []).

(** ** Aggregation *)

(** The value type of [agentMap]. *)
Record AgentAcc : Type := {
  total : nat;
  handlingSum : number;
  handlingSlaCount : nat
}.

(** A JavaScript [Map] with text keys: entries in insertion order;
    [set] on a present key keeps its position. *)
Definition AgentMap : Type := list (jsstring * AgentAcc).

Fixpoint Map_get (m : AgentMap) (key : jsstring) : option AgentAcc :=
  match m with
  | [] => None
  | (k, v) :: m' => if jsstring_eqb k key then Some v else Map_get m' key
  end.

Fixpoint Map_set (m : AgentMap) (key : jsstring) (v : AgentAcc) : AgentMap :=
  match m with
  | [] => [(key, v)]
  | (k, w) :: m' =>
      if jsstring_eqb k key then (k, v) :: m' else (k, w) :: Map_set m' key v
  end.

(** [Date.prototype.getHours]: the hour of the day in local time. *)
Definition getHours (host : Host) (t : TimeValue) : Z :=
  (((ms t + LocalTZA host (ms t)) / 3600000) mod 24)%Z.

(** [peakHours[hour].count += 1]; an index outside the array reads
    [undefined] and the assignment throws a TypeError, here [None]. *)
Fixpoint bump (l : list HourCount) (i : nat) : option (list HourCount) :=
  match l, i with
  | [], _ => None
  | h :: l', O => Some ({| hour := hour h; count := S (count h) |} :: l')
  | h :: l', S i' => option_map (cons h) (bump l' i')
  end.

Record AggState : Type := {
  agentMap : AgentMap;
  waitingSum : number;
  waitingSlaCount : nat;
  hourBuckets : list HourCount
}.

Definition initial_AggState : AggState :=
  {| agentMap := [];
     waitingSum := of_Z 0;
     waitingSlaCount := 0;
     hourBuckets := map (fun h => {| hour := h; count := 0 |}) (seq 0 24) |}.

(** The callback of [parsed.forEach].  The entry of the agent is updated
    in place and stored again under its key. *)
Definition aggregate_row (host : Host) (st : AggState) (row : ParsedRow)
  : option AggState :=
  let agent :=
    match Map_get (agentMap st) (userName row) with
    | Some a => a
    | None => {| total := 0; handlingSum := of_Z 0; handlingSlaCount := 0 |}
    end in
  let agent :=
    {| total := S (total agent);
       handlingSum := fadd (handlingSum agent) (Fin (inject_Z (handlingTime row)));
       handlingSlaCount :=
         if (handlingTime row <=? 20)%Z then S (handlingSlaCount agent)
         else handlingSlaCount agent |} in
  match sentDate row with
  | Invalid_Date => None
  | Date_of t =>
      match bump (hourBuckets st) (Z.to_nat (getHours host t)) with
      | None => None
      | Some buckets =>
          Some {| agentMap := Map_set (agentMap st) (userName row) agent;
                  waitingSum := fadd (waitingSum st) (Fin (inject_Z (waitingTime row)));
                  waitingSlaCount :=
                    if (waitingTime row <=? 10)%Z then S (waitingSlaCount st)
                    else waitingSlaCount st;
                  hourBuckets := buckets |}
      end
  end.

Fixpoint aggregate_rows (host : Host) (st : AggState) (parsed : list ParsedRow)
  : option AggState :=
  match parsed with
  | [] => Some st
  | row :: rest =>
      match aggregate_row host st row with
      | None => None
      | Some st' => aggregate_rows host st' rest
      end
  end.

(** [Array.prototype.sort] with a comparator: a stable sort, written as
    insertion from the right; [x] goes before the first [y] with
    [cmp x y <= 0]. *)
Fixpoint sort_insert {A : Type} (cmp : A -> A -> Z) (x : A) (l : list A) : list A :=
  match l with
  | [] => [x]
  | y :: l' => if (cmp x y <=? 0)%Z then x :: l else y :: sort_insert cmp x l'
  end.

Fixpoint Array_sort {A : Type} (cmp : A -> A -> Z) (l : list A) : list A :=
  match l with
  | [] => []
  | x :: l' => sort_insert cmp x (Array_sort cmp l')
  end.

Definition by_totalRequests_desc (a b : AgentMetrics) : Z :=
  (Z.of_nat (totalRequests b) - Z.of_nat (totalRequests a))%Z.

Definition by_count_desc (a b : HourCount) : Z :=
  (Z.of_nat (count b) - Z.of_nat (count a))%Z.

Definition metrics_of_entry (e : jsstring * AgentAcc) : AgentMetrics :=
  let (userName, data) := e in
  {| am_userName := userName;
     totalRequests := total data;
     averageHandlingTime := fdiv (handlingSum data) (of_nat (total data));
     handlingSla :=
       fmul (fdiv (of_nat (handlingSlaCount data)) (of_nat (total data))) (of_Z 100) |}.

(** Lines 209 to 262 of [handleFileChange]: [None] is the TypeError of an
    hour outside the histogram. *)
Definition aggregate (host : Host) (parsed : list ParsedRow)
  : option (list AgentMetrics * TeamMetrics) :=
  match aggregate_rows host initial_AggState parsed with
  | None => None
  | Some st =>
      let agentMetrics :=
        Array_sort by_totalRequests_desc (map metrics_of_entry (agentMap st)) in
      let topHours :=
        filter (fun item => (0 <? count item)%nat)
               (firstn 3 (Array_sort by_count_desc (hourBuckets st))) in
      let teamStats :=
        {| averageWaitingTime := fdiv (waitingSum st) (of_nat (length parsed));
           assignmentSla :=
             fmul (fdiv (of_nat (waitingSlaCount st)) (of_nat (length parsed)))
                  (of_Z 100);
           peakHours := topHours |} in
      Some (agentMetrics, teamStats)
  end.

(** ** The handler *)

(** What a [throw] carries: an [Error] with its message, or anything
    else. *)
Inductive thrown : Type :=
| ErrorObject (message : jsstring)
| NotAnError.

(** A parsed workbook: its sheets by name, each as the rows
    [sheet_to_json] returns. *)
Definition Workbook : Type := list (jsstring * list RawRow).

Fixpoint Sheets (w : Workbook) (name : jsstring) : option (list RawRow) :=
  match w with
  | [] => None
  | (k, v) :: w' => if jsstring_eqb k name then Some v else Sheets w' name
  end.

(** A selected file: its name and what reading and parsing its bytes
    gives. *)
Record File : Type := {
  file_name : jsstring;
  file_read : thrown + Workbook
}.

Record AppState : Type := {
  error : option jsstring;
  fileName : option jsstring;
  parsedRows : list ParsedRow;
  agents : list AgentMetrics;
  teamMetrics : option TeamMetrics;
  skippedCount : nat
}.

Record Published : Type := {
  pub_parsed : list ParsedRow;
  pub_agentMetrics : list AgentMetrics;
  pub_teamStats : TeamMetrics;
  pub_skipped : nat
}.

Definition Object_keys (row : RawRow) : list jsstring := map fst row.

Definition has (keys : list jsstring) (k : jsstring) : bool :=
  existsb (jsstring_eqb k) keys.

Definition missingColumns (rows : list RawRow) : list jsstring :=
  let availableColumns := Object_keys (hd [] rows) in
  filter (fun column => negb (has availableColumns column)) REQUIRED_COLUMNS.

(** The body of the [try] block, from the workbook on. *)
Definition tryBlock (host : Host) (f : File) : thrown + Published :=
  match file_read f with
  | inl e => inl e
  | inr workbook =>
      match Sheets workbook sheet_name with
      | None => inl (ErrorObject msg_missing_sheet)
      | Some rows =>
          match rows with
          | [] => inl (ErrorObject msg_no_rows)
          | _ :: _ =>
              match missingColumns rows with
              | (_ :: _) as missing =>
                  inl (ErrorObject
                         (msg_missing_columns_prefix
                            ++ join arabic_comma_space missing ++ [46%N]))
              | [] =>
                  let (skipped, parsed) := processRows host rows in
                  match parsed with
                  | [] => inl (ErrorObject msg_no_valid_rows)
                  | _ :: _ =>
                      match aggregate host parsed with
                      | None => inl (ErrorObject (TypeError_message host))
                      | Some (agentMetrics, teamStats) =>
                          inr {| pub_parsed := parsed;
                                 pub_agentMetrics := agentMetrics;
                                 pub_teamStats := teamStats;
                                 pub_skipped := skipped |}
                      end
                  end
              end
          end
      end
  end.

(** The state setters of the component. *)
Definition setError (v : option jsstring) (st : AppState) : AppState :=
  {| error := v; fileName := fileName st; parsedRows := parsedRows st;
     agents := agents st; teamMetrics := teamMetrics st;
     skippedCount := skippedCount st |}.

Definition setFileName (v : option jsstring) (st : AppState) : AppState :=
  {| error := error st; fileName := v; parsedRows := parsedRows st;
     agents := agents st; teamMetrics := teamMetrics st;
     skippedCount := skippedCount st |}.

Definition setParsedRows (v : list ParsedRow) (st : AppState) : AppState :=
  {| error := error st; fileName := fileName st; parsedRows := v;
     agents := agents st; teamMetrics := teamMetrics st;
     skippedCount := skippedCount st |}.

Definition setAgents (v : list AgentMetrics) (st : AppState) : AppState :=
  {| error := error st; fileName := fileName st; parsedRows := parsedRows st;
     agents := v; teamMetrics := teamMetrics st;
     skippedCount := skippedCount st |}.

Definition setTeamMetrics (v : option TeamMetrics) (st : AppState) : AppState :=
  {| error := error st; fileName := fileName st; parsedRows := parsedRows st;
     agents := agents st; teamMetrics := v;
     skippedCount := skippedCount st |}.

Definition setSkippedCount (v : nat) (st : AppState) : AppState :=
  {| error := error st; fileName := fileName st; parsedRows := parsedRows st;
     agents := agents st; teamMetrics := teamMetrics st;
     skippedCount := v |}.

(** The state once the handler has run to its end on [file], with no
    other run in between. *)
Definition handleFileChange (host : Host) (file : option File) (st : AppState)
  : AppState :=
  let st := setError None st in
  let st := setParsedRows [] st in
  let st := setAgents [] st in
  let st := setTeamMetrics None st in
  let st := setSkippedCount 0 st in
  match file with
  | None => setFileName None st
  | Some f =>
      let st := setFileName (Some (file_name f)) st in
      match tryBlock host f with
      | inr p =>
          let st := setParsedRows (pub_parsed p) st in
          let st := setAgents (pub_agentMetrics p) st in
          let st := setTeamMetrics (Some (pub_teamStats p)) st in
          setSkippedCount (pub_skipped p) st
      | inl (ErrorObject message) => setError (Some message) st
      | inl NotAnError => setError (Some msg_unexpected) st
      end
  end.

(** The two halves of a run.  [handleFileChange] is an [async] function
    with one [await], on the reading of the file (line 129): the resets
    and [setFileName] run when the file is selected, and everything else,
    the [try] block from the workbook on or the [catch], runs later in one
    piece.  Other runs can start or finish in between; [handleFileChange]
    above is a run with nothing in between. *)
Definition start_run (file : option File) (st : AppState) : AppState :=
  let st := setError None st in
  let st := setParsedRows [] st in
  let st := setAgents [] st in
  let st := setTeamMetrics None st in
  let st := setSkippedCount 0 st in
  setFileName (option_map file_name file) st.

Definition finish_run (host : Host) (f : File) (st : AppState) : AppState :=
  match tryBlock host f with
  | inr p =>
      let st := setParsedRows (pub_parsed p) st in
      let st := setAgents (pub_agentMetrics p) st in
      let st := setTeamMetrics (Some (pub_teamStats p)) st in
      setSkippedCount (pub_skipped p) st
  | inl (ErrorObject message) => setError (Some message) st
  | inl NotAnError => setError (Some msg_unexpected) st
  end.

(** Selections that are started one after the other. *)
Definition start_runs (files : list (option File)) (st : AppState) : AppState :=
  fold_left (fun st file => start_run file st) files st.

(** ** Reference values of the design document *)

(** A whole number [d] of milliseconds as minutes, [d / 60000] rounded to
    the nearest integer, a half going up. *)
Definition round_minutes (d : Z) : Z := ((d + 30000) / 60000)%Z.

(** The reference epoch of numeric day-counts, midnight of 30 December
    1899 UTC, as a time value. *)
Definition excel_epoch : Z := (-2209161600000)%Z.

(** The records of the rows that pass the row transformer, in row order,
    and the number of rows that do not. *)
Definition valid_records (host : Host) (rows : list RawRow) : list ParsedRow :=
  flat_map (fun row => match transformRow host row with
                       | Some r => [r]
                       | None => []
                       end) rows.

Definition skipped_rows (host : Host) (rows : list RawRow) : nat :=
  length (filter (fun row => match transformRow host row with
                             | Some _ => false
                             | None => true
                             end) rows).

(** The pre-row checks of a run: the sheet is there, it has a data row,
    and no required column is missing from the first row. *)
Definition passes_pre_row_checks (f : File) (rows : list RawRow) : Prop :=
  exists workbook,
    file_read f = inr workbook /\
    Sheets workbook sheet_name = Some rows /\
    rows <> [] /\
    missingColumns rows = [].

(** The keys of an agent map, the sum of its [total] fields, and the
    [total] of a looked-up entry. *)
Definition keys (m : AgentMap) : list jsstring := map fst m.

Definition total_requests (m : AgentMap) : nat :=
  list_sum (map (fun e => total (snd e)) m).

Definition total_or_zero (o : option AgentAcc) : nat :=
  match o with
  | Some a => total a
  | None => 0%nat
  end.

(** The ASCII-digit equivalent of a text, in the words of the design
    document: each Arabic-Indic digit U+0660..U+0669 is replaced by the
    ASCII digit of the same value, and nothing else changes. *)
Definition ascii_digit_of (c : N) : N :=
  if is_arabic_digit c then (c - 1632 + 48)%N else c.

Definition ascii_equivalent (s : jsstring) : jsstring := map ascii_digit_of s.

(** The date of the reference epoch. *)
Definition t_epoch : TimeValue := {| ms := excel_epoch; ms_range := eq_refl |}.

(** The Standard Library's executable specification of IEEE 754
    ([SpecFloat]) at binary64, to cross-check [round64]: the value of a
    finite [spec_float], and the [spec_float] of [m * 2^e]. *)
Definition SF2Q (f : spec_float) : Q :=
  match f with
  | S754_finite s m e => Qred ((if s then - (1) else 1) * inject_Z (Zpos m) * 2 ^ e)
  | _ => 0
  end.

Definition SF_of (m e : Z) : spec_float := binary_normalize 53 1024 m e false.

Definition SF_mul : spec_float -> spec_float -> spec_float := SFmul 53 1024.
Definition SF_add : spec_float -> spec_float -> spec_float := SFadd 53 1024.
Definition SF_sub : spec_float -> spec_float -> spec_float := SFsub 53 1024.
Definition SF_div : spec_float -> spec_float -> spec_float := SFdiv 53 1024.

(** ** Sample inputs *)

(** A host in the UTC zone whose text parsers accept nothing; the sample
    rows below carry native dates and numbers only, for which no host
    function is consulted. *)
Definition utc_host : Host :=
  {| Date_parse := fun _ => Invalid_Date;
     Number_of_string := fun _ => NaN;
     Date_local := fun _ _ _ => Invalid_Date;
     String_of_number := fun _ => [];
     String_of_Date := fun _ => [];
     LocalTZA := fun _ => 0%Z;
     TypeError_message := [] |}.

Definition t_0 : TimeValue := {| ms := 0; ms_range := eq_refl |}.
Definition t_30000 : TimeValue := {| ms := 30000; ms_range := eq_refl |}.
Definition t_60000 : TimeValue := {| ms := 60000; ms_range := eq_refl |}.
Definition t_90000 : TimeValue := {| ms := 90000; ms_range := eq_refl |}.

(** The earliest date there is, and a date in the year 13606. *)
Definition t_first : TimeValue := {| ms := -8640000000000000; ms_range := eq_refl |}.
Definition t_far : TimeValue := {| ms := 367199254829999; ms_range := eq_refl |}.

(** A row with the six required columns. *)
Definition row_of (patient user doctor : jsstring) (sent delivered approved : cell)
  : RawRow :=
  [(col_patientCode, CString patient); (col_userName, CString user);
   (col_doctorName, CString doctor); (col_sentDate, sent);
   (col_deliveredDate, delivered); (col_approvedDate, approved)].

(** The texts P1, A and D. *)
Definition txt_P1 : jsstring := [80; 49]%N.
Definition txt_A : jsstring := [65]%N.
Definition txt_D : jsstring := [68]%N.

(** Sent at 0 s, delivered at 30 s, approved at 60 s. *)
Definition row_half_minutes : RawRow :=
  row_of txt_P1 txt_A txt_D
    (CDate (Date_of t_0)) (CDate (Date_of t_30000)) (CDate (Date_of t_60000)).

(** The three dates equal. *)
Definition row_same_instant : RawRow :=
  row_of txt_P1 txt_A txt_D
    (CDate (Date_of t_60000)) (CDate (Date_of t_60000)) (CDate (Date_of t_60000)).

(** All six cells empty. *)
Definition row_blank : RawRow :=
  [(col_patientCode, CNull); (col_userName, CNull); (col_doctorName, CNull);
   (col_sentDate, CNull); (col_deliveredDate, CNull); (col_approvedDate, CNull)].

(** A workbook whose sheet [ag-grid] has the one row [row_blank]. *)
Definition file_blank : File :=
  {| file_name := [98; 46; 120; 108; 115; 120]%N;
     file_read := inr [(sheet_name, [row_blank])] |}.

Definition initial_AppState : AppState :=
  {| error := None; fileName := None; parsedRows := []; agents := [];
     teamMetrics := None; skippedCount := 0 |}.

(** The day-count 45366.26521135417 (15 March 2024, 06:21:54 and a
    fraction), as the binary64 value it is. *)
Definition day_count_2024 : Q := 3117546006790859 # 68719476736.

(** The binary64 value nearest to -1.3. *)
Definition minus_1_3 : Q := - (5854679515581645 # 4503599627370496).

(** The day-count -45366.04228767361, as the binary64 value it is, and
    the negative day-count [-2^-60]. *)
Definition minus_45366 : Q := - (3117530687592179 # 68719476736).
Definition minus_tiny : Q := - (1 # 1152921504606846976).

(** ** What the component shows *)

(** [parsedRows.length > 0 && teamMetrics]. *)
Definition hasData (st : AppState) : bool :=
  match parsedRows st, teamMetrics st with
  | _ :: _, Some _ => true
  | _, _ => false
  end.

(** The three conditional blocks of the page: [error && ...] (an empty
    message is falsy), [hasData && skippedCount > 0 && ...] and
    [!hasData && ...]. *)
Definition shows_error (st : AppState) : bool :=
  match error st with
  | Some (_ :: _) => true
  | _ => false
  end.

Definition shows_skipped_notice (st : AppState) : bool :=
  hasData st && (0 <? skippedCount st)%nat.

Definition shows_placeholder (st : AppState) : bool := negb (hasData st).

(** [sentDate.getHours()] of a record: [None] is the NaN of an invalid
    date. *)
Definition sent_hour (host : Host) (row : ParsedRow) : option Z :=
  match sentDate row with
  | Date_of t => Some (getHours host t)
  | Invalid_Date => None
  end.

(** The [counts] of [peakData]: for each hour 0..23,
    [parsedRows.filter((row) => row.sentDate.getHours() === hour).length]. *)
Definition sent_in_hour (host : Host) (rows : list ParsedRow) (h : nat) : nat :=
  length (filter (fun row => match sent_hour host row with
                             | Some z => (z =? Z.of_nat h)%Z
                             | None => false
                             end) rows).

Definition peakData_counts (host : Host) (st : AppState) : list nat :=
  map (sent_in_hour host (parsedRows st)) (seq 0 24).

(** The histogram of the hours of sending: one entry per hour of the
    day, in order, with the number of records sent in that hour. *)
Definition histogram (host : Host) (rows : list ParsedRow) : list HourCount :=
  map (fun h => {| hour := h; count := sent_in_hour host rows h |}) (seq 0 24).

(** The order of the sorted buckets: more records first, and the earlier
    hour first among equal counts. *)
Definition busier (a b : HourCount) : Prop :=
  (count b < count a)%nat \/ (count b = count a /\ hour a < hour b)%nat.

(** A number at least [b] away from zero on the side [negative]: an
    infinity of that sign, or a finite value beyond the bound. *)
Definition signed (negative : bool) (x : Q) : Q := if negative then - x else x.

Definition beyond (negative : bool) (n : number) (b : Q) : Prop :=
  match n with
  | NaN => False
  | Inf s => s = negative
  | Fin r => b <= signed negative r
  end.

(** The [labels] and [data] of [barData] and the [data] of
    [handlingData]. *)
Definition barData_labels (st : AppState) : list jsstring :=
  map am_userName (agents st).

Definition barData_data (st : AppState) : list nat :=
  map totalRequests (agents st).

Definition handlingData_data (st : AppState) : list number :=
  map averageHandlingTime (agents st).

(** ** Formatting

    [Number.prototype.toFixed(1)].  The digits of a natural number, the
    least significant first; [fuel] bounds their number. *)
Fixpoint low_digits (fuel : nat) (n : N) : list N :=
  match fuel with
  | O => []
  | S fuel' =>
      (n mod 10)%N :: (if (n / 10 =? 0)%N then [] else low_digits fuel' (n / 10)%N)
  end.

(** The decimal representation of a natural number: the single digit 0
    for 0, no leading zero otherwise. *)
Definition decimal_digits (n : N) : jsstring :=
  map (fun d => (48 + d)%N) (rev (low_digits (S (N.to_nat (N.log2 n))) n)).

Definition txt_NaN : jsstring := [78; 97; 78]%N.
Definition txt_Infinity : jsstring := [73; 110; 102; 105; 110; 105; 116; 121]%N.

(** [x.toFixed(1)]: a value that is not finite or is at least [10^21] in
    magnitude prints as [String(x)]; otherwise the sign, then the integer
    [n] nearest to ten times the magnitude, the larger one of two
    nearest, with a point before its last digit. *)
Definition toFixed1 (host : Host) (x : number) : jsstring :=
  match x with
  | NaN => txt_NaN
  | Inf s => (if s then [45%N] else []) ++ txt_Infinity
  | Fin q =>
      if Qle_bool (inject_Z (10 ^ 21)%Z) (Qabs q) then String_of_number host x
      else
        let n := Z.to_N (Qfloor (Qabs q * 10 + (1 # 2))%Q) in
        (if Qneg q then [45%N] else [])
          ++ decimal_digits (n / 10)%N ++ [46%N] ++ decimal_digits (n mod 10)%N
  end.

Definition txt_minutes_suffix : jsstring := [32; 1583; 1602; 1610; 1602; 1577]%N.

Definition formatMinutes (host : Host) (value : number) : jsstring :=
  toFixed1 host value ++ txt_minutes_suffix.

Definition formatPercentage (host : Host) (value : number) : jsstring :=
  toFixed1 host value ++ [37%N].

(** The value of little-endian digits. *)
Definition low_value (l : list N) : N :=
  fold_right (fun d acc => (10 * acc + d)%N) 0%N l.

(** ** Vocabulary of the properties of the aggregator *)

(** The user names of a list in the order of their first appearance. *)
Definition first_seen (names : list jsstring) : list jsstring :=
  fold_left (fun acc name => if has acc name then acc else acc ++ [name]) names [].

(** The records of one user, and their number. *)
Definition records_of (name : jsstring) (rows : list ParsedRow) : list ParsedRow :=
  filter (fun r => jsstring_eqb (userName r) name) rows.

Definition requests_of (name : jsstring) (rows : list ParsedRow) : nat :=
  length (records_of name rows).

(** A first row without the doctor-name column. *)
Definition row_without_doctor : RawRow :=
  [(col_patientCode, CString txt_P1); (col_userName, CString txt_A);
   (col_sentDate, CDate (Date_of t_0)); (col_deliveredDate, CDate (Date_of t_30000));
   (col_approvedDate, CDate (Date_of t_60000))].

Definition file_without_doctor : File :=
  {| file_name := []; file_read := inr [(sheet_name, [row_without_doctor; row_same_instant])] |}.

(** The number a text of ASCII digits denotes. *)
Definition is_ascii_digit (c : N) : bool := ((48 <=? c) && (c <=? 57))%N.

Definition decimal_value (s : jsstring) : N :=
  fold_left (fun acc c => (10 * acc + (c - 48))%N) s 0%N.

(** ** A sample browser

    A host in the UTC zone, for the instances of the properties that read
    text.  [Number(text)] is ECMAScript's StringToNumber: white space is
    trimmed, the empty text is 0, and the text is a signed decimal
    literal with an optional fraction and exponent, [Infinity], or a
    binary, octal or hexadecimal integer. *)
Fixpoint span_digits (s : jsstring) : jsstring * jsstring :=
  match s with
  | c :: s' =>
      if is_ascii_digit c then let (d, r) := span_digits s' in (c :: d, r)
      else ([], s)
  | [] => ([], [])
  end.

Definition is_nil (s : jsstring) : bool :=
  match s with [] => true | _ :: _ => false end.

Definition take_sign (s : jsstring) : bool * jsstring :=
  match s with
  | 43%N :: t => (false, t)
  | 45%N :: t => (true, t)
  | _ => (false, s)
  end.

Definition exponent_of (s : jsstring) : option Z :=
  match s with
  | [] => Some 0%Z
  | e :: r =>
      if ((e =? 101) || (e =? 69))%N then
        let (negative, digits) := take_sign r in
        if negb (is_nil digits) && forallb is_ascii_digit digits then
          Some (if negative then (- Z.of_N (decimal_value digits))%Z
                else Z.of_N (decimal_value digits))
        else None
      else None
  end.

Definition unsigned_decimal (s : jsstring) : option Q :=
  let (ip, r1) := span_digits s in
  let (fp, r2) := match r1 with
                  | 46%N :: t => span_digits t
                  | _ => ([], r1)
                  end in
  if is_nil ip && is_nil fp then None
  else match exponent_of r2 with
       | Some e =>
           Some (inject_Z (Z.of_N (decimal_value (ip ++ fp)))
                 * 10 ^ (e - Z.of_nat (length fp)))%Q
       | None => None
       end.

Definition digit_in_base (base c : N) : option N :=
  let v := if ((48 <=? c) && (c <=? 57))%N then Some (c - 48)%N
           else if ((97 <=? c) && (c <=? 102))%N then Some (c - 87)%N
           else if ((65 <=? c) && (c <=? 70))%N then Some (c - 55)%N
           else None in
  match v with
  | Some d => if (d <? base)%N then Some d else None
  | None => None
  end.

Definition value_in_base (base : N) (s : jsstring) : option N :=
  fold_left (fun acc c => match acc, digit_in_base base c with
                          | Some a, Some d => Some (base * a + d)%N
                          | _, _ => None
                          end) s (Some 0%N).

Definition non_decimal (s : jsstring) : option N :=
  match s with
  | 48%N :: x :: ((_ :: _) as digits) =>
      if ((x =? 120) || (x =? 88))%N then value_in_base 16 digits
      else if ((x =? 111) || (x =? 79))%N then value_in_base 8 digits
      else if ((x =? 98) || (x =? 66))%N then value_in_base 2 digits
      else None
  | _ => None
  end.

Definition StringToNumber (s : jsstring) : number :=
  match trim s with
  | [] => Fin 0
  | (_ :: _) as t =>
      match non_decimal t with
      | Some n => of_Z (Z.of_N n)
      | None =>
          let (negative, r) := take_sign t in
          if jsstring_eqb r txt_Infinity then Inf negative
          else match unsigned_decimal r with
               | Some q => round64 (if negative then - q else q)%Q
               | None => NaN
               end
      end
  end.

(** [new Date(year, month, day)] in the UTC zone: each argument is
    truncated, a year from 0 to 99 is a year of the 1900s, and a month
    outside 0..11 carries into the year (ECMAScript MakeDay). *)
Definition new_Date_utc (year month day : number) : Date :=
  match year, month, day with
  | Fin y, Fin m, Fin d =>
      let yi := Qtrunc y in
      let mi := Qtrunc m in
      let full := if ((0 <=? yi) && (yi <=? 99))%Z then (1900 + yi)%Z else yi in
      TimeClip (Date_UTC (full + mi / 12) (mi mod 12) (Qtrunc d))
  | _, _, _ => Invalid_Date
  end.

(** [new Date(text)] for the two numeric forms: month/day/year, read as
    local time with a month from 1 to 12, a day from 1 to 31 and a
    two-digit year below 50 in the 2000s, and the ISO form
    year-month-day of four, two and two digits, read as UTC.  Any other
    text, a text with a month above 12 among them, is an invalid date. *)
Definition all_digits (s : jsstring) : bool :=
  negb (is_nil s) && forallb is_ascii_digit s.

Definition numeric_Date_parse (s : jsstring) : Date :=
  match split_on (N.eqb 47) s with
  | [m; d; y] =>
      if all_digits m && all_digits d && all_digits y then
        let mv := Z.of_N (decimal_value m) in
        let dv := Z.of_N (decimal_value d) in
        let yv := Z.of_N (decimal_value y) in
        let full := if (yv <? 50)%Z then (2000 + yv)%Z
                    else if (yv <? 100)%Z then (1900 + yv)%Z else yv in
        if ((1 <=? mv) && (mv <=? 12) && (1 <=? dv) && (dv <=? 31))%Z
        then TimeClip (Date_UTC full (mv - 1) dv)
        else Invalid_Date
      else Invalid_Date
  | _ =>
      match split_on (N.eqb 45) s with
      | [y; m; d] =>
          if all_digits y && all_digits m && all_digits d
             && (length y =? 4)%nat && (length m =? 2)%nat && (length d =? 2)%nat
          then
            let mv := Z.of_N (decimal_value m) in
            let dv := Z.of_N (decimal_value d) in
            if ((1 <=? mv) && (mv <=? 12) && (1 <=? dv) && (dv <=? 31))%Z
            then TimeClip (Date_UTC (Z.of_N (decimal_value y)) (mv - 1) dv)
            else Invalid_Date
          else Invalid_Date
      | _ => Invalid_Date
      end
  end.

Definition utc_browser : Host :=
  {| Date_parse := numeric_Date_parse;
     Number_of_string := StringToNumber;
     Date_local := new_Date_utc;
     String_of_number := String_of_number utc_host;
     String_of_Date := String_of_Date utc_host;
     LocalTZA := fun _ => 0%Z;
     TypeError_message := TypeError_message utc_host |}.

(** The text of 25 December 2024 as day/month/year in Arabic-Indic
    digits: no month 25, so [new Date] rejects its ASCII form. *)
Definition txt_dmy_arabic : jsstring :=
  [1634; 1637; 47; 1633; 1634; 47; 1634; 1632; 1634; 1636]%N.

(** The text 05/03/2024, which [new Date] reads as 3 May 2024. *)
Definition txt_mdy : jsstring := [48; 53; 47; 48; 51; 47; 50; 48; 50; 52]%N.

(** One update of an agent's entry, as in the callback of
    [parsed.forEach], and the entry built from the records of one agent
    alone. *)
Definition agent_step (o : option AgentAcc) (row : ParsedRow) : option AgentAcc :=
  let agent :=
    match o with
    | Some a => a
    | None => {| total := 0; handlingSum := of_Z 0; handlingSlaCount := 0 |}
    end in
  Some {| total := S (total agent);
          handlingSum := fadd (handlingSum agent) (Fin (inject_Z (handlingTime row)));
          handlingSlaCount :=
            if (handlingTime row <=? 20)%Z then S (handlingSlaCount agent)
            else handlingSlaCount agent |}.

Definition agent_of_records (rows : list ParsedRow) : option AgentAcc :=
  fold_left agent_step rows None.

(** A sum of whole minutes in double arithmetic, from the left, starting
    at 0. *)
Definition sum_minutes (l : list Z) : number :=
  fold_left (fun acc m => fadd acc (Fin (inject_Z m))) l (of_Z 0).

(** The exact sum. *)
Definition Zsum (l : list Z) : Z := fold_right Z.add 0%Z l.

(** Two rows of agent A, handled in 10 and in 30 minutes, and one of
    agent D handled in 1 minute within the hour after. *)
Definition t_600000 : TimeValue := {| ms := 600000; ms_range := eq_refl |}.
Definition t_1800000 : TimeValue := {| ms := 1800000; ms_range := eq_refl |}.
Definition t_3600000 : TimeValue := {| ms := 3600000; ms_range := eq_refl |}.
Definition t_3660000 : TimeValue := {| ms := 3660000; ms_range := eq_refl |}.

Definition rows_two_agents : list RawRow :=
  [row_of txt_P1 txt_A txt_D
     (CDate (Date_of t_0)) (CDate (Date_of t_0)) (CDate (Date_of t_600000));
   row_of txt_P1 txt_D txt_D
     (CDate (Date_of t_3600000)) (CDate (Date_of t_3600000)) (CDate (Date_of t_3660000));
   row_of txt_P1 txt_A txt_D
     (CDate (Date_of t_0)) (CDate (Date_of t_0)) (CDate (Date_of t_1800000))].

Definition file_two_agents : File :=
  {| file_name := []; file_read := inr [(sheet_name, rows_two_agents)] |}.

(** The counters of a looked-up entry, 0 when there is none. *)
Definition sla_count_or_zero (o : option AgentAcc) : nat :=
  match o with
  | Some a => handlingSlaCount a
  | None => 0%nat
  end.

Definition handlingSum_or_zero (o : option AgentAcc) : number :=
  match o with
  | Some a => handlingSum a
  | None => of_Z 0
  end.

(** * Properties *)

(** ** Binary64 rounding *)

Local Open Scope Q_scope.

Lemma Qpow2_pos (k : Z) : 0 < 2 ^ k.
Proof. apply Qpower_0_lt. reflexivity. Qed.

Lemma Qpow2_add (a b : Z) : 2 ^ (a + b) == 2 ^ a * 2 ^ b.
Proof. apply Qpower_plus. discriminate. Qed.

Lemma Qpow2_sub (a b : Z) : 2 ^ (a - b) == 2 ^ a / 2 ^ b.
Proof. apply Qpower_minus. discriminate. Qed.

Lemma Qpow2_le (a b : Z) : (a <= b)%Z -> 2 ^ a <= 2 ^ b.
Proof. intros H. apply Qpower_le_compat_l; [exact H | discriminate]. Qed.

Lemma Qpow2_lt_inv (a b : Z) : 2 ^ a < 2 ^ b -> (a < b)%Z.
Proof.
  intros H. destruct (Z_lt_le_dec a b) as [L | L]; [exact L | ].
  apply Qpow2_le in L. lra.
Qed.

Lemma Qpow2_Z (n : Z) : (0 <= n)%Z -> 2 ^ n == inject_Z (2 ^ n).
Proof. intros H. symmetry. apply (Zpower_Qpower 2 n H). Qed.


Lemma Qdiv_le_cross (a b n d : Q) :
  0 < b -> 0 < d -> a * d <= n * b -> a / b <= n / d.
Proof.
  intros Hb Hd H.
  apply Qle_shift_div_r; [exact Hb | ].
  setoid_replace (n / d * b) with (n * b / d) by (field; lra).
  apply Qle_shift_div_l; [exact Hd | exact H].
Qed.

Lemma Qdiv_lt_cross (a b n d : Q) :
  0 < b -> 0 < d -> a * d < n * b -> a / b < n / d.
Proof.
  intros Hb Hd H.
  apply Qlt_shift_div_r; [exact Hb | ].
  setoid_replace (n / d * b) with (n * b / d) by (field; lra).
  apply Qlt_shift_div_l; [exact Hd | exact H].
Qed.

Lemma Qilog2_bounds_aux (n : Z) (d : positive) :
  (0 < n)%Z ->
  2 ^ (Z.log2 n - Z.log2 (Zpos d) - 1) <= n # d /\
  n # d < 2 ^ (Z.log2 n - Z.log2 (Zpos d) + 1).
Proof.
  intros Hn.
  pose proof (Z.log2_spec n Hn) as [Hn1 Hn2].
  pose proof (Z.log2_spec (Zpos d) (Pos2Z.is_pos d)) as [Hd1 Hd2].
  pose proof (Z.log2_nonneg n) as Ln.
  pose proof (Z.log2_nonneg (Zpos d)) as Ld.
  set (ln := Z.log2 n) in *. set (ld := Z.log2 (Zpos d)) in *.
  assert (Pn : 0 < inject_Z n) by (rewrite <- (Zlt_Qlt 0); exact Hn).
  assert (Pd : 0 < inject_Z (Zpos d)) by reflexivity.
  rewrite (Qmake_Qdiv n d).
  split.
  - replace (ln - ld - 1)%Z with (ln - (ld + 1))%Z by lia.
    rewrite Qpow2_sub.
    apply Qdiv_le_cross; [apply Qpow2_pos | exact Pd | ].
    rewrite !Qpow2_Z by lia.
    rewrite <- !inject_Z_mult, <- Zle_Qle.
    unfold Z.succ in *. nia.
  - replace (ln - ld + 1)%Z with ((ln + 1) - ld)%Z by lia.
    rewrite Qpow2_sub.
    apply Qdiv_lt_cross; [exact Pd | apply Qpow2_pos | ].
    rewrite !Qpow2_Z by lia.
    rewrite <- !inject_Z_mult, <- Zlt_Qlt.
    unfold Z.succ in *. nia.
Qed.

Lemma Qilog2_spec (x : Q) :
  0 < x -> 2 ^ Qilog2 x <= x /\ x < 2 ^ (Qilog2 x + 1).
Proof.
  intros Hx. destruct x as [n d].
  assert (Hn : (0 < n)%Z) by (unfold Qlt in Hx; simpl in Hx; lia).
  destruct (Qilog2_bounds_aux n d Hn) as [L U].
  unfold Qilog2. cbn [Qnum Qden].
  destruct (Qle_bool (2 ^ (Z.log2 n - Z.log2 (Z.pos d))) (n # d)) eqn:E.
  - apply Qle_bool_iff in E. split; [exact E | exact U].
  - split; [exact L | ].
    replace (Z.log2 n - Z.log2 (Z.pos d) - 1 + 1)%Z
      with (Z.log2 n - Z.log2 (Z.pos d))%Z by lia.
    apply Qnot_le_lt. intros C. apply Qle_bool_iff in C. congruence.
Qed.

Lemma rne_comp (m m' : Q) : m == m' -> rne m = rne m'.
Proof.
  intros H. unfold rne. rewrite (Qfloor_comp _ _ H).
  assert (E : m - inject_Z (Qfloor m') == m' - inject_Z (Qfloor m')) by (rewrite H; reflexivity).
  rewrite (Qcompare_comp _ _ E _ _ (Qeq_refl (1 # 2))). reflexivity.
Qed.

Lemma rne_Z (n : Z) : rne (inject_Z n) = n.
Proof.
  unfold rne. rewrite Qfloor_Z.
  assert (E : inject_Z n - inject_Z n == 0) by ring.
  rewrite (Qcompare_comp _ _ E _ _ (Qeq_refl (1 # 2))). reflexivity.
Qed.

Lemma rne_error (m : Q) : Qabs (inject_Z (rne m) - m) <= 1 # 2.
Proof.
  pose proof (Qfloor_le m) as L. pose proof (Qlt_floor m) as U.
  rewrite inject_Z_plus in U. change (inject_Z 1) with 1 in U.
  unfold rne.
  destruct (Qcompare_spec (m - inject_Z (Qfloor m)) (1 # 2)) as [E | E | E].
  - destruct (Z.even (Qfloor m)).
    + apply Qabs_case; intros; lra.
    + rewrite inject_Z_plus. change (inject_Z 1) with 1.
      apply Qabs_case; intros; lra.
  - apply Qabs_case; intros; lra.
  - rewrite inject_Z_plus. change (inject_Z 1) with 1.
    apply Qabs_case; intros; lra.
Qed.

Lemma ulp_exp_min (x : Q) : (-1074 <= ulp_exp x)%Z.
Proof. unfold ulp_exp. lia. Qed.

Lemma ulp_exp_upper (x : Q) (B : Z) :
  ~ x == 0 -> Qabs x < 2 ^ B -> (ulp_exp x <= Z.max (B - 53) (-1074))%Z.
Proof.
  intros Hx HB.
  assert (P : 0 < Qabs x).
  { pose proof (Qabs_nonneg x).
    destruct (Qeq_dec (Qabs x) 0) as [E | E]; [ | lra].
    exfalso. apply Hx. revert E. apply Qabs_case; intros; lra. }
  destruct (Qilog2_spec _ P) as [L _].
  assert (Qilog2 (Qabs x) < B)%Z by (apply Qpow2_lt_inv; lra).
  unfold ulp_exp. lia.
Qed.

Lemma ulp_exp_lower (x : Q) :
  ~ x == 0 -> ulp_exp x = (-1074)%Z \/ 2 ^ (ulp_exp x + 52) <= Qabs x.
Proof.
  intros Hx.
  assert (P : 0 < Qabs x).
  { pose proof (Qabs_nonneg x).
    destruct (Qeq_dec (Qabs x) 0) as [E | E]; [ | lra].
    exfalso. apply Hx. revert E. apply Qabs_case; intros; lra. }
  destruct (Qilog2_spec _ P) as [L _].
  unfold ulp_exp.
  destruct (Z.max_spec (Qilog2 (Qabs x) - 52) (-1074)) as [[_ E] | [_ E]]; rewrite E.
  - left; reflexivity.
  - right. replace (Qilog2 (Qabs x) - 52 + 52)%Z with (Qilog2 (Qabs x)) by lia. exact L.
Qed.

Lemma Qabs_pos_of_neq (x : Q) : ~ x == 0 -> 0 < Qabs x.
Proof.
  intros Hx. pose proof (Qabs_nonneg x).
  destruct (Qeq_dec (Qabs x) 0) as [E | E]; [ | lra].
  exfalso. apply Hx. revert E. apply Qabs_case; intros; lra.
Qed.

Lemma round64_raw_error (x : Q) :
  Qabs (inject_Z (rne (x / 2 ^ ulp_exp x)) * 2 ^ ulp_exp x - x)
  <= 2 ^ ulp_exp x * (1 # 2).
Proof.
  pose proof (Qpow2_pos (ulp_exp x)) as P.
  set (p := 2 ^ ulp_exp x) in *.
  pose proof (rne_error (x / p)) as E.
  setoid_replace (inject_Z (rne (x / p)) * p - x)
    with ((inject_Z (rne (x / p)) - x / p) * p) by (field; lra).
  rewrite Qabs_Qmult, (Qabs_pos p) by lra.
  rewrite (Qmult_comm p).
  apply Qmult_le_compat_r; lra.
Qed.

Lemma round64_Fin (x : Q) :
  ~ x == 0 ->
  Qabs (inject_Z (rne (x / 2 ^ ulp_exp x)) * 2 ^ ulp_exp x) < 2 ^ 1024 ->
  exists r, round64 x = Fin r /\
            r == inject_Z (rne (x / 2 ^ ulp_exp x)) * 2 ^ ulp_exp x.
Proof.
  intros Hx Hr. unfold round64.
  destruct (Qeq_bool x 0) eqn:E0; [apply Qeq_bool_iff in E0; contradiction | ].
  cbv zeta.
  destruct (Qle_bool (2 ^ 1024) _) eqn:E1.
  - apply Qle_bool_iff in E1. lra.
  - eexists; split; [reflexivity | apply Qred_correct].
Qed.

Lemma round64_zero (x : Q) : x == 0 -> round64 x = Fin 0.
Proof.
  intros H. unfold round64.
  destruct (Qeq_bool x 0) eqn:E0; [reflexivity | ].
  apply Qeq_bool_neq in E0. contradiction.
Qed.

Lemma round64_error (x : Q) (B : Z) :
  Qabs x < 2 ^ B -> (B <= 1023)%Z ->
  exists r, round64 x = Fin r /\
            Qabs (r - x) <= 2 ^ (Z.max (B - 53) (-1074)) * (1 # 2).
Proof.
  intros HB HB'.
  destruct (Qeq_dec x 0) as [Z0 | NZ].
  { rewrite (round64_zero x Z0). exists 0. split; [reflexivity | ].
    pose proof (Qpow2_pos (Z.max (B - 53) (-1074))).
    setoid_replace (0 - x) with 0 by (rewrite Z0; ring).
    change (Qabs 0) with 0. lra. }
  pose proof (round64_raw_error x) as E.
  pose proof (ulp_exp_upper x B NZ HB) as Q1.
  pose proof (Qpow2_le _ _ Q1) as Q2.
  assert (Q3 : 2 ^ Z.max (B - 53) (-1074) <= 2 ^ 970) by (apply Qpow2_le; lia).
  assert (Q4 : 2 ^ B <= 2 ^ 1023) by (apply Qpow2_le; lia).
  assert (Q5 : 2 ^ 1023 + 2 ^ 970 * (1 # 2) < 2 ^ 1024) by (vm_compute; reflexivity).
  set (r0 := inject_Z (rne (x / 2 ^ ulp_exp x)) * 2 ^ ulp_exp x) in *.
  assert (Hr : Qabs r0 < 2 ^ 1024).
  { revert E HB. apply Qabs_case; apply Qabs_case; apply Qabs_case; intros; lra. }
  destruct (round64_Fin x NZ Hr) as [r [Er Rr]].
  exists r. split; [exact Er | ].
  fold r0 in Rr. rewrite Rr. lra.
Qed.

Lemma Qabs_inject_Z (m : Z) : Qabs (inject_Z m) = inject_Z (Z.abs m).
Proof. reflexivity. Qed.

Lemma round64_exact_strict (x : Q) (m k : Z) :
  x == inject_Z m * 2 ^ k -> (Z.abs m < 2 ^ 53)%Z -> (-1074 <= k)%Z ->
  Qabs x < 2 ^ 1024 ->
  exists r, round64 x = Fin r /\ r == x.
Proof.
  intros Hx Hm Hk Hmax.
  destruct (Qeq_dec x 0) as [Z0 | NZ].
  { rewrite (round64_zero x Z0). exists 0. split; [reflexivity | symmetry; exact Z0]. }
  pose proof (Qpow2_pos k) as Pk.
  assert (HB : Qabs x < 2 ^ (53 + k)).
  { rewrite Hx, Qabs_Qmult, Qabs_inject_Z, (Qabs_pos (2 ^ k)) by lra.
    rewrite Qpow2_add. apply Qmult_lt_compat_r; [exact Pk | ].
    rewrite Qpow2_Z by lia. rewrite <- Zlt_Qlt. exact Hm. }
  pose proof (ulp_exp_upper x (53 + k) NZ HB) as Hq.
  assert (Hq' : (ulp_exp x <= k)%Z) by lia.
  pose proof (Qpow2_pos (ulp_exp x)) as Pq.
  assert (Hdiv : x / 2 ^ ulp_exp x == inject_Z (m * 2 ^ (k - ulp_exp x))).
  { rewrite inject_Z_mult, <- Qpow2_Z by lia. rewrite Qpow2_sub.
    generalize dependent (2 ^ ulp_exp x). intros p Pp.
    rewrite Hx. field. lra. }
  assert (Hr0 : inject_Z (rne (x / 2 ^ ulp_exp x)) * 2 ^ ulp_exp x == x).
  { rewrite (rne_comp _ _ Hdiv), rne_Z, <- Hdiv. field. lra. }
  destruct (round64_Fin x NZ) as [r [Er Rr]].
  - rewrite Hr0. exact Hmax.
  - exists r. split; [exact Er | rewrite Rr; exact Hr0].
Qed.

Lemma round64_exact (x : Q) (m k : Z) :
  x == inject_Z m * 2 ^ k -> (Z.abs m <= 2 ^ 53)%Z -> (-1074 <= k)%Z ->
  Qabs x < 2 ^ 1024 ->
  exists r, round64 x = Fin r /\ r == x.
Proof.
  intros Hx Hm Hk Hmax.
  destruct (Z_lt_le_dec (Z.abs m) (2 ^ 53)) as [S | S].
  - exact (round64_exact_strict x m k Hx S Hk Hmax).
  - assert (Em : m = (2 * (m / 2))%Z).
    { assert (Z.abs m = 2 ^ 53)%Z by lia.
      assert (m = 2 ^ 53 \/ m = - 2 ^ 53)%Z as [-> | ->] by lia; reflexivity. }
    apply (round64_exact_strict x (m / 2) (k + 1)).
    + rewrite Hx, Qpow2_add. rewrite Em at 1. rewrite inject_Z_mult.
      change (2 ^ 1) with 2. change (inject_Z 2) with 2. ring.
    + assert (m = 2 ^ 53 \/ m = - 2 ^ 53)%Z as [-> | ->] by lia; reflexivity.
    + lia.
    + exact Hmax.
Qed.

Lemma round64_rel (x : Q) :
  2 ^ (-1022) <= Qabs x -> Qabs x < 2 ^ 1023 ->
  exists r, round64 x = Fin r /\ Qabs (r - x) <= Qabs x * 2 ^ (-53).
Proof.
  intros Hlo Hhi.
  assert (NZ : ~ x == 0).
  { intros E. rewrite E in Hlo. change (Qabs 0) with 0 in Hlo.
    pose proof (Qpow2_pos (-1022)). lra. }
  pose proof (round64_raw_error x) as E.
  pose proof (Qpow2_pos (-53)) as P53.
  assert (Hulp : 2 ^ ulp_exp x * (1 # 2) <= Qabs x * 2 ^ (-53)).
  { destruct (ulp_exp_lower x NZ) as [Eq | Lo].
    - rewrite Eq.
      setoid_replace (2 ^ (-1074) * (1 # 2)) with (2 ^ (-1022) * 2 ^ (-53))
        by (vm_compute; reflexivity).
      apply Qmult_le_compat_r; lra.
    - setoid_replace (2 ^ ulp_exp x * (1 # 2)) with (2 ^ (ulp_exp x + 52) * 2 ^ (-53)).
      + apply Qmult_le_compat_r; lra.
      + rewrite Qpow2_add.
        setoid_replace (2 ^ (-53)) with ((1 # 2) * / 2 ^ 52) by (vm_compute; reflexivity).
        field. }
  assert (Q5 : 2 ^ 1023 + 2 ^ 1023 * 2 ^ (-53) < 2 ^ 1024) by (vm_compute; reflexivity).
  assert (Q6 : Qabs x * 2 ^ (-53) <= 2 ^ 1023 * 2 ^ (-53)) by (apply Qmult_le_compat_r; lra).
  set (r0 := inject_Z (rne (x / 2 ^ ulp_exp x)) * 2 ^ ulp_exp x) in *.
  assert (Hr : Qabs r0 < 2 ^ 1024).
  { revert E Hhi Q6 Hulp. apply Qabs_case; apply Qabs_case; apply Qabs_case; intros; lra. }
  destruct (round64_Fin x NZ Hr) as [r [Er Rr]].
  exists r. split; [exact Er | ].
  fold r0 in Rr. rewrite Rr. lra.
Qed.

(** ** Cross-check of [round64] against [SpecFloat]

    On the operands of the examples below the four operations of module
    [Binary64] and the Standard Library's [SFadd], [SFsub], [SFmul] and
    [SFdiv] at precision 53 give the same values. *)

Example crosscheck_mul :
  fmul (Fin (SF2Q (SF_of 3602879701896397 (-55)))) (of_Z 24)
  = Fin (SF2Q (SF_mul (SF_of 3602879701896397 (-55)) (SF_of 24 0))).
Proof. vm_compute. reflexivity. Qed.

Example crosscheck_div :
  fdiv (of_Z 9007199254830000) (of_Z 60000)
  = Fin (SF2Q (SF_div (SF_of 9007199254830000 0) (SF_of 60000 0))).
Proof. vm_compute. reflexivity. Qed.

Example crosscheck_sub :
  fsub (of_Z 367199254829999) (of_Z (-8640000000000000))
  = Fin (SF2Q (SF_sub (SF_of 367199254829999 0) (SF_of (-8640000000000000) 0))).
Proof. vm_compute. reflexivity. Qed.

Example crosscheck_day_count :
  fadd (of_Z excel_epoch)
       (fmul (fmul (fmul (fmul (Fin day_count_2024) (of_Z 24)) (of_Z 60)) (of_Z 60))
             (of_Z 1000))
  = Fin (SF2Q (SF_add (SF_of excel_epoch 0)
                 (SF_mul (SF_mul (SF_mul (SF_mul (SF_of 3117546006790859 (-36))
                                                 (SF_of 24 0))
                                         (SF_of 60 0))
                                 (SF_of 60 0))
                         (SF_of 1000 0)))).
Proof. vm_compute. reflexivity. Qed.

(** ** Dates and TimeClip *)

Lemma ms_bound (t : TimeValue) : (Z.abs (ms t) <= max_time)%Z.
Proof. apply Z.leb_le. exact (ms_range t). Qed.

Lemma TimeValue_of_Some (t : Z) :
  (Z.abs t <= max_time)%Z -> exists tv, TimeValue_of t = Some tv /\ ms tv = t.
Proof.
  intros H. apply Z.leb_le in H.
  unfold TimeValue_of.
  generalize (eq_refl (Z.abs t <=? max_time)%Z).
  generalize ((Z.abs t <=? max_time)%Z) at 2 3.
  intros b e. destruct b.
  - eexists. split; reflexivity.
  - congruence.
Qed.

Lemma Qtrunc_Z (q : Q) (z : Z) : q == inject_Z z -> Qtrunc q = z.
Proof.
  intros H. unfold Qtrunc. destruct q as [n d].
  unfold Qeq in H. cbn in H |- *.
  replace n with (z * Z.pos d)%Z by lia.
  apply Z.quot_mul. discriminate.
Qed.

(** [new Date(x)] of an in-range whole number of milliseconds is the date
    at this time value. *)
Lemma TimeClip_Z (q : Q) (z : Z) :
  q == inject_Z z -> (Z.abs z <= max_time)%Z ->
  exists t, TimeClip (Fin q) = Date_of t /\ ms t = z.
Proof.
  intros Hq Hz. unfold TimeClip.
  assert (E : Qle_bool (Qabs q) (inject_Z max_time) = true).
  { apply Qle_bool_iff. rewrite Hq, Qabs_inject_Z, <- Zle_Qle. exact Hz. }
  rewrite E, (Qtrunc_Z q z Hq).
  destruct (TimeValue_of_Some z Hz) as [tv [-> Htv]].
  exists tv. split; [reflexivity | exact Htv].
Qed.

Lemma is_valid_Date_of (d : Date) : is_valid d = true -> exists t, d = Date_of t.
Proof. destruct d as [t | ]; [eauto | discriminate]. Qed.

Lemma not_isNaN_Date_of (d : Date) : isNaN (getTime d) = false -> exists t, d = Date_of t.
Proof. destruct d as [t | ]; [eauto | discriminate]. Qed.

Lemma Some_inj {A : Type} (x y : A) : Some x = Some y -> x = y.
Proof. intros H. congruence. Qed.

(** [parseDate] never returns an invalid date. *)
Lemma parseDate_valid (host : Host) (v : option cell) (d : Date) :
  parseDate host v = Some d -> exists t, d = Date_of t.
Proof.
  unfold parseDate. intros H.
  destruct v as [[ | b | n | s | d0] | ].
  - discriminate H.
  - discriminate H.
  - destruct (isNaN _) eqn:E; [discriminate H | ].
    apply Some_inj in H. subst d. apply not_isNaN_Date_of. exact E.
  - destruct (normalizeDigits (trim s)) as [ | c n]; [discriminate H | ].
    destruct (is_valid (Date_parse host (c :: n))) eqn:E.
    + apply Some_inj in H. subst d. apply is_valid_Date_of. exact E.
    + destruct (existsb is_separator (c :: n)); [ | discriminate H].
      destruct (3 <=? length _)%nat; [ | discriminate H].
      destruct (map (Number_of_string host) _) as [ | day [ | month [ | year rest]]];
        try discriminate H.
      destruct (isNaN _) eqn:E'; [discriminate H | ].
      apply Some_inj in H. subst d. apply not_isNaN_Date_of. exact E'.
  - destruct (is_valid d0) eqn:E; [ | discriminate H].
    apply Some_inj in H. subst d. apply is_valid_Date_of. exact E.
  - discriminate H.
Qed.

(** ** The duration calculator *)

Lemma sixty_thousand : fmul (of_Z 1000) (of_Z 60) = Fin 60000.
Proof. vm_compute. reflexivity. Qed.

Lemma Fin_inj (x y : Q) : Fin x = Fin y -> x = y.
Proof. intros H. congruence. Qed.

(** The subtraction of two time values: off by at most one millisecond,
    exact up to [2^53]. *)
Lemma sub_round (s e : TimeValue) :
  exists r1,
    round64 (inject_Z (ms e) + - inject_Z (ms s)) = Fin r1 /\
    Qabs (r1 - inject_Z (ms e - ms s)) <= 1 /\
    ((Z.abs (ms e - ms s) <= 2 ^ 53)%Z -> r1 == inject_Z (ms e - ms s)).
Proof.
  pose proof (ms_bound s) as Bs. pose proof (ms_bound e) as Be.
  unfold max_time in Bs, Be.
  set (x := inject_Z (ms e) + - inject_Z (ms s)).
  assert (Ex : x == inject_Z (ms e - ms s)).
  { unfold x, Z.sub. rewrite inject_Z_plus, inject_Z_opp. reflexivity. }
  assert (Hx : Qabs x < 2 ^ 54).
  { rewrite Ex, Qabs_inject_Z.
    apply Qle_lt_trans with (inject_Z 17280000000000000).
    - rewrite <- Zle_Qle. lia.
    - vm_compute. reflexivity. }
  destruct (round64_error x 54 Hx) as [r1 [E1 R1]]; [lia | ].
  exists r1. split; [exact E1 | split].
  - rewrite <- Ex. setoid_replace (2 ^ Z.max (54 - 53) (-1074) * (1 # 2)) with 1 in R1 by reflexivity.
    exact R1.
  - intros Hsmall.
    destruct (round64_exact x (ms e - ms s) 0) as [r [E2 R2]].
    + rewrite Ex. change (2 ^ 0) with 1. ring.
    + exact Hsmall.
    + lia.
    + apply Qlt_trans with (2 ^ 54); [exact Hx | vm_compute; reflexivity].
    + rewrite E1 in E2. apply Fin_inj in E2. subst r. rewrite R2. exact Ex.
Qed.

Lemma div_round (r1 : Q) :
  Qabs r1 <= 17280000000000001 ->
  exists r2,
    round64 (r1 / 60000) = Fin r2 /\
    Qabs (r2 - r1 / 60000) <= 1 # 32768 /\
    (Qabs r1 <= inject_Z (2 ^ 53) -> Qabs (r2 - r1 / 60000) <= 1 # 65536).
Proof.
  intros H.
  assert (Hd : Qabs (r1 / 60000) == Qabs r1 / 60000).
  { unfold Qdiv. rewrite Qabs_Qmult. reflexivity. }
  assert (Hx : Qabs (r1 / 60000) < 2 ^ 39).
  { rewrite Hd. apply Qlt_shift_div_r; [reflexivity | ].
    apply Qle_lt_trans with (1 := H). vm_compute. reflexivity. }
  destruct (round64_error (r1 / 60000) 39 Hx) as [r2 [E2 R2]]; [lia | ].
  exists r2. split; [exact E2 | split].
  - setoid_replace (2 ^ Z.max (39 - 53) (-1074) * (1 # 2)) with (1 # 32768) in R2
      by reflexivity.
    exact R2.
  - intros Hs.
    assert (Hx' : Qabs (r1 / 60000) < 2 ^ 38).
    { rewrite Hd. apply Qlt_shift_div_r; [reflexivity | ].
      apply Qle_lt_trans with (1 := Hs). vm_compute. reflexivity. }
    destruct (round64_error (r1 / 60000) 38 Hx') as [r [E R]]; [lia | ].
    rewrite E2 in E. apply Fin_inj in E. subst r.
    setoid_replace (2 ^ Z.max (38 - 53) (-1074) * (1 # 2)) with (1 # 65536) in R
      by reflexivity.
    exact R.
Qed.

Lemma minutesBetween_eq (s e : TimeValue) (r1 r2 : Q) :
  round64 (inject_Z (ms e) + - inject_Z (ms s)) = Fin r1 ->
  round64 (r1 / 60000) = Fin r2 ->
  minutesBetween (Date_of s) (Date_of e)
  = if Qneg r2 then None else Some (Math_round r2).
Proof.
  intros H1 H2. unfold minutesBetween. cbv zeta.
  rewrite sixty_thousand. unfold getTime, fsub, fneg, fadd.
  rewrite H1. unfold fdiv. change (Qeq_bool 60000 0) with false. cbv iota.
  rewrite H2. unfold isFinite, lt_zero, negb, orb.
  destruct (Qneg r2); reflexivity.
Qed.

Lemma Qneg_true (x : Q) : x < 0 -> Qneg x = true.
Proof.
  intros H. unfold Qneg. destruct (Qle_bool 0 x) eqn:E; [ | reflexivity].
  apply Qle_bool_iff in E. lra.
Qed.

Lemma Qneg_false (x : Q) : 0 <= x -> Qneg x = false.
Proof.
  intros H. unfold Qneg. apply Qle_bool_iff in H. rewrite H. reflexivity.
Qed.

Lemma Qneg_false_inv (x : Q) : Qneg x = false -> 0 <= x.
Proof.
  unfold Qneg. intros H. apply Qle_bool_iff.
  destruct (Qle_bool 0 x); [reflexivity | discriminate].
Qed.

Lemma Qdiv_60000 (a : Q) : a / 60000 == a * (1 # 60000).
Proof. reflexivity. Qed.

Lemma Qfloor_unique (y : Q) (n : Z) :
  inject_Z n <= y -> y < inject_Z n + 1 -> Qfloor y = n.
Proof.
  intros L U.
  pose proof (Qfloor_le y) as L'. pose proof (Qlt_floor y) as U'.
  rewrite inject_Z_plus in U'. change (inject_Z 1) with 1 in U'.
  assert (A : inject_Z n < inject_Z (Qfloor y) + 1) by lra.
  assert (B : inject_Z (Qfloor y) < inject_Z n + 1) by lra.
  change 1 with (inject_Z 1) in A, B.
  rewrite <- inject_Z_plus, <- Zlt_Qlt in A, B. lia.
Qed.

Lemma Math_round_nonneg (x : Q) : 0 <= x -> (0 <= Math_round x)%Z.
Proof.
  intros H. unfold Math_round.
  change 0%Z with (Qfloor 0). apply Qfloor_resp_le. lra.
Qed.

(** Both roundings of [minutesBetween] exist for any two dates. *)
Lemma minutesBetween_roundings (s e : TimeValue) :
  exists r1 r2,
    round64 (inject_Z (ms e) + - inject_Z (ms s)) = Fin r1 /\
    round64 (r1 / 60000) = Fin r2 /\
    Qabs (r1 - inject_Z (ms e - ms s)) <= 1 /\
    Qabs (r2 - r1 / 60000) <= 1 # 32768 /\
    ((Z.abs (ms e - ms s) <= 2 ^ 53)%Z ->
     r1 == inject_Z (ms e - ms s) /\ Qabs (r2 - r1 / 60000) <= 1 # 65536).
Proof.
  destruct (sub_round s e) as [r1 [E1 [R1 X1]]].
  pose proof (ms_bound s) as Bs. pose proof (ms_bound e) as Be.
  unfold max_time in Bs, Be.
  assert (Hx : Qabs (inject_Z (ms e - ms s)) <= 17280000000000000).
  { rewrite Qabs_inject_Z.
    change 17280000000000000 with (inject_Z 17280000000000000).
    rewrite <- Zle_Qle. lia. }
  assert (Hr1 : Qabs r1 <= 17280000000000001).
  { revert R1 Hx. apply Qabs_case; apply Qabs_case; apply Qabs_case; intros; lra. }
  destruct (div_round r1 Hr1) as [r2 [E2 [R2 X2]]].
  exists r1, r2. repeat split; try assumption.
  - apply X1. assumption.
  - apply X2. rewrite (X1 H), Qabs_inject_Z, <- Zle_Qle. exact H.
Qed.

Lemma minutesBetween_exact (s e : TimeValue) :
  (0 <= ms e - ms s <= 2 ^ 53)%Z ->
  minutesBetween (Date_of s) (Date_of e) = Some (round_minutes (ms e - ms s)).
Proof.
  intros [Hlo Hhi].
  destruct (minutesBetween_roundings s e) as [r1 [r2 [E1 [E2 [_ [_ X]]]]]].
  destruct X as [X1 X2]; [lia | ].
  rewrite (minutesBetween_eq s e r1 r2 E1 E2).
  set (x := (ms e - ms s)%Z) in *.
  set (n := round_minutes x).
  assert (Hn : (60000 * n <= x + 30000 < 60000 * n + 60000)%Z).
  { unfold n, round_minutes.
    pose proof (Z.mul_div_le (x + 30000) 60000 ltac:(lia)).
    pose proof (Z.mul_succ_div_gt (x + 30000) 60000 ltac:(lia)). lia. }
  destruct Hn as [Hn1 Hn2].
  assert (Q1 : 60000 * inject_Z n <= inject_Z x + 30000).
  { change 60000 with (inject_Z 60000). change 30000 with (inject_Z 30000).
    rewrite <- inject_Z_mult, <- inject_Z_plus, <- Zle_Qle. exact Hn1. }
  assert (Q2 : inject_Z x + 30000 <= 60000 * inject_Z n + 59999).
  { change 60000 with (inject_Z 60000). change 30000 with (inject_Z 30000).
    change 59999 with (inject_Z 59999).
    rewrite <- inject_Z_mult, <- !inject_Z_plus, <- Zle_Qle. lia. }
  assert (Q0 : 0 <= inject_Z x) by (change 0 with (inject_Z 0); rewrite <- Zle_Qle; exact Hlo).
  pose proof (Qdiv_60000 r1) as D.
  rewrite D, X1 in X2.
  apply Qabs_Qle_condition in X2. destruct X2 as [X2l X2u].
  (* the quotient is either exactly a half-integer, or 1/60000 away from one *)
  assert (Hr2 : inject_Z n <= r2 + (1 # 2) /\ r2 + (1 # 2) < inject_Z n + 1 /\ 0 <= r2).
  { destruct (Z.eq_dec (x + 30000) (60000 * n)) as [Heq | Hne].
    - assert (Q3 : inject_Z x + 30000 == 60000 * inject_Z n).
      { change 60000 with (inject_Z 60000). change 30000 with (inject_Z 30000).
        rewrite <- inject_Z_mult, <- inject_Z_plus, Heq. reflexivity. }
      destruct (round64_exact (r1 / 60000) (2 * n - 1) (-1)) as [r [Er Rr]].
      + rewrite D, X1. unfold Z.sub. rewrite inject_Z_plus, inject_Z_mult.
        change (2 ^ (-1)) with (1 # 2). change (inject_Z 2) with 2.
        change (inject_Z (- (1))) with (- (1)). apply Qle_antisym; lra.
      + lia.
      + lia.
      + assert (Qabs (r1 / 60000) <= 2 ^ 39).
        { rewrite D, X1. apply Qabs_Qle_condition.
          assert (inject_Z x <= inject_Z (2 ^ 53)) by (rewrite <- Zle_Qle; exact Hhi).
          change (inject_Z (2 ^ 53)) with 9007199254740992 in H.
          change (2 ^ 39) with 549755813888. lra. }
        apply Qle_lt_trans with (1 := H). vm_compute. reflexivity.
      + rewrite E2 in Er. apply Fin_inj in Er. subst r.
        rewrite Rr, D, X1. lra.
    - assert (Q3 : 60000 * inject_Z n + 1 <= inject_Z x + 30000).
      { change 60000 with (inject_Z 60000). change 30000 with (inject_Z 30000).
        change 1 with (inject_Z 1).
        rewrite <- inject_Z_mult, <- !inject_Z_plus, <- Zle_Qle. lia. }
      destruct (Z.eq_dec x 0) as [Hz | Hnz].
      + assert (r1 / 60000 == 0) by (rewrite X1, Hz; reflexivity).
        rewrite (round64_zero _ H) in E2. apply Fin_inj in E2. subst r2.
        rewrite Hz in Q2, Q3. change (inject_Z 0) with 0 in Q2, Q3. lra.
      + assert (1 <= inject_Z x)
          by (change 1 with (inject_Z 1); rewrite <- Zle_Qle; lia).
        lra. }
  destruct Hr2 as [A [B C]].
  rewrite (Qneg_false r2 C). f_equal.
  unfold Math_round. apply Qfloor_unique; assumption.
Qed.

Lemma minutesBetween_reversed (s e : TimeValue) :
  (ms e < ms s)%Z -> minutesBetween (Date_of s) (Date_of e) = None.
Proof.
  intros Hlt.
  destruct (minutesBetween_roundings s e) as [r1 [r2 [E1 [E2 [R1 [_ X]]]]]].
  rewrite (minutesBetween_eq s e r1 r2 E1 E2).
  set (x := (ms e - ms s)%Z) in *.
  assert (Hx : inject_Z x <= - (1)).
  { change (- (1)) with (inject_Z (- (1))). rewrite <- Zle_Qle. unfold x. lia. }
  pose proof (ms_bound s) as Bs. pose proof (ms_bound e) as Be.
  unfold max_time in Bs, Be.
  assert (Hx' : - (17280000000000000) <= inject_Z x).
  { change (- (17280000000000000)) with (inject_Z (- (17280000000000000))).
    rewrite <- Zle_Qle. unfold x. lia. }
  (* the rounded difference is still at most -1 *)
  assert (Hr1 : r1 <= - (1) /\ - (17280000000000001) <= r1).
  { apply Qabs_Qle_condition in R1. destruct R1 as [R1l R1u].
    destruct (Z_le_gt_dec (Z.abs x) (2 ^ 53)) as [Hs | Hb].
    - destruct (X Hs) as [X1 _]. rewrite X1. lra.
    - assert (inject_Z x <= - (9007199254740993)).
      { change (- (9007199254740993)) with (inject_Z (- (9007199254740993))).
        rewrite <- Zle_Qle.
        change (2 ^ 53)%Z with 9007199254740992%Z in Hb. lia. }
      lra. }
  destruct Hr1 as [Hr1 Hr1'].
  pose proof (Qdiv_60000 r1) as D.
  assert (Hy : Qabs (r1 / 60000) == - (r1 * (1 # 60000))).
  { rewrite D. apply Qabs_neg. lra. }
  destruct (round64_rel (r1 / 60000)) as [r [Er Rr]].
  - rewrite Hy. apply Qle_trans with (1 # 60000); [vm_compute; discriminate | lra].
  - rewrite Hy. apply Qle_lt_trans with 288000000001; [lra | vm_compute; reflexivity].
  - rewrite E2 in Er. apply Fin_inj in Er. subst r.
    rewrite Hy, D in Rr.
    setoid_replace (2 ^ (-53)) with (1 # 9007199254740992) in Rr by reflexivity.
    apply Qabs_Qle_condition in Rr. destruct Rr as [_ Rr].
    rewrite (Qneg_true r2); [reflexivity | lra].
Qed.

Lemma minutesBetween_nonneg (s e : Date) (m : Z) :
  minutesBetween s e = Some m -> (0 <= m)%Z.
Proof.
  unfold minutesBetween. cbv zeta.
  destruct (fdiv _ _) as [ | b | q]; cbn [isFinite negb orb lt_zero]; try discriminate.
  destruct (Qneg q) eqn:E; [discriminate | ].
  intros H. apply Some_inj in H. subst m.
  apply Math_round_nonneg, Qneg_false_inv, E.
Qed.

(** A duration is within half a minute, and the two rounding errors, of
    the exact quotient. *)
Lemma minutesBetween_near (s e : TimeValue) (m : Z) :
  minutesBetween (Date_of s) (Date_of e) = Some m ->
  Qabs (inject_Z m - inject_Z (ms e - ms s) * (1 # 60000)) <= 501 # 1000.
Proof.
  destruct (minutesBetween_roundings s e) as [r1 [r2 [E1 [E2 [R1 [R2 _]]]]]].
  rewrite (minutesBetween_eq s e r1 r2 E1 E2).
  destruct (Qneg r2); [discriminate | ].
  intros H. apply Some_inj in H. subst m.
  unfold Math_round.
  pose proof (Qfloor_le (r2 + (1 # 2))) as L.
  pose proof (Qlt_floor (r2 + (1 # 2))) as U.
  rewrite inject_Z_plus in U. change (inject_Z 1) with 1 in U.
  rewrite (Qdiv_60000 r1) in R2.
  apply Qabs_Qle_condition in R1. apply Qabs_Qle_condition in R2.
  apply Qabs_Qle_condition. lra.
Qed.

(** C3 (as amended).  For two dates with [start <= end] at most [2^53]
    milliseconds apart, [minutesBetween] returns the gap in minutes rounded
    to the nearest integer, a half going up; for [end < start] it returns
    [null]; and whatever the dates, it never returns a negative number. *)
Theorem minutesBetween_rounds_or_fails (s e : TimeValue) :
  ((ms s <= ms e)%Z -> (ms e - ms s <= 2 ^ 53)%Z ->
   minutesBetween (Date_of s) (Date_of e) = Some (round_minutes (ms e - ms s)))
  /\ ((ms e < ms s)%Z -> minutesBetween (Date_of s) (Date_of e) = None)
  /\ (forall m, minutesBetween (Date_of s) (Date_of e) = Some m -> (0 <= m)%Z).
Proof.
  split; [ | split].
  - intros H1 H2. apply minutesBetween_exact. lia.
  - apply minutesBetween_reversed.
  - intros m. apply minutesBetween_nonneg.
Qed.

Lemma minutesBetween_rounds_or_fails_witness :
  minutesBetween (Date_of t_0) (Date_of t_90000) = Some 2%Z
  /\ minutesBetween (Date_of t_90000) (Date_of t_0) = None.
Proof.
  split.
  - apply (proj1 (minutesBetween_rounds_or_fails t_0 t_90000));
      vm_compute; discriminate.
  - apply (proj1 (proj2 (minutesBetween_rounds_or_fails t_90000 t_0))).
    vm_compute. reflexivity.
Defined.

(** C3 as stated fails once the gap exceeds [2^53] milliseconds: the
    subtraction rounds 9007199254829999 to 9007199254830000, which is
    150119987580.5 minutes and rounds up, while the exact gap is below the
    half. *)
Lemma minutesBetween_far_apart :
  (ms t_first <= ms t_far)%Z
  /\ minutesBetween (Date_of t_first) (Date_of t_far) = Some 150119987581%Z
  /\ round_minutes (ms t_far - ms t_first) = 150119987580%Z
  /\ minutesBetween (Date_of t_first) (Date_of t_far)
     <> Some (round_minutes (ms t_far - ms t_first)).
Proof.
  split; [vm_compute; discriminate | ].
  split; [vm_compute; reflexivity | ].
  split; [vm_compute; reflexivity | ].
  intros H. vm_compute in H. discriminate H.
Qed.

(** ** The row transformer *)

Lemma minutesBetween_same (t : TimeValue) :
  minutesBetween (Date_of t) (Date_of t) = Some 0%Z.
Proof.
  rewrite minutesBetween_exact.
  - rewrite Z.sub_diag. reflexivity.
  - rewrite Z.sub_diag. split; [lia | vm_compute; discriminate].
Qed.

(** What an emitted record was computed from. *)
Lemma transformRow_inv (host : Host) (row : RawRow) (r : ParsedRow) :
  transformRow host row = Some r ->
  exists ts td ta,
    parseDate host (row_get row col_sentDate) = Some (Date_of ts) /\
    parseDate host (row_get row col_deliveredDate) = Some (Date_of td) /\
    parseDate host (row_get row col_approvedDate) = Some (Date_of ta) /\
    sentDate r = Date_of ts /\ deliveredDate r = Date_of td /\
    approvedDate r = Date_of ta /\
    patientCode r = text_field host row col_patientCode /\
    userName r = text_field host row col_userName /\
    doctorName r = text_field host row col_doctorName /\
    patientCode r <> [] /\ userName r <> [] /\ doctorName r <> [] /\
    minutesBetween (Date_of ts) (Date_of td) = Some (waitingTime r) /\
    minutesBetween (Date_of td) (Date_of ta) = Some (handlingTime r) /\
    minutesBetween (Date_of ts) (Date_of ta) = Some (totalTat r).
Proof.
  unfold transformRow. cbv zeta. intros H.
  destruct (text_field host row col_patientCode) as [ | p1 p] eqn:Ep;
    destruct (text_field host row col_userName) as [ | u1 u] eqn:Eu;
    destruct (text_field host row col_doctorName) as [ | d1 d] eqn:Ed;
    cbn [is_empty orb] in H; try discriminate H.
  destruct (parseDate host (row_get row col_sentDate)) as [ds | ] eqn:Es;
    [ | discriminate H].
  destruct (parseDate host (row_get row col_deliveredDate)) as [dd | ] eqn:Edl;
    [ | discriminate H].
  destruct (parseDate host (row_get row col_approvedDate)) as [da | ] eqn:Ea;
    [ | discriminate H].
  destruct (parseDate_valid _ _ _ Es) as [ts ->].
  destruct (parseDate_valid _ _ _ Edl) as [td ->].
  destruct (parseDate_valid _ _ _ Ea) as [ta ->].
  destruct (minutesBetween (Date_of ts) (Date_of td)) as [w | ] eqn:Ew;
    [ | discriminate H].
  destruct (minutesBetween (Date_of td) (Date_of ta)) as [h | ] eqn:Eh;
    [ | discriminate H].
  destruct (minutesBetween (Date_of ts) (Date_of ta)) as [t | ] eqn:Et;
    [ | discriminate H].
  apply Some_inj in H. subst r. cbn.
  exists ts, td, ta. repeat split; try reflexivity; try assumption; discriminate.
Qed.

(** C9.  [minutesBetween] of a date and itself is 0; hence a row whose
    three date cells normalise to one and the same date, and whose three
    text fields are not empty, is not skipped and its record has the three
    durations 0. *)
Theorem same_instant_row_has_zero_durations (host : Host) :
  (forall t, minutesBetween (Date_of t) (Date_of t) = Some 0%Z)
  /\ (forall row d,
        parseDate host (row_get row col_sentDate) = Some d ->
        parseDate host (row_get row col_deliveredDate) = Some d ->
        parseDate host (row_get row col_approvedDate) = Some d ->
        text_field host row col_patientCode <> [] ->
        text_field host row col_userName <> [] ->
        text_field host row col_doctorName <> [] ->
        exists r, transformRow host row = Some r /\
                  sentDate r = d /\ deliveredDate r = d /\ approvedDate r = d /\
                  waitingTime r = 0%Z /\ handlingTime r = 0%Z /\ totalTat r = 0%Z).
Proof.
  split; [exact minutesBetween_same | ].
  intros row d Hs Hd Ha Hp Hu Hdn.
  destruct (parseDate_valid _ _ _ Hs) as [t ->].
  unfold transformRow. cbv zeta. rewrite Hs, Hd, Ha.
  destruct (text_field host row col_patientCode) as [ | p1 p]; [congruence | ].
  destruct (text_field host row col_userName) as [ | u1 u]; [congruence | ].
  destruct (text_field host row col_doctorName) as [ | d1 dn]; [congruence | ].
  cbn [is_empty orb]. rewrite minutesBetween_same.
  eexists. split; [reflexivity | ]. cbn. repeat split; reflexivity.
Qed.

Lemma same_instant_row_has_zero_durations_witness :
  exists r, transformRow utc_host row_same_instant = Some r /\
            sentDate r = Date_of t_60000 /\ deliveredDate r = Date_of t_60000 /\
            approvedDate r = Date_of t_60000 /\
            waitingTime r = 0%Z /\ handlingTime r = 0%Z /\ totalTat r = 0%Z.
Proof.
  apply (proj2 (same_instant_row_has_zero_durations utc_host) row_same_instant
               (Date_of t_60000));
    try reflexivity; vm_compute; discriminate.
Defined.

Lemma round_minutes_whole (a : Z) : round_minutes (60000 * a) = a.
Proof.
  unfold round_minutes.
  rewrite (Z.mul_comm 60000 a), Z.div_add_l by lia.
  change (30000 / 60000)%Z with 0%Z. lia.
Qed.

Lemma minutesBetween_Some_ordered (s e : TimeValue) (m : Z) :
  minutesBetween (Date_of s) (Date_of e) = Some m -> (ms s <= ms e)%Z.
Proof.
  intros H. destruct (Z_le_gt_dec (ms s) (ms e)) as [L | G]; [exact L | ].
  rewrite minutesBetween_reversed in H by lia. discriminate H.
Qed.

(** A gap of a whole number of minutes is a multiple of [2^5]: the
    subtraction and the division are exact whatever the distance of the
    two dates. *)
Lemma minutesBetween_whole_minutes (s e : TimeValue) (a : Z) :
  (ms e - ms s = 60000 * a)%Z -> (0 <= a)%Z ->
  minutesBetween (Date_of s) (Date_of e) = Some a.
Proof.
  intros Ha Hpos.
  pose proof (ms_bound s) as Bs. pose proof (ms_bound e) as Be.
  unfold max_time in Bs, Be.
  assert (Ba : (a <= 288000000000)%Z) by lia.
  assert (Qa : 0 <= inject_Z a <= 288000000000).
  { change 0 with (inject_Z 0). change 288000000000 with (inject_Z 288000000000).
    rewrite <- !Zle_Qle. lia. }
  assert (Ex : inject_Z (ms e) + - inject_Z (ms s) == inject_Z a * 60000).
  { rewrite <- inject_Z_opp, <- inject_Z_plus.
    replace (ms e + - ms s)%Z with (60000 * a)%Z by lia.
    rewrite inject_Z_mult. change (inject_Z 60000) with 60000. ring. }
  destruct (round64_exact (inject_Z (ms e) + - inject_Z (ms s)) (1875 * a) 5)
    as [r1 [E1 R1]].
  { rewrite Ex, inject_Z_mult. change (2 ^ 5) with 32.
    change (inject_Z 1875) with 1875. ring. }
  { change (2 ^ 53)%Z with 9007199254740992%Z. lia. }
  { lia. }
  { apply Qle_lt_trans with 17280000000000000; [ | vm_compute; reflexivity].
    rewrite Ex. apply Qabs_Qle_condition. lra. }
  rewrite <- R1 in Ex.
  destruct (round64_exact (r1 / 60000) a 0) as [r2 [E2 R2]].
  { rewrite (Qdiv_60000 r1), Ex. change (2 ^ 0) with 1. field. }
  { change (2 ^ 53)%Z with 9007199254740992%Z. lia. }
  { lia. }
  { apply Qle_lt_trans with 288000000000; [ | vm_compute; reflexivity].
    rewrite (Qdiv_60000 r1), Ex. apply Qabs_Qle_condition. lra. }
  rewrite (Qdiv_60000 r1), Ex in R2.
  assert (R2' : r2 == inject_Z a) by (rewrite R2; field).
  rewrite (minutesBetween_eq s e r1 r2 E1 E2).
  rewrite (Qneg_false r2) by lra. f_equal.
  unfold Math_round. apply Qfloor_unique; lra.
Qed.

(** C1 (as amended).  The three durations of an emitted record are the
    results of [minutesBetween] on its dates, each rounded to whole minutes
    on its own, so [totalTat] is within one minute of
    [waitingTime + handlingTime]; the two are equal when both gaps are
    whole numbers of minutes. *)
Theorem totalTat_within_one_minute (host : Host) (row : RawRow) (r : ParsedRow) :
  transformRow host row = Some r ->
  (minutesBetween (sentDate r) (deliveredDate r) = Some (waitingTime r)
   /\ minutesBetween (deliveredDate r) (approvedDate r) = Some (handlingTime r)
   /\ minutesBetween (sentDate r) (approvedDate r) = Some (totalTat r))
  /\ (Z.abs (totalTat r - (waitingTime r + handlingTime r)) <= 1)%Z
  /\ (forall ts td ta a b,
        sentDate r = Date_of ts -> deliveredDate r = Date_of td ->
        approvedDate r = Date_of ta ->
        (ms td - ms ts = 60000 * a)%Z -> (ms ta - ms td = 60000 * b)%Z ->
        waitingTime r = a /\ handlingTime r = b /\
        totalTat r = (waitingTime r + handlingTime r)%Z).
Proof.
  intros H.
  destruct (transformRow_inv host row r H)
    as (ts & td & ta & _ & _ & _ & Es & Ed & Ea & _ & _ & _ & _ & _ & _ & Hw & Hh & Ht).
  split; [ | split].
  - rewrite Es, Ed, Ea. repeat split; assumption.
  - apply minutesBetween_near in Hw, Hh, Ht.
    apply Qabs_Qle_condition in Hw, Hh, Ht.
    assert (E : inject_Z (ms ta - ms ts)
                == inject_Z (ms td - ms ts) + inject_Z (ms ta - ms td)).
    { rewrite <- inject_Z_plus.
      replace (ms td - ms ts + (ms ta - ms td))%Z with (ms ta - ms ts)%Z by lia.
      reflexivity. }
    rewrite E in Ht.
    set (w := waitingTime r) in *. set (h := handlingTime r) in *.
    set (t := totalTat r) in *.
    assert (U : inject_Z (t - (w + h)) < inject_Z 2).
    { unfold Z.sub. rewrite !inject_Z_plus, inject_Z_opp, inject_Z_plus.
      change (inject_Z 2) with 2. lra. }
    assert (L : inject_Z (- 2) < inject_Z (t - (w + h))).
    { unfold Z.sub. rewrite !inject_Z_plus, inject_Z_opp, inject_Z_plus.
      change (inject_Z (- 2)) with (- (2)). lra. }
    rewrite <- Zlt_Qlt in U, L. lia.
  - intros ts' td' ta' a b Es' Ed' Ea' Ha Hb.
    rewrite Es in Es'. rewrite Ed in Ed'. rewrite Ea in Ea'.
    assert (ts' = ts) by congruence. assert (td' = td) by congruence.
    assert (ta' = ta) by congruence. subst ts' td' ta'.
    pose proof (minutesBetween_Some_ordered _ _ _ Hw) as O1.
    pose proof (minutesBetween_Some_ordered _ _ _ Hh) as O2.
    rewrite (minutesBetween_whole_minutes ts td a Ha) in Hw by lia.
    rewrite (minutesBetween_whole_minutes td ta b Hb) in Hh by lia.
    rewrite (minutesBetween_whole_minutes ts ta (a + b)) in Ht by lia.
    apply Some_inj in Hw, Hh, Ht.
    repeat split; lia.
Qed.

Lemma totalTat_within_one_minute_witness :
  exists r, transformRow utc_host row_half_minutes = Some r /\
            minutesBetween (sentDate r) (approvedDate r) = Some (totalTat r) /\
            (Z.abs (totalTat r - (waitingTime r + handlingTime r)) <= 1)%Z.
Proof.
  eexists. split.
  - vm_compute. reflexivity.
  - split.
    + apply (proj2 (proj2 (proj1 (totalTat_within_one_minute utc_host row_half_minutes _
                                    ltac:(vm_compute; reflexivity))))).
    + apply (proj1 (proj2 (totalTat_within_one_minute utc_host row_half_minutes _
                             ltac:(vm_compute; reflexivity)))).
Defined.

(** C1 as stated fails on a row sent at 0 s, delivered at 30 s and
    approved at 60 s: both halves round up to 1 minute and the whole is 1
    minute. *)
Lemma totalTat_not_the_sum :
  exists r, transformRow utc_host row_half_minutes = Some r /\
            waitingTime r = 1%Z /\ handlingTime r = 1%Z /\ totalTat r = 1%Z /\
            totalTat r <> (waitingTime r + handlingTime r)%Z.
Proof.
  eexists. split; [vm_compute; reflexivity | ].
  cbn. repeat split; try reflexivity. discriminate.
Qed.

(** ** The loop over the rows *)

Lemma processRows_fold (host : Host) (rows : list RawRow) (acc : nat * list ParsedRow) :
  fold_left
    (fun acc row =>
       match transformRow host row with
       | None => (S (fst acc), snd acc)
       | Some r => (fst acc, snd acc ++ [r])
       end) rows acc
  = ((fst acc + skipped_rows host rows)%nat, snd acc ++ valid_records host rows).
Proof.
  revert acc. induction rows as [ | row rows IH]; intros [sk ps].
  - cbn. rewrite Nat.add_0_r, app_nil_r. reflexivity.
  - cbn [fold_left]. rewrite IH.
    unfold skipped_rows, valid_records. cbn [filter flat_map].
    destruct (transformRow host row) as [r | ]; cbn [fst snd length app].
    + rewrite <- app_assoc. reflexivity.
    + f_equal. lia.
Qed.

Lemma processRows_spec (host : Host) (rows : list RawRow) :
  processRows host rows = (skipped_rows host rows, valid_records host rows).
Proof. unfold processRows. rewrite processRows_fold. reflexivity. Qed.

(** The two tallies of the loop add up to the number of rows. *)
Lemma skipped_plus_valid (host : Host) (rows : list RawRow) :
  (skipped_rows host rows + length (valid_records host rows) = length rows)%nat.
Proof.
  unfold skipped_rows, valid_records.
  induction rows as [ | row rows IH]; [reflexivity | ].
  cbn [filter flat_map length].
  destruct (transformRow host row) as [r | ]; cbn [length app]; lia.
Qed.

Lemma valid_records_In (host : Host) (rows : list RawRow) (r : ParsedRow) :
  In r (valid_records host rows) <->
  exists row, In row rows /\ transformRow host row = Some r.
Proof.
  unfold valid_records. rewrite in_flat_map. split.
  - intros [row [Hin Hr]]. exists row. split; [exact Hin | ].
    destruct (transformRow host row) as [r' | ]; [ | destruct Hr].
    destruct Hr as [-> | []]. reflexivity.
  - intros [row [Hin Hr]]. exists row. split; [exact Hin | ].
    rewrite Hr. left. reflexivity.
Qed.

Lemma valid_records_nil (host : Host) (rows : list RawRow) :
  (forall row, In row rows -> transformRow host row = None) ->
  valid_records host rows = [].
Proof.
  intros H. destruct (valid_records host rows) as [ | r l] eqn:E; [reflexivity | ].
  assert (Hin : In r (valid_records host rows)) by (rewrite E; left; reflexivity).
  apply valid_records_In in Hin. destruct Hin as [row [Hin Hr]].
  rewrite (H row Hin) in Hr. discriminate Hr.
Qed.

Lemma valid_records_sentDate (host : Host) (rows : list RawRow) :
  Forall (fun r => exists t, sentDate r = Date_of t) (valid_records host rows).
Proof.
  apply Forall_forall. intros r Hin.
  apply valid_records_In in Hin. destruct Hin as [row [_ Hr]].
  destruct (transformRow_inv host row r Hr) as (ts & _ & _ & _ & _ & _ & Hs & _).
  exists ts. exact Hs.
Qed.

(** ** The aggregator returns *)

Lemma getHours_range (host : Host) (t : TimeValue) : (0 <= getHours host t < 24)%Z.
Proof. unfold getHours. apply Z.mod_pos_bound. lia. Qed.

Lemma bump_Some (l : list HourCount) (i : nat) :
  (i < length l)%nat ->
  exists l', bump l i = Some l' /\ length l' = length l.
Proof.
  revert i. induction l as [ | h l IH]; intros i Hi; cbn in Hi; [lia | ].
  destruct i as [ | i].
  - eexists. split; reflexivity.
  - destruct (IH i) as [l' [E L]]; [lia | ].
    exists (h :: l'). cbn [bump]. rewrite E. split; [reflexivity | cbn; lia].
Qed.

Lemma aggregate_row_Some (host : Host) (st : AggState) (row : ParsedRow) :
  length (hourBuckets st) = 24%nat ->
  (exists t, sentDate row = Date_of t) ->
  exists st', aggregate_row host st row = Some st' /\
              length (hourBuckets st') = 24%nat.
Proof.
  intros L [t Ht]. unfold aggregate_row. cbv zeta. rewrite Ht.
  pose proof (getHours_range host t) as R.
  destruct (bump_Some (hourBuckets st) (Z.to_nat (getHours host t))) as [l' [E L']];
    [lia | ].
  rewrite E. eexists. split; [reflexivity | ]. cbn [hourBuckets]. lia.
Qed.

Lemma aggregate_rows_Some (host : Host) (parsed : list ParsedRow) (st : AggState) :
  length (hourBuckets st) = 24%nat ->
  Forall (fun r => exists t, sentDate r = Date_of t) parsed ->
  exists st', aggregate_rows host st parsed = Some st' /\
              length (hourBuckets st') = 24%nat.
Proof.
  revert st. induction parsed as [ | row parsed IH]; intros st L F.
  - exists st. split; [reflexivity | exact L].
  - inversion F as [ | ? ? Hrow Hrest]; subst.
    destruct (aggregate_row_Some host st row L Hrow) as [st1 [E1 L1]].
    destruct (IH st1 L1 Hrest) as [st' [E' L']].
    exists st'. cbn [aggregate_rows]. rewrite E1. split; assumption.
Qed.

Lemma initial_AggState_buckets : length (hourBuckets initial_AggState) = 24%nat.
Proof. reflexivity. Qed.

(** On the records of any sheet the aggregator returns. *)
Lemma aggregate_Some (host : Host) (rows : list RawRow) :
  exists st,
    aggregate_rows host initial_AggState (valid_records host rows) = Some st /\
    length (hourBuckets st) = 24%nat.
Proof.
  apply aggregate_rows_Some.
  - exact initial_AggState_buckets.
  - apply valid_records_sentDate.
Qed.

(** ** The handler *)

Lemma tryBlock_valid (host : Host) (f : File) (rows : list RawRow) :
  passes_pre_row_checks f rows ->
  valid_records host rows <> [] ->
  exists agentMetrics teamStats,
    aggregate host (valid_records host rows) = Some (agentMetrics, teamStats) /\
    tryBlock host f
    = inr {| pub_parsed := valid_records host rows;
             pub_agentMetrics := agentMetrics;
             pub_teamStats := teamStats;
             pub_skipped := skipped_rows host rows |}.
Proof.
  intros (wb & Hr & Hs & Hne & Hmc) Hv.
  destruct (aggregate_Some host rows) as [ast [Ea _]].
  unfold tryBlock. rewrite Hr, Hs.
  destruct rows as [ | row0 rows']; [congruence | ].
  rewrite Hmc, processRows_spec.
  destruct (valid_records host (row0 :: rows')) as [ | r rs] eqn:Ev; [congruence | ].
  unfold aggregate. rewrite Ea.
  eexists _, _. split; reflexivity.
Qed.

Lemma tryBlock_no_valid_rows (host : Host) (f : File) (rows : list RawRow) :
  passes_pre_row_checks f rows ->
  valid_records host rows = [] ->
  tryBlock host f = inl (ErrorObject msg_no_valid_rows).
Proof.
  intros (wb & Hr & Hs & Hne & Hmc) Hv.
  unfold tryBlock. rewrite Hr, Hs.
  destruct rows as [ | row0 rows']; [congruence | ].
  rewrite Hmc, processRows_spec, Hv. reflexivity.
Qed.

(** C2 (as amended).  In a run that passes the pre-row checks and in which
    at least one row is valid, no error is reported and the published
    [skippedCount] plus the number of published records is the number of
    raw rows. *)
Theorem skipped_plus_validated_is_row_count
  (host : Host) (f : File) (rows : list RawRow) (st : AppState) :
  passes_pre_row_checks f rows ->
  (exists row, In row rows /\ transformRow host row <> None) ->
  error (handleFileChange host (Some f) st) = None /\
  (skippedCount (handleFileChange host (Some f) st)
   + length (parsedRows (handleFileChange host (Some f) st)) = length rows)%nat.
Proof.
  intros Hpre [row [Hin Hrow]].
  assert (Hv : valid_records host rows <> []).
  { destruct (transformRow host row) as [r | ] eqn:Er; [ | congruence].
    assert (In r (valid_records host rows))
      by (apply valid_records_In; exists row; split; assumption).
    intros E. rewrite E in H. destruct H. }
  destruct (tryBlock_valid host f rows Hpre Hv) as (am & tm & _ & Et).
  unfold handleFileChange. cbv zeta. rewrite Et. cbn.
  split; [reflexivity | apply skipped_plus_valid].
Qed.

Lemma skipped_plus_validated_is_row_count_witness :
  error (handleFileChange utc_host
           (Some {| file_name := []; file_read := inr [(sheet_name, [row_same_instant])] |})
           initial_AppState) = None /\
  (skippedCount (handleFileChange utc_host
           (Some {| file_name := []; file_read := inr [(sheet_name, [row_same_instant])] |})
           initial_AppState)
   + length (parsedRows (handleFileChange utc_host
           (Some {| file_name := []; file_read := inr [(sheet_name, [row_same_instant])] |})
           initial_AppState)) = length [row_same_instant])%nat.
Proof.
  apply (skipped_plus_validated_is_row_count utc_host
           {| file_name := []; file_read := inr [(sheet_name, [row_same_instant])] |}
           [row_same_instant] initial_AppState).
  - exists [(sheet_name, [row_same_instant])].
    repeat split; try reflexivity. discriminate.
  - exists row_same_instant. split; [left; reflexivity | ].
    vm_compute. discriminate.
Defined.

(** C2 as stated fails on a sheet whose only row is blank: the run passes
    the three pre-row checks, ends in the no-valid-rows error, and the
    published [skippedCount] stays 0 while there is one raw row. *)
Lemma blank_sheet_reports_no_skipped_rows :
  passes_pre_row_checks file_blank [row_blank] /\
  skippedCount (handleFileChange utc_host (Some file_blank) initial_AppState) = 0%nat /\
  parsedRows (handleFileChange utc_host (Some file_blank) initial_AppState) = [] /\
  (skippedCount (handleFileChange utc_host (Some file_blank) initial_AppState)
   + length (parsedRows (handleFileChange utc_host (Some file_blank) initial_AppState))
   <> length [row_blank])%nat.
Proof.
  split; [ | split; [ | split]].
  - exists [(sheet_name, [row_blank])]. repeat split; try reflexivity. discriminate.
  - vm_compute. reflexivity.
  - vm_compute. reflexivity.
  - vm_compute. discriminate.
Qed.

(** C7.  When the pre-row checks pass and every row fails the row
    transformer, the handler leaves the no-valid-rows message in [error]
    and nothing else: no records, no agent metrics, no team metrics, and a
    skipped count of 0, whatever the state was before. *)
Theorem all_rows_skipped_is_fatal
  (host : Host) (f : File) (rows : list RawRow) (st : AppState) :
  passes_pre_row_checks f rows ->
  (forall row, In row rows -> transformRow host row = None) ->
  error (handleFileChange host (Some f) st) = Some msg_no_valid_rows /\
  parsedRows (handleFileChange host (Some f) st) = [] /\
  agents (handleFileChange host (Some f) st) = [] /\
  teamMetrics (handleFileChange host (Some f) st) = None /\
  skippedCount (handleFileChange host (Some f) st) = 0%nat.
Proof.
  intros Hpre Hall.
  pose proof (tryBlock_no_valid_rows host f rows Hpre (valid_records_nil host rows Hall)) as Et.
  unfold handleFileChange. cbv zeta. rewrite Et. cbn.
  repeat split; reflexivity.
Qed.

Lemma all_rows_skipped_is_fatal_witness :
  error (handleFileChange utc_host (Some file_blank) initial_AppState)
  = Some msg_no_valid_rows /\
  parsedRows (handleFileChange utc_host (Some file_blank) initial_AppState) = [] /\
  agents (handleFileChange utc_host (Some file_blank) initial_AppState) = [] /\
  teamMetrics (handleFileChange utc_host (Some file_blank) initial_AppState) = None /\
  skippedCount (handleFileChange utc_host (Some file_blank) initial_AppState) = 0%nat.
Proof.
  apply (all_rows_skipped_is_fatal utc_host file_blank [row_blank] initial_AppState).
  - exists [(sheet_name, [row_blank])]. repeat split; try reflexivity. discriminate.
  - intros row [<- | []]. vm_compute. reflexivity.
Defined.

(** ** Sorting with a comparator *)

Section ArraySort.

Context {A : Type} (cmp : A -> A -> Z).

Hypothesis cmp_total : forall x y, (0 < cmp x y)%Z -> (cmp y x <= 0)%Z.
Hypothesis cmp_trans :
  forall x y z, (cmp x y <= 0)%Z -> (cmp y z <= 0)%Z -> (cmp x z <= 0)%Z.

Lemma sort_insert_perm (x : A) (l : list A) :
  Permutation (sort_insert cmp x l) (x :: l).
Proof.
  induction l as [ | y l IH]; cbn [sort_insert]; [reflexivity | ].
  destruct (cmp x y <=? 0)%Z; [reflexivity | ].
  rewrite IH. apply perm_swap.
Qed.

Lemma Array_sort_perm (l : list A) : Permutation (Array_sort cmp l) l.
Proof.
  induction l as [ | x l IH]; cbn [Array_sort]; [reflexivity | ].
  rewrite sort_insert_perm. apply perm_skip. exact IH.
Qed.

Lemma sort_insert_sorted (x : A) (l : list A) :
  StronglySorted (fun a b => (cmp a b <= 0)%Z) l ->
  StronglySorted (fun a b => (cmp a b <= 0)%Z) (sort_insert cmp x l).
Proof.
  induction 1 as [ | y l Hl IH Hy]; cbn [sort_insert].
  - constructor; constructor.
  - destruct (cmp x y <=? 0)%Z eqn:E.
    + apply Z.leb_le in E. constructor.
      * constructor; assumption.
      * constructor; [exact E | ].
        apply Forall_impl with (2 := Hy). intros z Hz.
        exact (cmp_trans x y z E Hz).
    + apply Z.leb_gt in E. constructor; [exact IH | ].
      eapply Permutation_Forall.
      * symmetry. apply sort_insert_perm.
      * constructor; [exact (cmp_total x y E) | exact Hy].
Qed.

Lemma Array_sort_sorted (l : list A) :
  StronglySorted (fun a b => (cmp a b <= 0)%Z) (Array_sort cmp l).
Proof.
  induction l as [ | x l IH]; cbn [Array_sort]; [constructor | ].
  apply sort_insert_sorted. exact IH.
Qed.

End ArraySort.

Lemma StronglySorted_firstn {A : Type} (R : A -> A -> Prop) (n : nat) (l : list A) :
  StronglySorted R l -> StronglySorted R (firstn n l).
Proof.
  intros H. revert n. induction H as [ | x l Hl IH Hx]; intros [ | n]; cbn [firstn];
    try constructor.
  - apply IH.
  - apply Forall_forall. intros y Hy.
    rewrite Forall_forall in Hx. apply Hx.
    apply (In_nth _ _ x) in Hy. destruct Hy as [i [Hi <-]].
    rewrite nth_firstn.
    destruct (i <? n)%nat eqn:E.
    + apply nth_In. rewrite length_firstn in Hi. lia.
    + rewrite length_firstn in Hi. apply Nat.ltb_ge in E. lia.
Qed.

Lemma StronglySorted_filter {A : Type} (R : A -> A -> Prop) (p : A -> bool) (l : list A) :
  StronglySorted R l -> StronglySorted R (filter p l).
Proof.
  induction 1 as [ | x l Hl IH Hx]; cbn [filter]; [constructor | ].
  destruct (p x); [ | exact IH].
  constructor; [exact IH | ].
  apply Forall_forall. intros y Hy. apply filter_In in Hy.
  rewrite Forall_forall in Hx. apply Hx. tauto.
Qed.

Lemma length_firstn_le {A : Type} (n : nat) (l : list A) : (length (firstn n l) <= n)%nat.
Proof. rewrite length_firstn. lia. Qed.

Lemma length_filter_le {A : Type} (p : A -> bool) (l : list A) :
  (length (filter p l) <= length l)%nat.
Proof.
  induction l as [ | x l IH]; cbn [filter length]; [lia | ].
  destruct (p x); cbn [length]; lia.
Qed.

(** C5.  For the records of any sheet the aggregator returns, and the
    [peakHours] it reports has at most three entries, is in descending
    order of [count], and has no entry with [count] 0. *)
Theorem peakHours_top_three (host : Host) (rows : list RawRow) :
  exists agentMetrics teamStats,
    aggregate host (valid_records host rows) = Some (agentMetrics, teamStats) /\
    (length (peakHours teamStats) <= 3)%nat /\
    StronglySorted (fun a b => (count b <= count a)%nat) (peakHours teamStats) /\
    Forall (fun item => (0 < count item)%nat) (peakHours teamStats).
Proof.
  destruct (aggregate_Some host rows) as [st [E _]].
  unfold aggregate. rewrite E. eexists _, _. split; [reflexivity | ].
  cbn [peakHours]. split; [ | split].
  - etransitivity; [apply length_filter_le | apply length_firstn_le].
  - apply StronglySorted_filter, StronglySorted_firstn.
    assert (S : StronglySorted (fun a b => (by_count_desc a b <= 0)%Z)
                  (Array_sort by_count_desc (hourBuckets st))).
    { apply Array_sort_sorted; unfold by_count_desc; intros; lia. }
    revert S. generalize (Array_sort by_count_desc (hourBuckets st)).
    induction 1 as [ | x l Hl IH Hx]; constructor; [exact IH | ].
    apply Forall_impl with (2 := Hx). unfold by_count_desc. intros; lia.
  - apply Forall_forall. intros item Hin. apply filter_In in Hin.
    destruct Hin as [_ Hpos]. apply Nat.ltb_lt. exact Hpos.
Qed.

(** ** The per-agent map *)

Lemma jsstring_eqb_eq (a b : jsstring) : jsstring_eqb a b = true <-> a = b.
Proof.
  unfold jsstring_eqb. destruct (list_eq_dec N.eq_dec a b); split; congruence.
Qed.

Lemma jsstring_eqb_neq (a b : jsstring) : jsstring_eqb a b = false <-> a <> b.
Proof.
  unfold jsstring_eqb. destruct (list_eq_dec N.eq_dec a b); split; congruence.
Qed.

Lemma Map_set_keys (m : AgentMap) (k : jsstring) (v : AgentAcc) :
  forall k', In k' (keys (Map_set m k v)) <-> In k' (keys m) \/ k' = k.
Proof.
  intros k'. induction m as [ | [k0 v0] m IH]; cbn [Map_set keys map fst In].
  - intuition congruence.
  - destruct (jsstring_eqb k0 k) eqn:E; cbn [keys map fst In].
    + apply jsstring_eqb_eq in E. subst k0. intuition congruence.
    + fold (keys (Map_set m k v)). fold (keys m). rewrite IH. tauto.
Qed.

Lemma Map_set_NoDup (m : AgentMap) (k : jsstring) (v : AgentAcc) :
  NoDup (keys m) -> NoDup (keys (Map_set m k v)).
Proof.
  induction m as [ | [k0 v0] m IH]; cbn [Map_set keys map fst]; intros H.
  - constructor; [intros [] | constructor].
  - inversion H as [ | ? ? Hnotin Hnd]; subst.
    destruct (jsstring_eqb k0 k) eqn:E; cbn [keys map fst].
    + constructor; assumption.
    + apply jsstring_eqb_neq in E. constructor; [ | apply IH; exact Hnd].
      fold (keys (Map_set m k v)). rewrite Map_set_keys.
      intros [Hin | Heq]; [contradiction | congruence].
Qed.

Lemma list_sum_cons (a : nat) (l : list nat) : list_sum (a :: l) = (a + list_sum l)%nat.
Proof. reflexivity. Qed.

Lemma Map_set_total (m : AgentMap) (k : jsstring) (v : AgentAcc) :
  NoDup (keys m) ->
  (total_requests (Map_set m k v) + total_or_zero (Map_get m k)
   = total_requests m + total v)%nat.
Proof.
  unfold total_requests.
  induction m as [ | [k0 v0] m IH]; cbn [Map_set Map_get map list_sum snd keys fst];
    intros H.
  - cbn. lia.
  - inversion H as [ | ? ? Hnotin Hnd]; subst.
    destruct (jsstring_eqb k0 k) eqn:E; cbn [map snd total_or_zero];
      rewrite !list_sum_cons.
    + lia.
    + specialize (IH Hnd). lia.
Qed.

(** What one step of the loop does to [agentMap]. *)
Lemma aggregate_row_agentMap (host : Host) (st st' : AggState) (row : ParsedRow) :
  aggregate_row host st row = Some st' ->
  exists v,
    agentMap st' = Map_set (agentMap st) (userName row) v /\
    total v = S (total_or_zero (Map_get (agentMap st) (userName row))).
Proof.
  unfold aggregate_row. cbv zeta. intros H.
  destruct (sentDate row) as [t | ]; [ | discriminate H].
  destruct (bump _ _) as [buckets | ]; [ | discriminate H].
  apply Some_inj in H. subst st'. cbn [agentMap].
  eexists. split; [reflexivity | ].
  cbn [total]. destruct (Map_get (agentMap st) (userName row)); reflexivity.
Qed.

Lemma aggregate_rows_agentMap (host : Host) (parsed : list ParsedRow) :
  forall st st',
    aggregate_rows host st parsed = Some st' ->
    NoDup (keys (agentMap st)) ->
    NoDup (keys (agentMap st')) /\
    (forall k, In k (keys (agentMap st')) <->
               In k (keys (agentMap st)) \/ In k (map userName parsed)) /\
    (total_requests (agentMap st') = total_requests (agentMap st) + length parsed)%nat.
Proof.
  induction parsed as [ | row parsed IH]; intros st st' H Hnd.
  - cbn in H. apply Some_inj in H. subst st'.
    split; [exact Hnd | split]; [cbn; tauto | cbn; lia].
  - cbn [aggregate_rows] in H.
    destruct (aggregate_row host st row) as [st1 | ] eqn:E1; [ | discriminate H].
    destruct (aggregate_row_agentMap host st st1 row E1) as [v [Em Hv]].
    assert (Hnd1 : NoDup (keys (agentMap st1)))
      by (rewrite Em; apply Map_set_NoDup; exact Hnd).
    destruct (IH st1 st' H Hnd1) as [N [K T]].
    split; [exact N | split].
    + intros k. rewrite K, Em, Map_set_keys. cbn [map In].
      intuition congruence.
    + rewrite T, Em.
      pose proof (Map_set_total (agentMap st) (userName row) v Hnd) as S.
      cbn [length]. lia.
Qed.

Lemma list_sum_perm (l l' : list nat) :
  Permutation l l' -> list_sum l = list_sum l'.
Proof. induction 1; rewrite ?list_sum_cons; lia. Qed.

Lemma metrics_userName (m : AgentMap) :
  map am_userName (map metrics_of_entry m) = keys m.
Proof.
  unfold keys. rewrite map_map. apply map_ext. intros [k v]. reflexivity.
Qed.

Lemma metrics_totalRequests (m : AgentMap) :
  list_sum (map totalRequests (map metrics_of_entry m)) = total_requests m.
Proof.
  unfold total_requests. rewrite map_map. f_equal.
  apply map_ext. intros [k v]. reflexivity.
Qed.

(** C6.  For the records of any sheet the aggregator returns, the
    [totalRequests] of the agent metrics add up to the number of records,
    no user name has two entries, and the user names with an entry are
    those of the records. *)
Theorem agent_metrics_partition_the_records (host : Host) (rows : list RawRow) :
  exists agentMetrics teamStats,
    aggregate host (valid_records host rows) = Some (agentMetrics, teamStats) /\
    list_sum (map totalRequests agentMetrics) = length (valid_records host rows) /\
    NoDup (map am_userName agentMetrics) /\
    (forall name, In name (map am_userName agentMetrics) <->
                  In name (map userName (valid_records host rows))).
Proof.
  destruct (aggregate_Some host rows) as [st [E _]].
  destruct (aggregate_rows_agentMap host _ _ _ E) as [N [K T]];
    [constructor | ].
  unfold aggregate. rewrite E. eexists _, _. split; [reflexivity | ].
  pose proof (Array_sort_perm by_totalRequests_desc
                (map metrics_of_entry (agentMap st))) as P.
  split; [ | split].
  - rewrite (list_sum_perm _ _ (Permutation_map totalRequests P)).
    rewrite metrics_totalRequests, T. reflexivity.
  - apply (Permutation_NoDup (l := keys (agentMap st))); [ | exact N].
    rewrite <- metrics_userName. symmetry. apply Permutation_map. exact P.
  - intros name.
    assert (K' : In name (keys (agentMap st)) <->
                 In name (map userName (valid_records host rows))).
    { rewrite K. cbn [initial_AggState agentMap keys map In]. tauto. }
    rewrite <- K', <- metrics_userName.
    split; apply Permutation_in; [ | symmetry]; apply Permutation_map; exact P.
Qed.

(** ** Arabic-Indic digits *)

Lemma arabic_digit_cases (c : N) :
  is_arabic_digit c = true ->
  (c = 1632 \/ c = 1633 \/ c = 1634 \/ c = 1635 \/ c = 1636 \/
   c = 1637 \/ c = 1638 \/ c = 1639 \/ c = 1640 \/ c = 1641)%N.
Proof.
  unfold is_arabic_digit. intros H. apply andb_true_iff in H.
  destruct H as [L U]. apply N.leb_le in L, U. lia.
Qed.

(** The table of [normalizeDigits] sends each Arabic-Indic digit to the
    ASCII digit of the same value. *)
Lemma normalize_char_ascii (c : N) : normalize_char c = ascii_digit_of c.
Proof.
  unfold normalize_char, ascii_digit_of.
  destruct (is_arabic_digit c) eqn:E; [ | reflexivity].
  destruct (arabic_digit_cases c E) as [-> | [-> | [-> | [-> | [-> | [-> | [-> | [-> | [-> | ->]]]]]]]]];
    reflexivity.
Qed.

Lemma normalizeDigits_ascii (s : jsstring) : normalizeDigits s = ascii_equivalent s.
Proof.
  unfold normalizeDigits, ascii_equivalent.
  apply map_ext. exact normalize_char_ascii.
Qed.

Lemma ascii_digit_of_idem (c : N) : ascii_digit_of (ascii_digit_of c) = ascii_digit_of c.
Proof.
  unfold ascii_digit_of at 2 3.
  destruct (is_arabic_digit c) eqn:E.
  - destruct (arabic_digit_cases c E) as [-> | [-> | [-> | [-> | [-> | [-> | [-> | [-> | [-> | ->]]]]]]]]];
      reflexivity.
  - unfold ascii_digit_of. rewrite E. reflexivity.
Qed.

Lemma ascii_digit_of_trim_char (c : N) :
  is_trim_char (ascii_digit_of c) = is_trim_char c.
Proof.
  unfold ascii_digit_of.
  destruct (is_arabic_digit c) eqn:E; [ | reflexivity].
  destruct (arabic_digit_cases c E) as [-> | [-> | [-> | [-> | [-> | [-> | [-> | [-> | [-> | ->]]]]]]]]];
    reflexivity.
Qed.

Lemma trimStart_ascii (s : jsstring) :
  trimStart (ascii_equivalent s) = ascii_equivalent (trimStart s).
Proof.
  unfold ascii_equivalent.
  induction s as [ | c s IH]; [reflexivity | ].
  cbn [map trimStart]. rewrite ascii_digit_of_trim_char.
  destruct (is_trim_char c); [exact IH | reflexivity].
Qed.

Lemma trim_ascii (s : jsstring) : trim (ascii_equivalent s) = ascii_equivalent (trim s).
Proof.
  unfold trim. rewrite trimStart_ascii.
  unfold ascii_equivalent at 1. rewrite <- map_rev. fold (ascii_equivalent (rev (trimStart s))).
  rewrite trimStart_ascii. unfold ascii_equivalent. rewrite map_rev. reflexivity.
Qed.

Lemma ascii_equivalent_idem (s : jsstring) :
  ascii_equivalent (ascii_equivalent s) = ascii_equivalent s.
Proof.
  unfold ascii_equivalent. rewrite map_map.
  apply map_ext. exact ascii_digit_of_idem.
Qed.

(** C8.  A text and its ASCII-digit equivalent have the same result under
    [parseDate]: the same date, or [null] for both. *)
Theorem parseDate_arabic_digits (host : Host) (s : jsstring) :
  parseDate host (Some (CString s))
  = parseDate host (Some (CString (ascii_equivalent s))).
Proof.
  assert (E : normalizeDigits (trim (ascii_equivalent s)) = normalizeDigits (trim s)).
  { rewrite !normalizeDigits_ascii, trim_ascii. apply ascii_equivalent_idem. }
  unfold parseDate. rewrite E. reflexivity.
Qed.

(** ** Numeric day-counts *)

(** A binary64 value is an integer of at most 53 bits times a power of
    two no smaller than [2^-1074]. *)
Lemma is_binary64_repr (v : Q) :
  is_binary64 v ->
  exists m k, v == inject_Z m * 2 ^ k /\ (Z.abs m <= 2 ^ 53)%Z /\ (-1074 <= k)%Z.
Proof.
  intros [r [E R]].
  destruct (Qeq_dec v 0) as [Z0 | NZ].
  { exists 0%Z, 0%Z. split; [rewrite Z0; reflexivity | split; [vm_compute; discriminate | lia]]. }
  unfold round64 in E.
  destruct (Qeq_bool v 0) eqn:E0; [apply Qeq_bool_iff in E0; contradiction | ].
  cbv zeta in E.
  destruct (Qle_bool (2 ^ 1024) _); [discriminate E | ].
  apply Fin_inj in E. rewrite <- E, Qred_correct in R.
  exists (rne (v / 2 ^ ulp_exp v)), (ulp_exp v).
  split; [symmetry; exact R | split; [ | apply ulp_exp_min]].
  pose proof (Qabs_pos_of_neq v NZ) as P.
  destruct (Qilog2_spec _ P) as [_ U].
  pose proof (Qpow2_pos (ulp_exp v)) as Pq.
  assert (Hq : 2 ^ (Qilog2 (Qabs v) + 1) <= 2 ^ ulp_exp v * 2 ^ 53).
  { rewrite <- Qpow2_add. apply Qpow2_le. unfold ulp_exp. lia. }
  assert (Hm : Qabs (v / 2 ^ ulp_exp v) < 2 ^ 53).
  { unfold Qdiv. rewrite Qabs_Qmult, (Qabs_pos (/ 2 ^ ulp_exp v)).
    - apply Qlt_shift_div_r; [exact Pq | ]. rewrite Qmult_comm. lra.
    - apply Qlt_le_weak, Qinv_lt_0_compat. exact Pq. }
  pose proof (rne_error (v / 2 ^ ulp_exp v)) as Er.
  set (m := rne (v / 2 ^ ulp_exp v)) in *.
  assert (B : Qabs (inject_Z m) < inject_Z (2 ^ 53 + 1)).
  { change (inject_Z (2 ^ 53 + 1)) with (2 ^ 53 + 1).
    revert Er Hm. apply Qabs_case; apply Qabs_case; apply Qabs_case; intros; lra. }
  rewrite Qabs_inject_Z, <- Zlt_Qlt in B. lia.
Qed.

(** [84375 = 86400000 / 2^10] is odd: a power of two that divides
    [84375 * m] divides [m]. *)
Lemma pow2_divides_odd_multiple (j : nat) :
  forall c m : Z,
    (2 ^ Z.of_nat j * c = 84375 * m)%Z -> exists m', m = (m' * 2 ^ Z.of_nat j)%Z.
Proof.
  induction j as [ | j IH]; intros c m H.
  - exists m. cbn. lia.
  - rewrite Nat2Z.inj_succ, Z.pow_succ_r in H |- * by lia.
    set (P := (2 ^ Z.of_nat j * c)%Z) in *.
    assert (H' : (2 * P = 84375 * m)%Z) by (unfold P; lia).
    assert (Hm : m = (2 * (m / 2))%Z).
    { pose proof (Z.div_mod m 2 ltac:(lia)).
      pose proof (Z.mod_pos_bound m 2 ltac:(lia)). lia. }
    destruct (IH c (m / 2)%Z) as [m' Hm']; [fold P; lia | ].
    exists m'. rewrite Hm, Hm'. ring.
Qed.

(** A binary64 day-count whose number of milliseconds is a whole number
    [K] is [m * 2^k] with [k >= -10] and [K = 84375 * m * 2^(k+10)]. *)
Lemma whole_ms_repr (v : Q) (K : Z) :
  is_binary64 v ->
  v * 86400000 == inject_Z K ->
  exists m k,
    v == inject_Z m * 2 ^ k /\ (-10 <= k)%Z /\
    K = (84375 * m * 2 ^ (k + 10))%Z.
Proof.
  intros Hv HK.
  destruct (is_binary64_repr v Hv) as (m & k & Ev & _ & Hk).
  assert (C : 86400000 == 84375 * 2 ^ 10) by reflexivity.
  destruct (Z_le_gt_dec (-10) k) as [Hge | Hlt].
  - exists m, k. split; [exact Ev | split; [exact Hge | ]].
    apply (proj1 (inject_Z_injective _ _)).
    rewrite <- HK, Ev, !inject_Z_mult, <- Qpow2_Z, Qpow2_add, C by lia.
    change (inject_Z 84375) with 84375. ring.
  - (* the scaling [2^(-k-10)] divides [84375 * m], hence [m] *)
    assert (E : (2 ^ (- k - 10) * K = 84375 * m)%Z).
    { apply (proj1 (inject_Z_injective _ _)).
      rewrite !inject_Z_mult, <- Qpow2_Z, <- HK, Ev, C by lia.
      change (inject_Z 84375) with 84375.
      replace (- k - 10)%Z with (- (k + 10))%Z by lia.
      rewrite Qpower_opp, Qpow2_add.
      pose proof (Qpow2_pos k). pose proof (Qpow2_pos 10).
      field. lra. }
    replace (- k - 10)%Z with (Z.of_nat (Z.to_nat (- k - 10))) in E by lia.
    destruct (pow2_divides_odd_multiple _ _ _ E) as [m' Hm'].
    rewrite Z2Nat.id in Hm', E by lia.
    exists m', (-10)%Z. split; [ | split; [lia | ]].
    + rewrite Ev, Hm', inject_Z_mult, <- Qpow2_Z by lia.
      rewrite <- Qmult_assoc, <- Qpow2_add.
      replace (- k - 10 + k)%Z with (-10)%Z by lia. reflexivity.
    + change (2 ^ (-10 + 10))%Z with 1%Z.
      assert (P : (0 < 2 ^ (- k - 10))%Z) by (apply Z.pow_pos_nonneg; lia).
      subst m. nia.
Qed.

Lemma of_Z_24 : of_Z 24 = Fin 24.
Proof. vm_compute. reflexivity. Qed.

Lemma of_Z_60 : of_Z 60 = Fin 60.
Proof. vm_compute. reflexivity. Qed.

Lemma of_Z_1000 : of_Z 1000 = Fin 1000.
Proof. vm_compute. reflexivity. Qed.

Lemma excelEpoch_value : TimeClip (Date_UTC 1899 11 30) = Date_of t_epoch.
Proof. vm_compute. reflexivity. Qed.

Lemma round64_exact_small (x : Q) (m k : Z) :
  x == inject_Z m * 2 ^ k -> (Z.abs m <= 2 ^ 53)%Z -> (-1074 <= k)%Z ->
  Qabs x <= 9007199254740992 ->
  exists r, round64 x = Fin r /\ r == x.
Proof.
  intros Hx Hm Hk Hb. apply (round64_exact x m k Hx Hm Hk).
  apply Qle_lt_trans with (1 := Hb). vm_compute. reflexivity.
Qed.

(** [value * 24 * 60 * 60 * 1000] is exact when the product is a whole
    number of at most 53 bits. *)
Lemma day_count_ms_exact (v : Q) (K : Z) :
  is_binary64 v ->
  v * 86400000 == inject_Z K ->
  (Z.abs K <= 2 ^ 53)%Z ->
  exists r,
    fmul (fmul (fmul (fmul (Fin v) (of_Z 24)) (of_Z 60)) (of_Z 60)) (of_Z 1000) = Fin r /\
    r == inject_Z K.
Proof.
  intros Hv HK HB.
  destruct (whole_ms_repr v K Hv HK) as (m & k & Ev & Hk & EK).
  assert (P : (1 <= 2 ^ (k + 10))%Z).
  { assert (0 < 2 ^ (k + 10))%Z by (apply Z.pow_pos_nonneg; lia). lia. }
  assert (Hm : (Z.abs (84375 * m) <= 2 ^ 53)%Z).
  { rewrite EK in HB. rewrite Z.abs_mul in HB.
    rewrite (Z.abs_eq (2 ^ (k + 10))) in HB by lia. nia. }
  assert (BK : - (9007199254740992) <= inject_Z K <= 9007199254740992).
  { change (- (9007199254740992)) with (inject_Z (- 2 ^ 53)).
    change 9007199254740992 with (inject_Z (2 ^ 53)).
    rewrite <- !Zle_Qle. lia. }
  rewrite of_Z_24, of_Z_60, of_Z_1000. cbn [fmul].
  (* hours *)
  destruct (round64_exact_small (v * 24) (3 * m) (k + 3)) as [r1 [E1 R1]].
  { rewrite Ev, inject_Z_mult, Qpow2_add. change (inject_Z 3) with 3.
    change (2 ^ 3) with 8. ring. }
  { lia. }
  { lia. }
  { setoid_replace (v * 24) with (inject_Z K * (1 # 3600000))
      by (rewrite <- HK; field).
    apply Qabs_Qle_condition. lra. }
  rewrite E1. cbn [fmul].
  (* minutes *)
  destruct (round64_exact_small (r1 * 60) (45 * m) (k + 5)) as [r2 [E2 R2]].
  { rewrite R1, Ev, inject_Z_mult, Qpow2_add. change (inject_Z 45) with 45.
    change (2 ^ 5) with 32. ring. }
  { lia. }
  { lia. }
  { setoid_replace (r1 * 60) with (inject_Z K * (1 # 60000))
      by (rewrite R1, <- HK; field).
    apply Qabs_Qle_condition. lra. }
  rewrite E2. cbn [fmul].
  (* seconds *)
  destruct (round64_exact_small (r2 * 60) (675 * m) (k + 7)) as [r3 [E3 R3]].
  { rewrite R2, R1, Ev, inject_Z_mult, Qpow2_add. change (inject_Z 675) with 675.
    change (2 ^ 7) with 128. ring. }
  { lia. }
  { lia. }
  { setoid_replace (r2 * 60) with (inject_Z K * (1 # 1000))
      by (rewrite R2, R1, <- HK; field).
    apply Qabs_Qle_condition. lra. }
  rewrite E3. cbn [fmul].
  (* milliseconds *)
  destruct (round64_exact_small (r3 * 1000) (84375 * m) (k + 10)) as [r4 [E4 R4]].
  { rewrite R3, R2, R1, Ev, inject_Z_mult, Qpow2_add. change (inject_Z 84375) with 84375.
    change (2 ^ 10) with 1024. ring. }
  { exact Hm. }
  { lia. }
  { setoid_replace (r3 * 1000) with (inject_Z K)
      by (rewrite R3, R2, R1, <- HK; ring).
    apply Qabs_Qle_condition. lra. }
  exists r4. split; [exact E4 | ].
  rewrite R4, R3, R2, R1, <- HK. ring.
Qed.

Lemma parseDate_whole_ms (host : Host) (v : Q) (K : Z) :
  is_binary64 v ->
  v * 86400000 == inject_Z K ->
  (Z.abs (excel_epoch + K) <= max_time)%Z ->
  exists t,
    parseDate host (Some (CNumber (Fin v))) = Some (Date_of t) /\
    ms t = (excel_epoch + K)%Z.
Proof.
  intros Hv HK Hr.
  assert (HB : (Z.abs K <= 2 ^ 53)%Z).
  { unfold excel_epoch, max_time in Hr.
    change (2 ^ 53)%Z with 9007199254740992%Z. lia. }
  destruct (day_count_ms_exact v K Hv HK HB) as [r4 [E4 R4]].
  unfold parseDate. cbv zeta. rewrite excelEpoch_value, E4.
  cbn [getTime fadd].
  destruct (round64_exact_small (inject_Z (ms t_epoch) + r4) (excel_epoch + K) 0)
    as [r5 [E5 R5]].
  { rewrite R4, inject_Z_plus. change (2 ^ 0) with 1. cbn [ms t_epoch]. ring. }
  { unfold max_time in Hr. change (2 ^ 53)%Z with 9007199254740992%Z. lia. }
  { lia. }
  { rewrite R4. cbn [ms t_epoch]. rewrite <- inject_Z_plus, Qabs_inject_Z.
    change 9007199254740992 with (inject_Z 9007199254740992).
    rewrite <- Zle_Qle. unfold max_time in Hr. lia. }
  rewrite E5.
  destruct (TimeClip_Z r5 (excel_epoch + K)) as [t [Et Mt]].
  { rewrite R5, R4, inject_Z_plus. reflexivity. }
  { exact Hr. }
  rewrite Et. cbn [getTime isNaN]. exists t. split; [reflexivity | exact Mt].
Qed.

(** ** Accuracy of numeric day-counts *)

Lemma Qtrunc_nonneg (q : Q) : 0 <= q -> Qtrunc q = Qfloor q.
Proof.
  intros H. destruct q as [n d]. unfold Qtrunc, Qfloor. cbn [Qnum Qden].
  apply Z.quot_div_nonneg; [ | reflexivity].
  unfold Qle in H. cbn in H. lia.
Qed.

Lemma Qtrunc_nonpos (q : Q) : q <= 0 -> Qtrunc q = Qceiling q.
Proof.
  intros H. destruct q as [n d]. unfold Qtrunc, Qceiling, Qfloor, Qopp. cbn [Qnum Qden].
  assert (Hn : (n <= 0)%Z) by (unfold Qle in H; cbn in H; lia).
  rewrite <- (Z.opp_involutive n) at 1. rewrite Z.quot_opp_l by discriminate.
  f_equal. apply Z.quot_div_nonneg; [lia | reflexivity].
Qed.

(** Truncation moves a value toward zero by less than one. *)
Lemma Qtrunc_near (q : Q) :
  Qabs (inject_Z (Qtrunc q) - q) < 1 /\ Qabs (inject_Z (Qtrunc q)) <= Qabs q.
Proof.
  destruct (Qlt_le_dec q 0) as [Hn | Hp].
  - rewrite Qtrunc_nonpos by lra.
    pose proof (Qle_ceiling q) as L. pose proof (Qceiling_lt q) as U.
    unfold Z.sub in U. rewrite inject_Z_plus in U.
    change (inject_Z (- (1))) with (- (1)) in U.
    assert (C0 : inject_Z (Qceiling q) <= 0).
    { change 0 with (inject_Z (Qceiling 0)). rewrite <- Zle_Qle.
      apply Qceiling_resp_le. lra. }
    split; apply Qabs_case; intros; try apply Qabs_case; intros; lra.
  - rewrite Qtrunc_nonneg by lra.
    pose proof (Qfloor_le q) as L. pose proof (Qlt_floor q) as U.
    rewrite inject_Z_plus in U. change (inject_Z 1) with 1 in U.
    assert (C0 : 0 <= inject_Z (Qfloor q)).
    { change 0 with (inject_Z (Qfloor 0)). rewrite <- Zle_Qle.
      apply Qfloor_resp_le. lra. }
    split; apply Qabs_case; intros; try apply Qabs_case; intros; lra.
Qed.

Lemma TimeClip_near (q : Q) :
  Qabs q <= inject_Z max_time ->
  exists t, TimeClip (Fin q) = Date_of t /\ ms t = Qtrunc q.
Proof.
  intros H. unfold TimeClip.
  assert (E : Qle_bool (Qabs q) (inject_Z max_time) = true) by (apply Qle_bool_iff; exact H).
  rewrite E.
  destruct (TimeValue_of_Some (Qtrunc q)) as [tv [-> Htv]].
  - destruct (Qtrunc_near q) as [_ B].
    rewrite Qabs_inject_Z in B. rewrite Zle_Qle. lra.
  - exists tv. split; [reflexivity | exact Htv].
Qed.

Ltac round_step x B e r E R :=
  let H := fresh "H" in
  assert (H : Qabs x < 2 ^ B);
  [ | destruct (round64_error x B H ltac:(lia)) as [r [E R]];
      setoid_replace (2 ^ Z.max (B - 53) (-1074) * (1 # 2)) with e in R by reflexivity;
      apply Qabs_Qle_condition in R; clear H ].

Lemma day_count_accuracy_modern (host : Host) (v : Q) :
  Qabs v <= 131072 ->
  exists t,
    parseDate host (Some (CNumber (Fin v))) = Some (Date_of t) /\
    Qabs (inject_Z (ms t) - (inject_Z excel_epoch + v * 86400000)) < 201 # 200.
Proof.
  intros Hv. apply Qabs_Qle_condition in Hv.
  unfold parseDate. cbv zeta.
  rewrite excelEpoch_value, of_Z_24, of_Z_60, of_Z_1000. cbn [getTime fmul].
  round_step (v * 24) 22%Z (1 # 4294967296) r1 E1 R1.
  { change (2 ^ 22) with 4194304. apply Qabs_Qlt_condition. lra. }
  rewrite E1. cbn [fmul].
  round_step (r1 * 60) 28%Z (1 # 67108864) r2 E2 R2.
  { change (2 ^ 28) with 268435456. apply Qabs_Qlt_condition. lra. }
  rewrite E2. cbn [fmul].
  round_step (r2 * 60) 34%Z (1 # 1048576) r3 E3 R3.
  { change (2 ^ 34) with 17179869184. apply Qabs_Qlt_condition. lra. }
  rewrite E3. cbn [fmul].
  round_step (r3 * 1000) 44%Z (1 # 1024) r4 E4 R4.
  { change (2 ^ 44) with 17592186044416. apply Qabs_Qlt_condition. lra. }
  rewrite E4. cbn [fadd ms t_epoch].
  change (inject_Z excel_epoch) with (- (2209161600000)) in *.
  round_step (- (2209161600000) + r4) 44%Z (1 # 1024) r5 E5 R5.
  { change (2 ^ 44) with 17592186044416. apply Qabs_Qlt_condition. lra. }
  rewrite E5.
  destruct (TimeClip_near r5) as [t [Et Mt]].
  { change (inject_Z max_time) with 8640000000000000. apply Qabs_Qle_condition. lra. }
  rewrite Et. cbn [getTime isNaN]. exists t. split; [reflexivity | ].
  rewrite Mt. destruct (Qtrunc_near r5) as [T _].
  apply Qabs_Qlt_condition in T. apply Qabs_Qlt_condition. lra.
Qed.

(** Rounding to nearest never crosses an integer. *)
Lemma rne_le_Z (y : Q) (M : Z) : y <= inject_Z M -> (rne y <= M)%Z.
Proof.
  intros H.
  pose proof (Qfloor_le y) as L.
  assert (F : (Qfloor y <= M)%Z).
  { rewrite <- (Qfloor_Z M). apply Qfloor_resp_le. exact H. }
  unfold rne.
  destruct (Qcompare_spec (y - inject_Z (Qfloor y)) (1 # 2)) as [E | E | E].
  - destruct (Z.even (Qfloor y)); [exact F | ].
    assert (Q1 : inject_Z (Qfloor y) < inject_Z M) by lra.
    rewrite <- Zlt_Qlt in Q1. lia.
  - exact F.
  - assert (Q1 : inject_Z (Qfloor y) < inject_Z M) by lra.
    rewrite <- Zlt_Qlt in Q1. lia.
Qed.

Lemma rne_ge_Z (y : Q) (M : Z) : inject_Z M <= y -> (M <= rne y)%Z.
Proof.
  intros H.
  assert (F : (M <= Qfloor y)%Z).
  { rewrite <- (Qfloor_Z M). apply Qfloor_resp_le. exact H. }
  unfold rne.
  destruct (Qcompare (y - inject_Z (Qfloor y)) (1 # 2));
    [destruct (Z.even (Qfloor y)) | | ]; lia.
Qed.

(** Below [2^53] in magnitude the grid of binary64 contains the
    integers, so rounding never crosses one. *)
Lemma round64_mono_Z (x r : Q) (c : Z) :
  round64 x = Fin r -> Qabs x < 2 ^ 53 ->
  (x <= inject_Z c -> r <= inject_Z c) /\ (inject_Z c <= x -> inject_Z c <= r).
Proof.
  intros H Hx.
  destruct (Qeq_dec x 0) as [Z0 | NZ].
  { rewrite (round64_zero x Z0) in H. apply Fin_inj in H. subst r.
    split; intros; lra. }
  pose proof (ulp_exp_upper x 53 NZ Hx) as Hq.
  change (Z.max (53 - 53) (-1074)) with 0%Z in Hq.
  unfold round64 in H.
  destruct (Qeq_bool x 0) eqn:E0; [apply Qeq_bool_iff in E0; contradiction | ].
  cbv zeta in H.
  set (q := ulp_exp x) in *.
  set (n := rne (x / 2 ^ q)) in *.
  destruct (Qle_bool (2 ^ 1024) (Qabs (inject_Z n * 2 ^ q))); [discriminate H | ].
  apply Fin_inj in H.
  assert (Er : r == inject_Z n * 2 ^ q) by (rewrite <- H; apply Qred_correct).
  pose proof (Qpow2_pos q) as Pq.
  pose proof (Qpow2_pos (- q)) as Pq'.
  assert (Einv : 2 ^ q * 2 ^ (- q) == 1).
  { rewrite <- Qpow2_add. replace (q + - q)%Z with 0%Z by lia. reflexivity. }
  assert (Ediv : x / 2 ^ q == x * 2 ^ (- q)).
  { apply Qmult_inj_r with (2 ^ q); [lra | ].
    setoid_replace (x / 2 ^ q * 2 ^ q) with x by (field; lra).
    setoid_replace (x * 2 ^ (- q) * 2 ^ q) with (x * (2 ^ q * 2 ^ (- q))) by ring.
    rewrite Einv. ring. }
  set (M := (c * 2 ^ (- q))%Z).
  assert (EM : inject_Z M == inject_Z c * 2 ^ (- q)).
  { unfold M. rewrite inject_Z_mult, <- Qpow2_Z by lia. reflexivity. }
  assert (Eback : inject_Z M * 2 ^ q == inject_Z c).
  { rewrite EM.
    setoid_replace (inject_Z c * 2 ^ (- q) * 2 ^ q)
      with (inject_Z c * (2 ^ q * 2 ^ (- q))) by ring.
    rewrite Einv. ring. }
  split; intros Hc.
  - assert (Hy : x / 2 ^ q <= inject_Z M).
    { rewrite Ediv, EM. apply Qmult_le_compat_r; lra. }
    pose proof (rne_le_Z _ _ Hy) as Hn. fold n in Hn.
    rewrite Zle_Qle in Hn.
    rewrite Er, <- Eback. apply Qmult_le_compat_r; lra.
  - assert (Hy : inject_Z M <= x / 2 ^ q).
    { rewrite Ediv, EM. apply Qmult_le_compat_r; lra. }
    pose proof (rne_ge_Z _ _ Hy) as Hn. fold n in Hn.
    rewrite Zle_Qle in Hn.
    rewrite Er, <- Eback. apply Qmult_le_compat_r; lra.
Qed.

Lemma Qtrunc_le_Z (q : Q) (c : Z) : q <= inject_Z c -> (Qtrunc q <= c)%Z.
Proof.
  intros H. destruct (Qlt_le_dec q 0) as [Hn | Hp].
  - rewrite Qtrunc_nonpos by lra.
    rewrite <- (Qceiling_Z c). apply Qceiling_resp_le. exact H.
  - rewrite Qtrunc_nonneg by lra.
    rewrite <- (Qfloor_Z c). apply Qfloor_resp_le. exact H.
Qed.

Lemma Qtrunc_ge_Z (q : Q) (c : Z) : inject_Z c <= q -> (c <= Qtrunc q)%Z.
Proof.
  intros H. destruct (Qlt_le_dec q 0) as [Hn | Hp].
  - rewrite Qtrunc_nonpos by lra.
    rewrite <- (Qceiling_Z c). apply Qceiling_resp_le. exact H.
  - rewrite Qtrunc_nonneg by lra.
    rewrite <- (Qfloor_Z c). apply Qfloor_resp_le. exact H.
Qed.

(** A day-count whose exact instant is a valid time value is accepted:
    each product and the sum stay on the side of the bounds of a date,
    since these bounds are integers below [2^53]. *)
Lemma day_count_in_range (host : Host) (v : Q) :
  - (8640000000000000) <= inject_Z excel_epoch + v * 86400000 <= 8640000000000000 ->
  exists t,
    parseDate host (Some (CNumber (Fin v))) = Some (Date_of t) /\
    Qabs (inject_Z (ms t) - (inject_Z excel_epoch + v * 86400000)) < 5 /\
    (v <= 0 -> (ms t <= excel_epoch)%Z) /\
    (0 <= v -> (excel_epoch <= ms t)%Z) /\
    (v <= - (1) -> (ms t <= excel_epoch - 86400000)%Z).
Proof.
  change (inject_Z excel_epoch) with (- (2209161600000)).
  intros Hv.
  assert (Hv' : - (99974431) <= v <= 100025569) by lra.
  unfold parseDate. cbv zeta.
  rewrite excelEpoch_value, of_Z_24, of_Z_60, of_Z_1000. cbn [getTime fmul].
  assert (X1 : Qabs (v * 24) < 2 ^ 53).
  { change (2 ^ 53) with 9007199254740992. apply Qabs_Qlt_condition. lra. }
  round_step (v * 24) 32%Z (1 # 4194304) r1 E1 R1.
  { change (2 ^ 32) with 4294967296. apply Qabs_Qlt_condition. lra. }
  destruct (round64_mono_Z _ _ 2400613656 E1 X1) as [U1 _].
  destruct (round64_mono_Z _ _ (-2399386344) E1 X1) as [_ L1].
  destruct (round64_mono_Z _ _ 0 E1 X1) as [N1 P1].
  destruct (round64_mono_Z _ _ (-24) E1 X1) as [D1 _].
  change (inject_Z 2400613656) with 2400613656 in U1.
  change (inject_Z (-2399386344)) with (- (2399386344)) in L1.
  change (inject_Z 0) with 0 in N1, P1.
  change (inject_Z (-24)) with (- (24)) in D1.
  specialize (U1 ltac:(lra)). specialize (L1 ltac:(lra)).
  rewrite E1. cbn [fmul].
  assert (X2 : Qabs (r1 * 60) < 2 ^ 53).
  { change (2 ^ 53) with 9007199254740992. apply Qabs_Qlt_condition. lra. }
  round_step (r1 * 60) 38%Z (1 # 65536) r2 E2 R2.
  { change (2 ^ 38) with 274877906944. apply Qabs_Qlt_condition. lra. }
  destruct (round64_mono_Z _ _ 144036819360 E2 X2) as [U2 _].
  destruct (round64_mono_Z _ _ (-143963180640) E2 X2) as [_ L2].
  destruct (round64_mono_Z _ _ 0 E2 X2) as [N2 P2].
  destruct (round64_mono_Z _ _ (-1440) E2 X2) as [D2 _].
  change (inject_Z 144036819360) with 144036819360 in U2.
  change (inject_Z (-143963180640)) with (- (143963180640)) in L2.
  change (inject_Z 0) with 0 in N2, P2.
  change (inject_Z (-1440)) with (- (1440)) in D2.
  specialize (U2 ltac:(lra)). specialize (L2 ltac:(lra)).
  rewrite E2. cbn [fmul].
  assert (X3 : Qabs (r2 * 60) < 2 ^ 53).
  { change (2 ^ 53) with 9007199254740992. apply Qabs_Qlt_condition. lra. }
  round_step (r2 * 60) 43%Z (1 # 2048) r3 E3 R3.
  { change (2 ^ 43) with 8796093022208. apply Qabs_Qlt_condition. lra. }
  destruct (round64_mono_Z _ _ 8642209161600 E3 X3) as [U3 _].
  destruct (round64_mono_Z _ _ (-8637790838400) E3 X3) as [_ L3].
  destruct (round64_mono_Z _ _ 0 E3 X3) as [N3 P3].
  destruct (round64_mono_Z _ _ (-86400) E3 X3) as [D3 _].
  change (inject_Z 8642209161600) with 8642209161600 in U3.
  change (inject_Z (-8637790838400)) with (- (8637790838400)) in L3.
  change (inject_Z 0) with 0 in N3, P3.
  change (inject_Z (-86400)) with (- (86400)) in D3.
  specialize (U3 ltac:(lra)). specialize (L3 ltac:(lra)).
  rewrite E3. cbn [fmul].
  assert (X4 : Qabs (r3 * 1000) < 2 ^ 53).
  { change (2 ^ 53) with 9007199254740992. apply Qabs_Qlt_condition. lra. }
  round_step (r3 * 1000) 53%Z (1 # 2) r4 E4 R4.
  { exact X4. }
  destruct (round64_mono_Z _ _ 8642209161600000 E4 X4) as [U4 _].
  destruct (round64_mono_Z _ _ (-8637790838400000) E4 X4) as [_ L4].
  destruct (round64_mono_Z _ _ 0 E4 X4) as [N4 P4].
  destruct (round64_mono_Z _ _ (-86400000) E4 X4) as [D4 _].
  change (inject_Z 8642209161600000) with 8642209161600000 in U4.
  change (inject_Z (-8637790838400000)) with (- (8637790838400000)) in L4.
  change (inject_Z 0) with 0 in N4, P4.
  change (inject_Z (-86400000)) with (- (86400000)) in D4.
  specialize (U4 ltac:(lra)). specialize (L4 ltac:(lra)).
  rewrite E4. cbn [fadd ms t_epoch].
  change (inject_Z excel_epoch) with (- (2209161600000)) in *.
  assert (X5 : Qabs (- (2209161600000) + r4) < 2 ^ 53).
  { change (2 ^ 53) with 9007199254740992. apply Qabs_Qlt_condition. lra. }
  round_step (- (2209161600000) + r4) 53%Z (1 # 2) r5 E5 R5.
  { exact X5. }
  destruct (round64_mono_Z _ _ 8640000000000000 E5 X5) as [U5 _].
  destruct (round64_mono_Z _ _ (-8640000000000000) E5 X5) as [_ L5].
  destruct (round64_mono_Z _ _ (-2209161600000) E5 X5) as [N5 P5].
  destruct (round64_mono_Z _ _ (-2209248000000) E5 X5) as [D5 _].
  change (inject_Z 8640000000000000) with 8640000000000000 in U5.
  change (inject_Z (-8640000000000000)) with (- (8640000000000000)) in L5.
  change (inject_Z (-2209161600000)) with (- (2209161600000)) in N5, P5.
  change (inject_Z (-2209248000000)) with (- (2209248000000)) in D5.
  specialize (U5 ltac:(lra)). specialize (L5 ltac:(lra)).
  rewrite E5.
  destruct (TimeClip_near r5) as [t [Et Mt]].
  { change (inject_Z max_time) with 8640000000000000. apply Qabs_Qle_condition. lra. }
  rewrite Et. cbn [getTime isNaN]. exists t. split; [reflexivity | ].
  rewrite Mt. split; [ | split; [ | split]].
  - destruct (Qtrunc_near r5) as [T _].
    apply Qabs_Qlt_condition in T. apply Qabs_Qlt_condition. lra.
  - intros Hneg. apply Qtrunc_le_Z.
    change (inject_Z excel_epoch) with (- (2209161600000)).
    apply N5. specialize (N1 ltac:(lra)). specialize (N2 ltac:(lra)).
    specialize (N3 ltac:(lra)). specialize (N4 ltac:(lra)). lra.
  - intros Hpos. apply Qtrunc_ge_Z.
    change (inject_Z excel_epoch) with (- (2209161600000)).
    apply P5. specialize (P1 ltac:(lra)). specialize (P2 ltac:(lra)).
    specialize (P3 ltac:(lra)). specialize (P4 ltac:(lra)). lra.
  - intros Hday. apply Qtrunc_le_Z.
    change (inject_Z (excel_epoch - 86400000)) with (- (2209248000000)).
    apply D5. specialize (D1 ltac:(lra)). specialize (D2 ltac:(lra)).
    specialize (D3 ltac:(lra)). specialize (D4 ltac:(lra)). lra.
Qed.

Lemma Date_of_inj (t t' : TimeValue) : Some (Date_of t) = Some (Date_of t') -> ms t = ms t'.
Proof. intros H. apply Some_inj in H. congruence. Qed.

(** C10 (as amended).  A numeric cell of either sign is accepted: when
    the exact instant, the epoch plus [v * 86400000] milliseconds, is
    within the range of a time value, [parseDate] returns a date.  The
    date is exactly that instant when [v * 86400000] is a whole number of
    milliseconds and within 5 milliseconds of it otherwise.  For a
    negative day-count the date is not after the reference epoch, and it
    is before it when the day-count is a whole number of milliseconds or
    at most -1. *)
Theorem parseDate_accepts_negative_day_counts (host : Host) (v : Q) :
  is_binary64 v ->
  inject_Z (- max_time) <= inject_Z excel_epoch + v * 86400000 <= inject_Z max_time ->
  exists t,
    parseDate host (Some (CNumber (Fin v))) = Some (Date_of t) /\
    Qabs (inject_Z (ms t) - (inject_Z excel_epoch + v * 86400000)) < 5 /\
    (forall K, v * 86400000 == inject_Z K ->
               ms t = (excel_epoch + K)%Z /\ (v < 0 -> (ms t < excel_epoch)%Z)) /\
    (v < 0 -> (ms t <= excel_epoch)%Z) /\
    (v <= - (1) -> (ms t < excel_epoch)%Z).
Proof.
  intros Hv Hr.
  change (inject_Z (- max_time)) with (- (8640000000000000)) in Hr.
  change (inject_Z max_time) with 8640000000000000 in Hr.
  destruct (day_count_in_range host v Hr) as (t & Et & Hnear & Hneg & _ & Hday).
  exists t. split; [exact Et | split; [exact Hnear | split; [ | split]]].
  - intros K HK.
    assert (Hr' : (Z.abs (excel_epoch + K) <= max_time)%Z).
    { rewrite HK, <- inject_Z_plus in Hr.
      change (- (8640000000000000)) with (inject_Z (- max_time)) in Hr.
      change 8640000000000000 with (inject_Z max_time) in Hr.
      rewrite <- !Zle_Qle in Hr. lia. }
    destruct (parseDate_whole_ms host v K Hv HK Hr') as [t' [Et' Mt']].
    rewrite Et in Et'. apply Date_of_inj in Et'.
    split; [lia | ].
    intros Hlt.
    assert (inject_Z K < inject_Z 0)
      by (rewrite <- HK; change (inject_Z 0) with 0; lra).
    rewrite <- Zlt_Qlt in H. lia.
  - intros Hlt. apply Hneg. lra.
  - intros Hle. specialize (Hday Hle). lia.
Qed.

Lemma parseDate_accepts_negative_day_counts_witness :
  exists t,
    parseDate utc_host (Some (CNumber (Fin minus_1_3))) = Some (Date_of t) /\
    Qabs (inject_Z (ms t) - (inject_Z excel_epoch + minus_1_3 * 86400000)) < 5 /\
    (ms t < excel_epoch)%Z.
Proof.
  destruct (parseDate_accepts_negative_day_counts utc_host minus_1_3)
    as (t & Et & Hnear & _ & _ & Hday).
  - exists minus_1_3. split; [vm_compute; reflexivity | reflexivity].
  - split; vm_compute; discriminate.
  - exists t. split; [exact Et | split; [exact Hnear | ]].
    apply Hday. vm_compute. discriminate.
Defined.

(** C10 as stated fails twice.  The day-count -45366.04228767361 is
    accepted with the time value -6128787653654, more than a millisecond
    after the exact instant -6128787653655.0003; and the negative
    day-count [-2^-60] gives the reference epoch itself, not a date
    before it. *)
Lemma parseDate_negative_day_count_inexact :
  (is_binary64 minus_45366 /\ minus_45366 < 0 /\
   inject_Z (- max_time) <= inject_Z excel_epoch + minus_45366 * 86400000
                         <= inject_Z max_time /\
   exists t,
     parseDate utc_host (Some (CNumber (Fin minus_45366))) = Some (Date_of t) /\
     ms t = (-6128787653654)%Z /\
     inject_Z excel_epoch + minus_45366 * 86400000 + 1 < inject_Z (ms t))
  /\ (is_binary64 minus_tiny /\ minus_tiny < 0 /\
      exists t,
        parseDate utc_host (Some (CNumber (Fin minus_tiny))) = Some (Date_of t) /\
        ms t = excel_epoch).
Proof.
  split; [split; [ | split; [ | split]] | split; [ | split]].
  - exists minus_45366. split; [vm_compute; reflexivity | reflexivity].
  - vm_compute. reflexivity.
  - split; vm_compute; discriminate.
  - eexists. split; [vm_compute; reflexivity | ].
    split; [reflexivity | vm_compute; reflexivity].
  - exists minus_tiny. split; [vm_compute; reflexivity | reflexivity].
  - vm_compute. reflexivity.
  - eexists. split; [vm_compute; reflexivity | reflexivity].
Qed.

(** C4 (as amended).  The reference epoch is midnight of 30 December 1899
    UTC.  A day-count [N >= 0] whose exact instant, the epoch plus
    [N * 86400000] milliseconds, is a valid time value is never rejected:
    [parseDate] returns a date, not before the epoch, that is exactly
    that instant when [N * 86400000] is a whole number of milliseconds,
    every whole number of days among them, within 5 milliseconds of it
    otherwise, and within 1.005 milliseconds of it up to 131,072 days
    (the year 2258). *)
Theorem parseDate_day_count_precision (host : Host) (N : Q) :
  is_binary64 N ->
  0 <= N ->
  Date_UTC 1899 11 30 = Fin (inject_Z excel_epoch)
  /\ (inject_Z excel_epoch + N * 86400000 <= inject_Z max_time ->
      exists t,
        parseDate host (Some (CNumber (Fin N))) = Some (Date_of t) /\
        (excel_epoch <= ms t)%Z /\
        Qabs (inject_Z (ms t) - (inject_Z excel_epoch + N * 86400000)) < 5 /\
        (forall K, N * 86400000 == inject_Z K -> ms t = (excel_epoch + K)%Z) /\
        (N <= 131072 ->
         Qabs (inject_Z (ms t) - (inject_Z excel_epoch + N * 86400000)) < 201 # 200)).
Proof.
  intros Hv Hpos.
  split; [vm_compute; reflexivity | ].
  intros Hr.
  change (inject_Z max_time) with 8640000000000000 in Hr.
  assert (Hr2 : - (8640000000000000) <= inject_Z excel_epoch + N * 86400000
                <= 8640000000000000).
  { split; [ | exact Hr].
    change (inject_Z excel_epoch) with (- (2209161600000)). lra. }
  destruct (day_count_in_range host N Hr2) as (t & Et & Hnear & _ & Hafter & _).
  exists t. split; [exact Et | split; [exact (Hafter Hpos) | split; [exact Hnear | split]]].
  - intros K HK.
    assert (Hr' : (Z.abs (excel_epoch + K) <= max_time)%Z).
    { destruct Hr2 as [Lo Hi]. rewrite HK, <- inject_Z_plus in Lo, Hi.
      change (- (8640000000000000)) with (inject_Z (- max_time)) in Lo.
      change 8640000000000000 with (inject_Z max_time) in Hi.
      rewrite <- Zle_Qle in Lo, Hi. lia. }
    destruct (parseDate_whole_ms host N K Hv HK Hr') as [t' [Et' Mt']].
    rewrite Et in Et'. apply Date_of_inj in Et'. lia.
  - intros Hle.
    destruct (day_count_accuracy_modern host N) as [t' [Et' Ht']].
    { apply Qabs_Qle_condition. lra. }
    rewrite Et in Et'. apply Date_of_inj in Et'. rewrite Et'. exact Ht'.
Qed.

Lemma parseDate_day_count_precision_witness :
  (exists t,
     parseDate utc_host (Some (CNumber (Fin (90585 # 2)))) = Some (Date_of t) /\
     ms t = 1704110400000%Z)
  /\ (exists t,
        parseDate utc_host (Some (CNumber (Fin day_count_2024))) = Some (Date_of t) /\
        Qabs (inject_Z (ms t) - (inject_Z excel_epoch + day_count_2024 * 86400000))
        < 201 # 200).
Proof.
  split.
  - destruct (proj2 (parseDate_day_count_precision utc_host (90585 # 2)
                       (ex_intro _ (90585 # 2) (conj eq_refl (Qeq_refl _)))
                       ltac:(vm_compute; discriminate)))
      as (t & Et & _ & _ & HK & _).
    + vm_compute. discriminate.
    + exists t. split; [exact Et | ].
      apply (HK 3913272000000%Z). reflexivity.
  - destruct (proj2 (parseDate_day_count_precision utc_host day_count_2024
                       (ex_intro _ day_count_2024 (conj eq_refl (Qeq_refl _)))
                       ltac:(vm_compute; discriminate)))
      as (t & Et & _ & _ & _ & Hm).
    + vm_compute. discriminate.
    + exists t. split; [exact Et | ].
      apply Hm. vm_compute. discriminate.
Defined.

(** C4 as stated fails on the day-count 45366.26521135417: the exact
    instant is 1710483714261.0003 milliseconds after 1970, and [parseDate]
    returns 1710483714260, more than a millisecond before it; floor,
    ceiling and nearest of the exact instant are all different from it. *)
Lemma parseDate_a_millisecond_early :
  is_binary64 day_count_2024 /\
  0 <= day_count_2024 /\
  exists t,
    parseDate utc_host (Some (CNumber (Fin day_count_2024))) = Some (Date_of t) /\
    ms t = 1710483714260%Z /\
    inject_Z (ms t) + 1 < inject_Z excel_epoch + day_count_2024 * 86400000.
Proof.
  split; [ | split].
  - exists day_count_2024. split; [vm_compute; reflexivity | reflexivity].
  - vm_compute. discriminate.
  - eexists. split; [vm_compute; reflexivity | ].
    split; [reflexivity | vm_compute; reflexivity].
Qed.

(** * Further properties of the code *)

(** ** The handler and the page *)

Lemma handleFileChange_split (host : Host) (f : File) (st : AppState) :
  handleFileChange host (Some f) st = finish_run host f (start_run (Some f) st).
Proof. reflexivity. Qed.

Lemma last_cons {A : Type} (a d : A) (l : list A) : last (a :: l) d = last l a.
Proof.
  revert a d. induction l as [ | b l IH]; intros a d; [reflexivity | ].
  change (last (a :: b :: l) d) with (last (b :: l) d).
  rewrite (IH b d), (IH b a). reflexivity.
Qed.

(** After any number of starts every field but the file name is reset. *)
Lemma start_runs_state (others : list (option File)) :
  forall (file : option File) (st : AppState),
    start_runs others (start_run file st)
    = {| error := None;
         fileName := last (map (option_map file_name) others) (option_map file_name file);
         parsedRows := []; agents := []; teamMetrics := None; skippedCount := 0 |}.
Proof.
  induction others as [ | other others IH]; intros file st.
  - reflexivity.
  - cbn [start_runs fold_left map]. fold (start_runs others (start_run other (start_run file st))).
    rewrite IH, last_cons. reflexivity.
Qed.

(** X1.  A run starts by resetting everything it is going to write.  So
    when it finishes and no other run has finished since it started, the
    error, the records, the agents, the team metrics and the skipped count
    are those of this run alone, whatever the state was before and
    whatever other selections were started in between; the file name is
    that of the selection started last. *)
Theorem finished_run_forgets_previous_state
  (host : Host) (f : File) (others : list (option File)) (st st' : AppState) :
  let final := finish_run host f (start_runs others (start_run (Some f) st)) in
  error final = error (handleFileChange host (Some f) st')
  /\ parsedRows final = parsedRows (handleFileChange host (Some f) st')
  /\ agents final = agents (handleFileChange host (Some f) st')
  /\ teamMetrics final = teamMetrics (handleFileChange host (Some f) st')
  /\ skippedCount final = skippedCount (handleFileChange host (Some f) st')
  /\ fileName final
     = last (map (option_map file_name) others) (Some (file_name f)).
Proof.
  cbv zeta. rewrite start_runs_state, handleFileChange_split.
  change (start_run (Some f) st') with (start_runs [] (start_run (Some f) st')).
  rewrite start_runs_state.
  unfold finish_run.
  destruct (tryBlock host f) as [[message | ] | p]; repeat split; reflexivity.
Qed.

(** What [aggregate] returns, in terms of the state of its loop. *)
Lemma aggregate_inv (host : Host) (parsed : list ParsedRow)
      (am : list AgentMetrics) (tm : TeamMetrics) :
  aggregate host parsed = Some (am, tm) ->
  exists st,
    aggregate_rows host initial_AggState parsed = Some st /\
    am = Array_sort by_totalRequests_desc (map metrics_of_entry (agentMap st)) /\
    peakHours tm
    = filter (fun item => (0 <? count item)%nat)
             (firstn 3 (Array_sort by_count_desc (hourBuckets st))) /\
    averageWaitingTime tm = fdiv (waitingSum st) (of_nat (length parsed)) /\
    assignmentSla tm
    = fmul (fdiv (of_nat (waitingSlaCount st)) (of_nat (length parsed))) (of_Z 100).
Proof.
  unfold aggregate. intros H.
  destruct (aggregate_rows host initial_AggState parsed) as [st | ]; [ | discriminate H].
  apply Some_inj in H. injection H as <- <-.
  exists st. cbn [peakHours averageWaitingTime assignmentSla].
  repeat split; reflexivity.
Qed.

Lemma aggregate_totalRequests (host : Host) (parsed : list ParsedRow)
      (am : list AgentMetrics) (tm : TeamMetrics) :
  aggregate host parsed = Some (am, tm) ->
  list_sum (map totalRequests am) = length parsed.
Proof.
  intros H. destruct (aggregate_inv host parsed am tm H) as (st & E & -> & _).
  destruct (aggregate_rows_agentMap host _ _ _ E) as [_ [_ T]]; [constructor | ].
  rewrite (list_sum_perm _ _ (Permutation_map totalRequests
             (Array_sort_perm by_totalRequests_desc _))).
  rewrite metrics_totalRequests, T. reflexivity.
Qed.

Lemma tryBlock_published (host : Host) (f : File) (p : Published) :
  tryBlock host f = inr p ->
  pub_parsed p <> [] /\
  exists rows,
    passes_pre_row_checks f rows /\
    pub_parsed p = valid_records host rows /\
    pub_skipped p = skipped_rows host rows /\
    aggregate host (pub_parsed p) = Some (pub_agentMetrics p, pub_teamStats p).
Proof.
  unfold tryBlock. intros H.
  destruct (file_read f) as [e | wb] eqn:Er; [discriminate H | ].
  destruct (Sheets wb sheet_name) as [rows | ] eqn:Es; [ | discriminate H].
  destruct rows as [ | row0 rows']; [discriminate H | ].
  destruct (missingColumns (row0 :: rows')) as [ | c cs] eqn:Em; [ | discriminate H].
  rewrite processRows_spec in H.
  destruct (valid_records host (row0 :: rows')) as [ | r rs] eqn:Ev; [discriminate H | ].
  destruct (aggregate host (r :: rs)) as [[am tm] | ] eqn:Ea; [ | discriminate H].
  injection H as <-. cbn [pub_parsed pub_skipped pub_agentMetrics pub_teamStats].
  split; [discriminate | ].
  exists (row0 :: rows'). split; [ | rewrite Ev; repeat split; assumption].
  exists wb. repeat split; try assumption. discriminate.
Qed.

(** X2.  When a run finishes and no other run has finished since it
    started, the state holds either an error and nothing else, or no error
    and a complete result: records, agent metrics and team metrics
    together; the page then shows the data exactly when there is no
    error, and the skipped-rows notice only beside data.  Two runs that
    overlap break this: nothing tells the runs apart after the [await],
    so once a failing run and a succeeding run have both finished, in
    either order, the state holds the error of the one beside the data of
    the other. *)
Theorem result_or_error_unless_runs_overlap (host : Host) :
  (forall (f : File) (others : list (option File)) (st : AppState),
      let final := finish_run host f (start_runs others (start_run (Some f) st)) in
      (exists message,
          error final = Some message /\
          parsedRows final = [] /\
          agents final = [] /\
          teamMetrics final = None /\
          skippedCount final = 0%nat /\
          hasData final = false /\
          shows_skipped_notice final = false)
      \/ (error final = None /\
          parsedRows final <> [] /\
          agents final <> [] /\
          teamMetrics final <> None /\
          hasData final = true /\
          shows_error final = false /\
          shows_placeholder final = false))
  /\ (forall (f g : File) (message : jsstring) (p : Published) (st final : AppState),
        tryBlock host f = inl (ErrorObject message) ->
        tryBlock host g = inr p ->
        final = finish_run host g (finish_run host f st)
        \/ final = finish_run host f (finish_run host g st) ->
        error final = Some message /\
        parsedRows final = pub_parsed p /\
        agents final = pub_agentMetrics p /\
        teamMetrics final = Some (pub_teamStats p) /\
        hasData final = true /\
        (message <> [] -> shows_error final = true)).
Proof.
  split.
  - intros f others st. cbv zeta. rewrite start_runs_state.
    unfold finish_run.
    destruct (tryBlock host f) as [[message | ] | p] eqn:Et.
    + left. exists message. cbn. repeat split; reflexivity.
    + left. exists msg_unexpected. cbn. repeat split; reflexivity.
    + right. destruct (tryBlock_published host f p Et) as [Hne [rows (_ & Hp & _ & Ha)]].
      assert (Hag : pub_agentMetrics p <> []).
      { pose proof (aggregate_totalRequests host _ _ _ Ha) as Hsum.
        intros E. rewrite E in Hsum. cbn in Hsum.
        destruct (pub_parsed p); [congruence | discriminate Hsum]. }
      unfold hasData, shows_error, shows_placeholder, hasData. cbn.
      destruct (pub_parsed p) as [ | r rs]; [congruence | ].
      repeat split; try reflexivity; try discriminate. exact Hag.
  - intros f g message p st final Ef Eg Hfinal.
    destruct (tryBlock_published host g p Eg) as [Hne _].
    assert (E : error final = Some message /\
                parsedRows final = pub_parsed p /\
                agents final = pub_agentMetrics p /\
                teamMetrics final = Some (pub_teamStats p)).
    { destruct Hfinal as [-> | ->]; unfold finish_run; rewrite Ef, Eg;
        cbn; repeat split; reflexivity. }
    destruct E as (E1 & E2 & E3 & E4).
    split; [exact E1 | split; [exact E2 | split; [exact E3 | split; [exact E4 | ]]]].
    unfold hasData, shows_error. rewrite E1, E2, E4.
    destruct (pub_parsed p) as [ | r rs]; [congruence | ].
    split; [reflexivity | ].
    intros Hm. destruct message; [congruence | reflexivity].
Qed.

Lemma result_or_error_unless_runs_overlap_witness :
  exists message,
    error (finish_run utc_host file_two_agents
             (finish_run utc_host file_without_doctor
                (start_run (Some file_two_agents)
                   (start_run (Some file_without_doctor) initial_AppState))))
    = Some message
    /\ hasData (finish_run utc_host file_two_agents
                  (finish_run utc_host file_without_doctor
                     (start_run (Some file_two_agents)
                        (start_run (Some file_without_doctor) initial_AppState))))
       = true.
Proof.
  destruct (tryBlock utc_host file_without_doctor) as [[message | ] | q] eqn:Ef;
    [ | vm_compute in Ef; discriminate Ef | vm_compute in Ef; discriminate Ef].
  destruct (tryBlock utc_host file_two_agents) as [e | p] eqn:Eg;
    [vm_compute in Eg; discriminate Eg | ].
  destruct (proj2 (result_or_error_unless_runs_overlap utc_host)
              file_without_doctor file_two_agents message p
              (start_run (Some file_two_agents)
                 (start_run (Some file_without_doctor) initial_AppState))
              _ Ef Eg (or_introl eq_refl))
    as (E1 & _ & _ & _ & E5 & _).
  exists message. split; [exact E1 | exact E5].
Defined.

Lemma has_In (l : list jsstring) (k : jsstring) : has l k = true <-> In k l.
Proof.
  unfold has. rewrite existsb_exists. split.
  - intros [x [Hin Hx]]. apply jsstring_eqb_eq in Hx. subst x. exact Hin.
  - intros Hin. exists k. split; [exact Hin | apply jsstring_eqb_eq; reflexivity].
Qed.

Lemma missingColumns_In (rows : list RawRow) (c : jsstring) :
  In c (missingColumns rows) <->
  In c REQUIRED_COLUMNS /\ ~ In c (Object_keys (hd [] rows)).
Proof.
  unfold missingColumns. rewrite filter_In, negb_true_iff.
  pose proof (has_In (Object_keys (hd [] rows)) c) as H.
  destruct (has (Object_keys (hd [] rows)) c).
  - split; [intros [_ F]; discriminate F | intros [_ F]; exfalso; apply F, H; reflexivity].
  - split; intros [Hin _]; (split; [exact Hin | ]); [ | reflexivity].
    intros F. apply H in F. discriminate F.
Qed.

(** X3.  The column check looks at the keys of the first row only.  The
    columns it reports are the required ones that are not among these
    keys; when there is one, the run ends with the message that lists
    them, in the order of [REQUIRED_COLUMNS], and publishes nothing, even
    if every row is otherwise valid. *)
Theorem missing_columns_are_fatal
  (host : Host) (f : File) (workbook : Workbook) (row0 : RawRow)
  (rest : list RawRow) (st : AppState) :
  file_read f = inr workbook ->
  Sheets workbook sheet_name = Some (row0 :: rest) ->
  (exists c, In c REQUIRED_COLUMNS /\ ~ In c (Object_keys row0)) ->
  (forall c, In c (missingColumns (row0 :: rest)) <->
             In c REQUIRED_COLUMNS /\ ~ In c (Object_keys row0))
  /\ missingColumns (row0 :: rest)
     = filter (fun c => negb (has (Object_keys row0) c)) REQUIRED_COLUMNS
  /\ error (handleFileChange host (Some f) st)
     = Some (msg_missing_columns_prefix
               ++ join arabic_comma_space (missingColumns (row0 :: rest)) ++ [46%N])
  /\ parsedRows (handleFileChange host (Some f) st) = []
  /\ agents (handleFileChange host (Some f) st) = []
  /\ teamMetrics (handleFileChange host (Some f) st) = None
  /\ skippedCount (handleFileChange host (Some f) st) = 0%nat.
Proof.
  intros Hr Hs [c Hc].
  split; [intros c'; apply (missingColumns_In (row0 :: rest)) | ].
  split; [reflexivity | ].
  assert (Hm : In c (missingColumns (row0 :: rest)))
    by (apply missingColumns_In; exact Hc).
  unfold handleFileChange, tryBlock. cbv zeta. rewrite Hr, Hs.
  destruct (missingColumns (row0 :: rest)) as [ | m ms']; [destruct Hm | ].
  unfold setError, setFileName, setSkippedCount, setTeamMetrics, setAgents,
    setParsedRows.
  cbn [error parsedRows agents teamMetrics skippedCount].
  repeat split; reflexivity.
Qed.

Lemma missing_columns_are_fatal_witness :
  error (handleFileChange utc_host (Some file_without_doctor) initial_AppState)
  = Some (msg_missing_columns_prefix ++ col_doctorName ++ [46%N])
  /\ parsedRows (handleFileChange utc_host (Some file_without_doctor) initial_AppState) = [].
Proof.
  destruct (missing_columns_are_fatal utc_host file_without_doctor
              [(sheet_name, [row_without_doctor; row_same_instant])]
              row_without_doctor [row_same_instant] initial_AppState
              eq_refl eq_refl)
    as (_ & _ & He & Hp & _).
  - exists col_doctorName. split; [vm_compute; tauto | ].
    vm_compute. intros H. repeat (destruct H as [H | H]; [discriminate H | ]). exact H.
  - split; [rewrite He; vm_compute; reflexivity | exact Hp].
Defined.

(** ** More on the date normaliser *)

(** X4.  A date that [parseDate] returned goes through [parseDate] again
    unchanged: normalising is idempotent. *)
Theorem parseDate_of_a_parsed_date (host : Host) (v : option cell) (d : Date) :
  parseDate host v = Some d ->
  parseDate host (Some (CDate d)) = Some d.
Proof.
  intros H. destruct (parseDate_valid host v d H) as [t ->]. reflexivity.
Qed.

Lemma parseDate_of_a_parsed_date_witness :
  parseDate utc_host (Some (CDate (Date_of t_epoch))) = Some (Date_of t_epoch).
Proof.
  apply (parseDate_of_a_parsed_date utc_host (Some (CNumber (Fin 0)))).
  vm_compute. reflexivity.
Defined.

Lemma trimStart_blank (s : jsstring) :
  Forall (fun c => is_trim_char c = true) s -> trimStart s = [].
Proof.
  induction 1 as [ | c s Hc _ IH]; [reflexivity | ].
  cbn [trimStart]. rewrite Hc. exact IH.
Qed.

Lemma trim_blank (s : jsstring) :
  Forall (fun c => is_trim_char c = true) s -> trim s = [].
Proof. intros H. unfold trim. rewrite (trimStart_blank s H). reflexivity. Qed.

(** X5.  [parseDate] gives [null] for an absent cell, [null], a boolean,
    an invalid native date, the numbers NaN and plus or minus Infinity,
    and any text that is empty or made of white space only, whatever the
    host's parsers do. *)
Theorem parseDate_rejects (host : Host) :
  parseDate host None = None
  /\ parseDate host (Some CNull) = None
  /\ (forall b, parseDate host (Some (CBool b)) = None)
  /\ parseDate host (Some (CDate Invalid_Date)) = None
  /\ parseDate host (Some (CNumber NaN)) = None
  /\ (forall negative, parseDate host (Some (CNumber (Inf negative))) = None)
  /\ (forall s, Forall (fun c => is_trim_char c = true) s ->
                parseDate host (Some (CString s)) = None).
Proof.
  split; [reflexivity | ].
  split; [reflexivity | ].
  split; [intros b; reflexivity | ].
  split; [reflexivity | ].
  split; [vm_compute; reflexivity | ].
  split; [intros [ | ]; vm_compute; reflexivity | ].
  intros s H. unfold parseDate. rewrite (trim_blank s H). reflexivity.
Qed.

(** [split] of a text with no separator in its first part. *)
Lemma split_on_part (is_sep : N -> bool) (a : jsstring) (sep : N) (rest : jsstring) :
  Forall (fun c => is_sep c = false) a -> is_sep sep = true ->
  split_on is_sep (a ++ sep :: rest) = a :: split_on is_sep rest.
Proof.
  intros Ha Hs. induction Ha as [ | c a Hc _ IH]; cbn [app split_on].
  - rewrite Hs. reflexivity.
  - rewrite Hc, IH. reflexivity.
Qed.

Lemma split_on_head (is_sep : N -> bool) (s : jsstring) :
  exists p ps, split_on is_sep s = p :: ps.
Proof.
  induction s as [ | c s [p [ps IH]]]; cbn [split_on]; [eauto | ].
  destruct (is_sep c); [eauto | ]. rewrite IH. eauto.
Qed.

(** X6.  When the host's date parser rejects a text that, trimmed and
    with its digits normalised, has separators, the fallback reads the
    first three parts as day, month and year, in this order, and builds
    the local date of year, month - 1 and day; whatever follows the third
    part is ignored. *)
Theorem parseDate_fallback_is_day_month_year
  (host : Host) (s day month : jsstring) (sep1 sep2 : N) (rest : jsstring) :
  normalizeDigits (trim s) = day ++ sep1 :: month ++ sep2 :: rest ->
  Forall (fun c => is_separator c = false) day ->
  Forall (fun c => is_separator c = false) month ->
  is_separator sep1 = true -> is_separator sep2 = true ->
  is_valid (Date_parse host (normalizeDigits (trim s))) = false ->
  exists year more,
    split_on is_separator rest = year :: more /\
    parseDate host (Some (CString s))
    = (let fallback :=
         Date_local host (Number_of_string host (trim year))
                    (fsub (Number_of_string host (trim month)) (of_Z 1))
                    (Number_of_string host (trim day)) in
       if is_valid fallback then Some fallback else None).
Proof.
  intros Hn Hd Hm H1 H2 Hp.
  destruct (split_on_head is_separator rest) as [year [more Hy]].
  exists year, more. split; [exact Hy | ].
  unfold parseDate.
  assert (Hex : existsb is_separator (normalizeDigits (trim s)) = true).
  { rewrite Hn. apply existsb_exists. exists sep1. split; [ | exact H1].
    apply in_or_app. right. left. reflexivity. }
  assert (Hsp : split_on is_separator (normalizeDigits (trim s))
                = day :: month :: year :: more).
  { rewrite Hn, (split_on_part is_separator day sep1 _ Hd H1).
    rewrite (split_on_part is_separator month sep2 _ Hm H2), Hy. reflexivity. }
  destruct (normalizeDigits (trim s)) as [ | c0 text] eqn:E.
  { destruct day; discriminate Hn. }
  cbv zeta. rewrite Hp, Hex, Hsp. cbn [map length Nat.leb].
  unfold is_valid. destruct (isNaN _); reflexivity.
Qed.

Lemma parseDate_fallback_is_day_month_year_witness :
  option_map getTime (parseDate utc_browser (Some (CString txt_dmy_arabic)))
  = Some (Fin 1735084800000)
  /\ option_map getTime (parseDate utc_browser (Some (CString txt_mdy)))
     = Some (Fin 1714694400000).
Proof.
  split; [ | vm_compute; reflexivity].
  assert (Hd : Forall (fun c => is_separator c = false) [50; 53]%N)
    by (repeat constructor).
  assert (Hm : Forall (fun c => is_separator c = false) [49; 50]%N)
    by (repeat constructor).
  destruct (parseDate_fallback_is_day_month_year utc_browser txt_dmy_arabic
              [50; 53]%N [49; 50]%N 47%N 47%N [50; 48; 50; 52]%N
              eq_refl Hd Hm eq_refl eq_refl eq_refl)
    as (year & more & Hs & Hp).
  rewrite Hp. vm_compute in Hs. injection Hs as <- <-. vm_compute. reflexivity.
Defined.

(** X7.  [normalizeDigits] turns each Arabic-Indic digit into the ASCII
    digit of the same value and leaves every other code unit alone: the
    length is kept, no Arabic-Indic digit is left, a second pass changes
    nothing, and a text without such digits comes back as it is. *)
Theorem normalizeDigits_replaces_digits_only (s : jsstring) :
  normalizeDigits s = map ascii_digit_of s
  /\ length (normalizeDigits s) = length s
  /\ Forall (fun c => is_arabic_digit c = false) (normalizeDigits s)
  /\ normalizeDigits (normalizeDigits s) = normalizeDigits s
  /\ (Forall (fun c => is_arabic_digit c = false) s -> normalizeDigits s = s).
Proof.
  split; [apply normalizeDigits_ascii | ].
  split; [unfold normalizeDigits; apply length_map | ].
  split; [ | split].
  - rewrite normalizeDigits_ascii. unfold ascii_equivalent.
    apply Forall_forall. intros c Hc. apply in_map_iff in Hc.
    destruct Hc as [c0 [<- _]]. unfold ascii_digit_of.
    destruct (is_arabic_digit c0) eqn:E; [ | exact E].
    destruct (arabic_digit_cases c0 E) as [-> | [-> | [-> | [-> | [-> | [-> | [-> | [-> | [-> | ->]]]]]]]]];
      reflexivity.
  - rewrite !normalizeDigits_ascii. apply ascii_equivalent_idem.
  - intros H. rewrite normalizeDigits_ascii. unfold ascii_equivalent.
    induction H as [ | c s Hc _ IH]; [reflexivity | ].
    cbn [map]. rewrite IH. unfold ascii_digit_of. rewrite Hc. reflexivity.
Qed.

(** ** More on the duration calculator *)

Lemma minutesBetween_Invalid_l (e : Date) : minutesBetween Invalid_Date e = None.
Proof.
  unfold minutesBetween. cbv zeta. rewrite sixty_thousand.
  destruct e as [t | ]; reflexivity.
Qed.

Lemma minutesBetween_Invalid_r (s : Date) : minutesBetween s Invalid_Date = None.
Proof.
  unfold minutesBetween. cbv zeta. rewrite sixty_thousand.
  destruct s as [t | ]; reflexivity.
Qed.

Lemma minutesBetween_ordered_Some (s e : TimeValue) :
  (ms s <= ms e)%Z -> exists m, minutesBetween (Date_of s) (Date_of e) = Some m.
Proof.
  intros Hle.
  destruct (Z_le_gt_dec (ms e - ms s) (2 ^ 53)) as [Hs | Hb].
  - eexists. apply minutesBetween_exact. lia.
  - destruct (minutesBetween_roundings s e) as [r1 [r2 [E1 [E2 [R1 [R2 _]]]]]].
    rewrite (minutesBetween_eq s e r1 r2 E1 E2).
    assert (Hx : 9007199254740993 <= inject_Z (ms e - ms s)).
    { change 9007199254740993 with (inject_Z 9007199254740993).
      rewrite <- Zle_Qle. change (2 ^ 53)%Z with 9007199254740992%Z in Hb. lia. }
    rewrite (Qdiv_60000 r1) in R2.
    apply Qabs_Qle_condition in R1. apply Qabs_Qle_condition in R2.
    rewrite (Qneg_false r2) by lra. eexists. reflexivity.
Qed.

(** X8.  [minutesBetween] returns a number exactly when both dates are
    valid and the start is not after the end; in every other case it
    returns [null]. *)
Theorem minutesBetween_succeeds_iff_ordered (s e : Date) :
  (exists m, minutesBetween s e = Some m) <->
  (exists ts te, s = Date_of ts /\ e = Date_of te /\ (ms ts <= ms te)%Z).
Proof.
  split.
  - intros [m H]. destruct s as [ts | ]; [ | rewrite minutesBetween_Invalid_l in H; discriminate H].
    destruct e as [te | ]; [ | rewrite minutesBetween_Invalid_r in H; discriminate H].
    exists ts, te. repeat split. exact (minutesBetween_Some_ordered ts te m H).
  - intros (ts & te & -> & -> & Hle). apply minutesBetween_ordered_Some. exact Hle.
Qed.

(** X9.  Whatever the two dates, a duration that [minutesBetween] returns
    is within half a minute and three milliseconds of the exact gap in
    minutes. *)
Theorem minutesBetween_is_accurate (s e : TimeValue) (m : Z) :
  minutesBetween (Date_of s) (Date_of e) = Some m ->
  Qabs (inject_Z m - inject_Z (ms e - ms s) * (1 # 60000)) <= 10001 # 20000.
Proof.
  destruct (minutesBetween_roundings s e) as [r1 [r2 [E1 [E2 [R1 [R2 _]]]]]].
  rewrite (minutesBetween_eq s e r1 r2 E1 E2).
  destruct (Qneg r2); [discriminate | ].
  intros H. apply Some_inj in H. subst m.
  unfold Math_round.
  pose proof (Qfloor_le (r2 + (1 # 2))) as L.
  pose proof (Qlt_floor (r2 + (1 # 2))) as U.
  rewrite inject_Z_plus in U. change (inject_Z 1) with 1 in U.
  rewrite (Qdiv_60000 r1) in R2.
  apply Qabs_Qle_condition in R1. apply Qabs_Qle_condition in R2.
  apply Qabs_Qle_condition. lra.
Qed.

Lemma minutesBetween_is_accurate_witness :
  Qabs (inject_Z 150119987581
        - inject_Z (ms t_far - ms t_first) * (1 # 60000)) <= 10001 # 20000.
Proof.
  apply (minutesBetween_is_accurate t_first t_far 150119987581).
  vm_compute. reflexivity.
Defined.

(** ** More on the row transformer *)

Lemma trimStart_decomp (s : jsstring) :
  exists p, s = p ++ trimStart s /\ Forall (fun c => is_trim_char c = true) p.
Proof.
  induction s as [ | c s [p [E F]]]; [exists []; split; [reflexivity | constructor] | ].
  cbn [trimStart]. destruct (is_trim_char c) eqn:Ec.
  - exists (c :: p). split; [cbn; f_equal; exact E | constructor; assumption].
  - exists []. split; [reflexivity | constructor].
Qed.

Lemma trimStart_head (s : jsstring) (c : N) (r : jsstring) :
  trimStart s = c :: r -> is_trim_char c = false.
Proof.
  induction s as [ | c0 s IH]; [discriminate | ].
  cbn [trimStart]. destruct (is_trim_char c0) eqn:Ec; [exact IH | ].
  intros H. injection H as <- _. exact Ec.
Qed.

Lemma trimStart_fixed (s : jsstring) :
  (forall c r, s = c :: r -> is_trim_char c = false) -> trimStart s = s.
Proof.
  destruct s as [ | c r]; [reflexivity | ].
  intros H. cbn [trimStart]. rewrite (H c r eq_refl). reflexivity.
Qed.

Lemma trim_decomp (s : jsstring) :
  exists p q, s = p ++ trim s ++ q /\
              Forall (fun c => is_trim_char c = true) p /\
              Forall (fun c => is_trim_char c = true) q.
Proof.
  destruct (trimStart_decomp s) as [p [Es Fp]].
  destruct (trimStart_decomp (rev (trimStart s))) as [q [Eq Fq]].
  exists p, (rev q). split; [ | split; [exact Fp | apply Forall_rev; exact Fq]].
  unfold trim. rewrite <- rev_app_distr, <- Eq, rev_involutive. exact Es.
Qed.

Lemma trim_last (s : jsstring) (c : N) (r : jsstring) :
  trim s = r ++ [c] -> is_trim_char c = false.
Proof.
  unfold trim. intros H. apply (f_equal (@rev N)) in H.
  rewrite rev_involutive, rev_app_distr in H. cbn in H.
  exact (trimStart_head _ _ _ H).
Qed.

Lemma trim_head (s : jsstring) (c : N) (r : jsstring) :
  trim s = c :: r -> is_trim_char c = false.
Proof.
  intros H. destruct (trimStart_decomp (rev (trimStart s))) as [q [Eq _]].
  assert (E : trimStart s = trim s ++ rev q).
  { unfold trim. rewrite <- rev_app_distr, <- Eq, rev_involutive. reflexivity. }
  rewrite H in E. cbn in E. exact (trimStart_head _ _ _ E).
Qed.

Lemma trim_idem (s : jsstring) : trim (trim s) = trim s.
Proof.
  unfold trim at 1.
  rewrite (trimStart_fixed (trim s)) by (intros c r; apply trim_head).
  rewrite trimStart_fixed; [apply rev_involutive | ].
  intros c r H. apply (f_equal (@rev N)) in H. rewrite rev_involutive in H.
  cbn in H. exact (trim_last _ _ _ H).
Qed.

(** X10.  An emitted record has three valid dates with
    sent <= delivered <= approved, three durations that are not negative,
    and three text fields that are the trimmed cells, not empty and with
    no white space at either end. *)
Theorem emitted_record_is_well_formed (host : Host) (row : RawRow) (r : ParsedRow) :
  transformRow host row = Some r ->
  (exists ts td ta,
      sentDate r = Date_of ts /\ deliveredDate r = Date_of td /\
      approvedDate r = Date_of ta /\
      (ms ts <= ms td <= ms ta)%Z)
  /\ (0 <= waitingTime r)%Z /\ (0 <= handlingTime r)%Z /\ (0 <= totalTat r)%Z
  /\ patientCode r = trim (String_of host (row_get row col_patientCode))
  /\ userName r = trim (String_of host (row_get row col_userName))
  /\ doctorName r = trim (String_of host (row_get row col_doctorName))
  /\ patientCode r <> [] /\ userName r <> [] /\ doctorName r <> []
  /\ trim (patientCode r) = patientCode r
  /\ trim (userName r) = userName r
  /\ trim (doctorName r) = doctorName r.
Proof.
  intros H.
  destruct (transformRow_inv host row r H)
    as (ts & td & ta & _ & _ & _ & Es & Ed & Ea & Hp & Hu & Hd & Np & Nu & Nd & Hw & Hh & Ht).
  split.
  { exists ts, td, ta. repeat split; try assumption.
    - exact (minutesBetween_Some_ordered _ _ _ Hw).
    - exact (minutesBetween_Some_ordered _ _ _ Hh). }
  split; [exact (minutesBetween_nonneg _ _ _ Hw) | ].
  split; [exact (minutesBetween_nonneg _ _ _ Hh) | ].
  split; [exact (minutesBetween_nonneg _ _ _ Ht) | ].
  unfold text_field in Hp, Hu, Hd.
  repeat split; try assumption.
  - rewrite Hp. apply trim_idem.
  - rewrite Hu. apply trim_idem.
  - rewrite Hd. apply trim_idem.
Qed.

Lemma emitted_record_is_well_formed_witness :
  exists r, transformRow utc_host row_half_minutes = Some r /\
            (0 <= waitingTime r)%Z /\ userName r = txt_A.
Proof.
  eexists. split; [vm_compute; reflexivity | ].
  destruct (emitted_record_is_well_formed utc_host row_half_minutes _
              ltac:(vm_compute; reflexivity))
    as (_ & Hw & _ & _ & _ & Hu & _).
  split; [exact Hw | exact Hu].
Defined.

(** X11.  A row is skipped exactly when one of its three texts is empty
    once trimmed, or one of its three dates does not parse, or the three
    dates are not in the order sent <= delivered <= approved. *)
Theorem row_is_skipped_iff (host : Host) (row : RawRow) :
  transformRow host row = None <->
  (text_field host row col_patientCode = []
   \/ text_field host row col_userName = []
   \/ text_field host row col_doctorName = []
   \/ parseDate host (row_get row col_sentDate) = None
   \/ parseDate host (row_get row col_deliveredDate) = None
   \/ parseDate host (row_get row col_approvedDate) = None
   \/ exists ts td ta,
        parseDate host (row_get row col_sentDate) = Some (Date_of ts) /\
        parseDate host (row_get row col_deliveredDate) = Some (Date_of td) /\
        parseDate host (row_get row col_approvedDate) = Some (Date_of ta) /\
        ((ms td < ms ts)%Z \/ (ms ta < ms td)%Z)).
Proof.
  unfold transformRow. cbv zeta.
  destruct (text_field host row col_patientCode) as [ | p1 p];
    [cbn [is_empty orb]; tauto | ].
  destruct (text_field host row col_userName) as [ | u1 u];
    [cbn [is_empty orb]; tauto | ].
  destruct (text_field host row col_doctorName) as [ | d1 d];
    [cbn [is_empty orb]; tauto | ].
  cbn [is_empty orb].
  destruct (parseDate host (row_get row col_sentDate)) as [ds | ] eqn:Es; [ | tauto].
  destruct (parseDate host (row_get row col_deliveredDate)) as [dd | ] eqn:Ed; [ | tauto].
  destruct (parseDate host (row_get row col_approvedDate)) as [da | ] eqn:Ea; [ | tauto].
  destruct (parseDate_valid _ _ _ Es) as [ts ->].
  destruct (parseDate_valid _ _ _ Ed) as [td ->].
  destruct (parseDate_valid _ _ _ Ea) as [ta ->].
  destruct (Z_lt_le_dec (ms td) (ms ts)) as [L1 | G1].
  { rewrite (minutesBetween_reversed ts td L1). split; [intros _ | reflexivity].
    do 6 right. exists ts, td, ta. tauto. }
  destruct (Z_lt_le_dec (ms ta) (ms td)) as [L2 | G2].
  { rewrite (minutesBetween_reversed td ta L2).
    split; [intros _ | destruct (minutesBetween _ _); reflexivity].
    do 6 right. exists ts, td, ta. tauto. }
  destruct (minutesBetween_ordered_Some ts td G1) as [w ->].
  destruct (minutesBetween_ordered_Some td ta G2) as [h ->].
  destruct (minutesBetween_ordered_Some ts ta ltac:(lia)) as [t ->].
  split; [discriminate | ].
  intros [F | [F | [F | [F | [F | [F | F]]]]]]; try discriminate F.
  destruct F as (ts' & td' & ta' & E1 & E2 & E3 & Hord).
  apply Some_inj in E1, E2, E3.
  assert (ts' = ts) by congruence. assert (td' = td) by congruence.
  assert (ta' = ta) by congruence. subst. lia.
Qed.

(** X12.  The loop treats the rows one by one: the result for two lists
    of rows put end to end is the two results put together, a published
    record is the transform of one of the rows, and a reordering of the
    rows reorders the records and keeps the skipped count. *)
Theorem rows_are_processed_one_by_one (host : Host) :
  (forall rows1 rows2,
      processRows host (rows1 ++ rows2)
      = ((fst (processRows host rows1) + fst (processRows host rows2))%nat,
         snd (processRows host rows1) ++ snd (processRows host rows2)))
  /\ (forall rows r,
        In r (snd (processRows host rows)) <->
        exists row, In row rows /\ transformRow host row = Some r)
  /\ (forall rows rows',
        Permutation rows rows' ->
        fst (processRows host rows) = fst (processRows host rows') /\
        Permutation (snd (processRows host rows)) (snd (processRows host rows'))).
Proof.
  split; [ | split].
  - intros rows1 rows2. rewrite !processRows_spec. cbn [fst snd].
    unfold skipped_rows, valid_records.
    rewrite filter_app, length_app, flat_map_app. reflexivity.
  - intros rows r. rewrite processRows_spec. apply valid_records_In.
  - intros rows rows' P. rewrite !processRows_spec. cbn [fst snd]. split.
    + unfold skipped_rows. induction P; cbn [filter].
      * reflexivity.
      * destruct (transformRow host x); cbn [length]; congruence.
      * destruct (transformRow host x), (transformRow host y); reflexivity.
      * congruence.
    + unfold valid_records. apply Permutation_flat_map. exact P.
Qed.

(** ** More on the aggregator *)

Lemma Map_get_set_same (m : AgentMap) (k : jsstring) (v : AgentAcc) :
  Map_get (Map_set m k v) k = Some v.
Proof.
  induction m as [ | [k0 v0] m IH]; cbn [Map_set Map_get].
  - assert (E : jsstring_eqb k k = true) by (apply jsstring_eqb_eq; reflexivity).
    rewrite E. reflexivity.
  - destruct (jsstring_eqb k0 k) eqn:E; cbn [Map_get]; rewrite E; [reflexivity | exact IH].
Qed.

Lemma Map_get_set_other (m : AgentMap) (k k' : jsstring) (v : AgentAcc) :
  k <> k' -> Map_get (Map_set m k v) k' = Map_get m k'.
Proof.
  intros Hne. induction m as [ | [k0 v0] m IH]; cbn [Map_set Map_get].
  - assert (E : jsstring_eqb k k' = false) by (apply jsstring_eqb_neq; exact Hne).
    rewrite E. reflexivity.
  - destruct (jsstring_eqb k0 k) eqn:E; cbn [Map_get].
    + apply jsstring_eqb_eq in E. subst k0.
      assert (E' : jsstring_eqb k k' = false) by (apply jsstring_eqb_neq; exact Hne).
      rewrite E'. reflexivity.
    + destruct (jsstring_eqb k0 k'); [reflexivity | exact IH].
Qed.

Lemma Map_set_keys_eq (m : AgentMap) (k : jsstring) (v : AgentAcc) :
  keys (Map_set m k v) = if has (keys m) k then keys m else keys m ++ [k].
Proof.
  unfold has. induction m as [ | [k0 v0] m IH]; cbn [Map_set keys map fst existsb].
  - reflexivity.
  - fold (keys m) in *. destruct (jsstring_eqb k0 k) eqn:E.
    + apply jsstring_eqb_eq in E. subst k0.
      assert (E' : jsstring_eqb k k = true) by (apply jsstring_eqb_eq; reflexivity).
      rewrite E'. reflexivity.
    + assert (E' : jsstring_eqb k k0 = false).
      { apply jsstring_eqb_neq. apply jsstring_eqb_neq in E. congruence. }
      rewrite E'. cbn [orb keys map fst]. fold (keys (Map_set m k v)). rewrite IH.
      destruct (existsb (jsstring_eqb k) (keys m)); reflexivity.
Qed.

Lemma aggregate_row_step (host : Host) (st st' : AggState) (row : ParsedRow) :
  aggregate_row host st row = Some st' ->
  exists v t,
    agent_step (Map_get (agentMap st) (userName row)) row = Some v /\
    agentMap st' = Map_set (agentMap st) (userName row) v /\
    waitingSum st' = fadd (waitingSum st) (Fin (inject_Z (waitingTime row))) /\
    waitingSlaCount st'
    = (if (waitingTime row <=? 10)%Z then S (waitingSlaCount st) else waitingSlaCount st) /\
    sentDate row = Date_of t /\
    bump (hourBuckets st) (Z.to_nat (getHours host t)) = Some (hourBuckets st').
Proof.
  unfold aggregate_row, agent_step. cbv zeta. intros H.
  destruct (sentDate row) as [t | ]; [ | discriminate H].
  destruct (bump _ _) as [buckets | ] eqn:Eb; [ | discriminate H].
  apply Some_inj in H. subst st'.
  cbn [agentMap waitingSum waitingSlaCount hourBuckets].
  eexists _, t. repeat split; try reflexivity. exact Eb.
Qed.

(** The state of the loop after a list of records, field by field. *)
Lemma aggregate_rows_fields (host : Host) (parsed : list ParsedRow) :
  forall st st',
    aggregate_rows host st parsed = Some st' ->
    keys (agentMap st')
    = fold_left (fun acc name => if has acc name then acc else acc ++ [name])
                (map userName parsed) (keys (agentMap st))
    /\ (forall k, Map_get (agentMap st') k
                  = fold_left agent_step (records_of k parsed) (Map_get (agentMap st) k))
    /\ waitingSum st'
       = fold_left (fun acc m => fadd acc (Fin (inject_Z m)))
                   (map waitingTime parsed) (waitingSum st)
    /\ waitingSlaCount st'
       = (waitingSlaCount st
          + length (filter (fun r => (waitingTime r <=? 10)%Z) parsed))%nat.
Proof.
  induction parsed as [ | row parsed IH]; intros st st' H.
  - cbn in H. apply Some_inj in H. subst st'.
    cbn. repeat split; try reflexivity. lia.
  - cbn [aggregate_rows] in H.
    destruct (aggregate_row host st row) as [st1 | ] eqn:E1; [ | discriminate H].
    destruct (aggregate_row_step host st st1 row E1) as (v & t & Ev & Em & Ew & Ec & _ & _).
    destruct (IH st1 st' H) as (K & G & W & C).
    split; [ | split; [ | split]].
    + rewrite K, Em, Map_set_keys_eq. reflexivity.
    + intros k. rewrite G, Em. unfold records_of. cbn [filter].
      destruct (jsstring_eqb (userName row) k) eqn:E.
      * apply jsstring_eqb_eq in E. subst k.
        rewrite Map_get_set_same. cbn [fold_left]. rewrite Ev. reflexivity.
      * apply jsstring_eqb_neq in E. rewrite Map_get_set_other by exact E. reflexivity.
    + rewrite W, Ew. reflexivity.
    + rewrite C, Ec. cbn [filter].
      destruct (waitingTime row <=? 10)%Z; cbn [length]; lia.
Qed.

Lemma Map_get_In (m : AgentMap) (k : jsstring) (v : AgentAcc) :
  NoDup (keys m) -> In (k, v) m -> Map_get m k = Some v.
Proof.
  induction m as [ | [k0 v0] m IH]; cbn [keys map fst In Map_get]; intros Hnd Hin.
  - destruct Hin.
  - inversion Hnd as [ | ? ? Hnotin Hnd']; subst.
    destruct Hin as [E | Hin].
    + injection E as -> ->.
      assert (E : jsstring_eqb k k = true) by (apply jsstring_eqb_eq; reflexivity).
      rewrite E. reflexivity.
    + destruct (jsstring_eqb k0 k) eqn:E; [ | exact (IH Hnd' Hin)].
      apply jsstring_eqb_eq in E. subst k0. exfalso. apply Hnotin.
      apply (in_map fst) in Hin. exact Hin.
Qed.

(** The entry that the updates of one agent's records build. *)
Lemma agent_fold_fields (rs : list ParsedRow) :
  forall o,
    total_or_zero (fold_left agent_step rs o) = (total_or_zero o + length rs)%nat
    /\ sla_count_or_zero (fold_left agent_step rs o)
       = (sla_count_or_zero o
          + length (filter (fun r => (handlingTime r <=? 20)%Z) rs))%nat
    /\ handlingSum_or_zero (fold_left agent_step rs o)
       = fold_left (fun acc m => fadd acc (Fin (inject_Z m)))
                   (map handlingTime rs) (handlingSum_or_zero o).
Proof.
  induction rs as [ | r rs IH]; intros o.
  - cbn. repeat split; lia.
  - cbn [fold_left map filter].
    destruct (IH (agent_step o r)) as (T & C & S).
    rewrite T, C, S. unfold agent_step. cbv zeta.
    cbn [total_or_zero sla_count_or_zero handlingSum_or_zero total handlingSlaCount handlingSum].
    destruct o as [a | ]; cbn [total_or_zero sla_count_or_zero handlingSum_or_zero];
      (destruct (handlingTime r <=? 20)%Z; cbn [length]; repeat split; try reflexivity; lia).
Qed.

Lemma aggregate_agents_In (host : Host) (parsed : list ParsedRow)
      (am : list AgentMetrics) (tm : TeamMetrics) (a : AgentMetrics) :
  aggregate host parsed = Some (am, tm) -> In a am ->
  exists k acc,
    agent_of_records (records_of k parsed) = Some acc /\
    a = metrics_of_entry (k, acc).
Proof.
  intros H Hin.
  destruct (aggregate_inv host parsed am tm H) as (st & E & -> & _).
  destruct (aggregate_rows_agentMap host _ _ _ E) as [N _]; [constructor | ].
  destruct (aggregate_rows_fields host _ _ _ E) as (_ & G & _).
  apply (Permutation_in _ (Array_sort_perm by_totalRequests_desc _)) in Hin.
  apply in_map_iff in Hin. destruct Hin as [[k v] [<- Hin]].
  exists k, v. split; [ | reflexivity].
  pose proof (G k) as Gk. cbn [initial_AggState agentMap Map_get] in Gk.
  unfold agent_of_records. rewrite <- Gk. apply Map_get_In; assumption.
Qed.

Lemma agent_metrics_are_per_agent_aux
  (host : Host) (parsed : list ParsedRow)
  (am : list AgentMetrics) (tm : TeamMetrics) (a : AgentMetrics) :
  aggregate host parsed = Some (am, tm) -> In a am ->
  (1 <= totalRequests a)%nat
  /\ totalRequests a = requests_of (am_userName a) parsed
  /\ averageHandlingTime a
     = fdiv (sum_minutes (map handlingTime (records_of (am_userName a) parsed)))
            (of_nat (requests_of (am_userName a) parsed))
  /\ handlingSla a
     = fmul (fdiv (of_nat (length (filter (fun r => (handlingTime r <=? 20)%Z)
                                          (records_of (am_userName a) parsed))))
                  (of_nat (requests_of (am_userName a) parsed)))
            (of_Z 100).
Proof.
  intros H Hin.
  destruct (aggregate_agents_In host parsed am tm a H Hin) as (k & acc & Ea & ->).
  cbn [am_userName metrics_of_entry totalRequests averageHandlingTime handlingSla].
  unfold agent_of_records in Ea.
  destruct (agent_fold_fields (records_of k parsed) None) as (T & C & S).
  rewrite Ea in T, C, S.
  cbn [total_or_zero sla_count_or_zero handlingSum_or_zero Nat.add] in T, C, S.
  unfold requests_of, sum_minutes. rewrite <- T, <- C, <- S.
  repeat split; try reflexivity.
  destruct (records_of k parsed) as [ | r rs]; [discriminate Ea | ].
  rewrite T. cbn [length]. lia.
Qed.

(** X13.  Each agent's metrics are computed from that agent's records
    alone, in the order of the records: [totalRequests] is their number
    (at least 1), [averageHandlingTime] is the sum of their handling
    times, added up from the left in double arithmetic, divided by their
    number, and [handlingSla] is 100 times the share of them handled in
    at most 20 minutes. *)
Theorem agent_metrics_are_per_agent
  (host : Host) (parsed : list ParsedRow)
  (am : list AgentMetrics) (tm : TeamMetrics) (a : AgentMetrics) :
  aggregate host parsed = Some (am, tm) -> In a am ->
  (1 <= totalRequests a)%nat
  /\ totalRequests a = requests_of (am_userName a) parsed
  /\ averageHandlingTime a
     = fdiv (sum_minutes (map handlingTime (records_of (am_userName a) parsed)))
            (of_nat (requests_of (am_userName a) parsed))
  /\ handlingSla a
     = fmul (fdiv (of_nat (length (filter (fun r => (handlingTime r <=? 20)%Z)
                                          (records_of (am_userName a) parsed))))
                  (of_nat (requests_of (am_userName a) parsed)))
            (of_Z 100).
Proof. apply agent_metrics_are_per_agent_aux. Qed.

Lemma agent_metrics_are_per_agent_witness :
  exists am tm a,
    aggregate utc_host (valid_records utc_host rows_two_agents) = Some (am, tm) /\
    hd_error am = Some a /\
    am_userName a = txt_A /\ totalRequests a = 2%nat /\
    averageHandlingTime a = Fin 20 /\ handlingSla a = Fin 50.
Proof.
  destruct (aggregate utc_host (valid_records utc_host rows_two_agents))
    as [[am tm] | ] eqn:E; [ | vm_compute in E; discriminate E].
  destruct am as [ | a am']; [vm_compute in E; discriminate E | ].
  pose proof (agent_metrics_are_per_agent utc_host _ _ _ a E (or_introl eq_refl))
    as (_ & Ht & Ha & Hs).
  exists (a :: am'), tm, a. split; [reflexivity | split; [reflexivity | ]].
  assert (Hn : am_userName a = txt_A).
  { vm_compute in E. injection E as <- _ _. reflexivity. }
  rewrite Hn in Ht, Ha, Hs.
  split; [exact Hn | ].
  split; [rewrite Ht; vm_compute; reflexivity | ].
  split; [rewrite Ha; vm_compute; reflexivity | rewrite Hs; vm_compute; reflexivity].
Defined.

(** ** The percentages *)

Lemma of_nat_exact (n : nat) :
  (Z.of_nat n <= 2 ^ 53)%Z ->
  exists q, of_nat n = Fin q /\ q == inject_Z (Z.of_nat n).
Proof.
  intros H. unfold of_nat, of_Z.
  apply (round64_exact (inject_Z (Z.of_nat n)) (Z.of_nat n) 0).
  - change (2 ^ 0) with 1. ring.
  - lia.
  - lia.
  - rewrite Qabs_inject_Z. apply Qle_lt_trans with (inject_Z (2 ^ 53)).
    + rewrite <- Zle_Qle. lia.
    + vm_compute. reflexivity.
Qed.

Lemma of_Z_100 : of_Z 100 = Fin 100.
Proof. vm_compute. reflexivity. Qed.

(** [(count / total) * 100] in double arithmetic stays within 0 and 100
    when [count <= total]. *)
Lemma percentage_range (c t : nat) :
  (c <= t)%nat -> (1 <= t)%nat -> (Z.of_nat t <= 2 ^ 32)%Z ->
  exists q, fmul (fdiv (of_nat c) (of_nat t)) (of_Z 100) = Fin q /\ 0 <= q <= 100.
Proof.
  intros Hct Ht Hmax.
  destruct (of_nat_exact c) as [qc [Ec Rc]];
    [change (2 ^ 53)%Z with 9007199254740992%Z;
     change (2 ^ 32)%Z with 4294967296%Z in Hmax; lia | ].
  destruct (of_nat_exact t) as [qt [Et Rt]];
    [change (2 ^ 53)%Z with 9007199254740992%Z;
     change (2 ^ 32)%Z with 4294967296%Z in Hmax; lia | ].
  rewrite Ec, Et, of_Z_100.
  assert (Bt : 1 <= qt <= 4294967296).
  { rewrite Rt. change 1 with (inject_Z 1).
    change 4294967296 with (inject_Z (2 ^ 32)). rewrite <- !Zle_Qle. lia. }
  assert (Nz : Qeq_bool qt 0 = false).
  { destruct (Qeq_bool qt 0) eqn:E; [ | reflexivity].
    apply Qeq_bool_iff in E. lra. }
  cbn [fdiv]. rewrite Nz.
  destruct (Nat.eq_dec c 0) as [C0 | Cpos]; [ | destruct (Nat.eq_dec c t) as [Ceq | Cne]].
  - (* none *)
    assert (Z0 : qc / qt == 0).
    { rewrite Rc, C0. change (inject_Z (Z.of_nat 0)) with 0. field. lra. }
    rewrite (round64_zero _ Z0). cbn [fmul].
    rewrite round64_zero by ring. exists 0. split; [reflexivity | lra].
  - (* all *)
    assert (E1 : qc / qt == 1) by (rewrite Rc, Ceq, <- Rt; field; lra).
    destruct (round64_exact_small (qc / qt) 1 0) as [r [Er Rr]].
    { rewrite E1. reflexivity. }
    { vm_compute. discriminate. }
    { lia. }
    { rewrite E1. vm_compute. discriminate. }
    rewrite Er. cbn [fmul].
    destruct (round64_exact_small (r * 100) 25 2) as [q [Eq Rq]].
    { rewrite Rr, E1. reflexivity. }
    { vm_compute. discriminate. }
    { lia. }
    { rewrite Rr, E1. vm_compute. discriminate. }
    exists q. split; [exact Eq | ]. rewrite Rq, Rr, E1. split; vm_compute; discriminate.
  - (* some, not all *)
    assert (Bc : 1 <= qc <= qt - 1).
    { rewrite Rc, Rt. split.
      - change 1 with (inject_Z 1). rewrite <- Zle_Qle. lia.
      - apply Qle_trans with (inject_Z (Z.of_nat t - 1)).
        + rewrite <- Zle_Qle. lia.
        + unfold Z.sub. rewrite inject_Z_plus.
          change (inject_Z (- (1))) with (- (1)). lra. }
    set (x := qc / qt).
    assert (Bx : (1 # 4294967296) <= x <= 1 - (1 # 4294967296)).
    { unfold x. split.
      - apply Qle_shift_div_l; lra.
      - apply Qle_shift_div_r; lra. }
    assert (Hx : Qabs x < 2 ^ 0).
    { change (2 ^ 0) with 1. apply Qabs_Qlt_condition. lra. }
    destruct (round64_error x 0 Hx ltac:(lia)) as [r [Er Rr]].
    setoid_replace (2 ^ Z.max (0 - 53) (-1074) * (1 # 2))
      with (1 # 18014398509481984) in Rr by reflexivity.
    apply Qabs_Qle_condition in Rr.
    rewrite Er. cbn [fmul].
    assert (Hy : Qabs (r * 100) < 2 ^ 7).
    { change (2 ^ 7) with 128. apply Qabs_Qlt_condition. lra. }
    destruct (round64_error (r * 100) 7 Hy ltac:(lia)) as [q [Eq Rq]].
    setoid_replace (2 ^ Z.max (7 - 53) (-1074) * (1 # 2))
      with (1 # 140737488355328) in Rq by reflexivity.
    apply Qabs_Qle_condition in Rq.
    exists q. split; [exact Eq | lra].
Qed.

Lemma length_filter_records_of (name : jsstring) (parsed : list ParsedRow) :
  (requests_of name parsed <= length parsed)%nat.
Proof. unfold requests_of, records_of. apply length_filter_le. Qed.

(** X14.  With fewer than [2^32] records, the bound of an array, the
    team's [assignmentSla] and every agent's [handlingSla] are numbers
    between 0 and 100. *)
Theorem sla_percentages_are_within_0_and_100
  (host : Host) (parsed : list ParsedRow)
  (am : list AgentMetrics) (tm : TeamMetrics) :
  aggregate host parsed = Some (am, tm) ->
  parsed <> [] ->
  (Z.of_nat (length parsed) <= 2 ^ 32)%Z ->
  (exists q, assignmentSla tm = Fin q /\ 0 <= q <= 100)
  /\ (forall a, In a am -> exists q, handlingSla a = Fin q /\ 0 <= q <= 100).
Proof.
  intros H Hne Hmax. split.
  - destruct (aggregate_inv host parsed am tm H) as (st & E & _ & _ & _ & ->).
    destruct (aggregate_rows_fields host _ _ _ E) as (_ & _ & _ & C).
    cbn [initial_AggState waitingSlaCount Nat.add] in C. rewrite C.
    apply percentage_range.
    + apply length_filter_le.
    + destruct parsed; [congruence | cbn [length]; lia].
    + exact Hmax.
  - intros a Hin.
    destruct (agent_metrics_are_per_agent_aux host parsed am tm a H Hin)
      as (H1 & Ht & _ & Hs).
    rewrite Hs. apply percentage_range.
    + apply length_filter_le.
    + rewrite <- Ht. exact H1.
    + pose proof (length_filter_records_of (am_userName a) parsed). lia.
Qed.

Lemma sla_percentages_are_within_0_and_100_witness :
  exists am tm q,
    aggregate utc_host (valid_records utc_host rows_two_agents) = Some (am, tm) /\
    assignmentSla tm = Fin q /\ 0 <= q <= 100.
Proof.
  destruct (aggregate utc_host (valid_records utc_host rows_two_agents))
    as [[am tm] | ] eqn:E; [ | vm_compute in E; discriminate E].
  destruct (sla_percentages_are_within_0_and_100 utc_host _ am tm E)
    as [[q [Eq Bq]] _].
  - vm_compute. discriminate.
  - vm_compute. discriminate.
  - exists am, tm, q. split; [reflexivity | split; assumption].
Defined.

(** ** The averages *)

Lemma of_Z_0 : of_Z 0 = Fin 0.
Proof. vm_compute. reflexivity. Qed.

Lemma Zsum_nonneg (l : list Z) : Forall (fun m => (0 <= m)%Z) l -> (0 <= Zsum l)%Z.
Proof. induction 1; cbn [Zsum fold_right]; [lia | fold (Zsum l); lia]. Qed.

(** Whole minutes add up without rounding while the sum stays within
    [2^53]. *)
Lemma sum_minutes_exact_from (l : list Z) :
  forall (qa : Q) (a : Z),
    qa == inject_Z a -> (0 <= a)%Z ->
    Forall (fun m => (0 <= m)%Z) l ->
    (a + Zsum l <= 2 ^ 53)%Z ->
    exists q,
      fold_left (fun acc m => fadd acc (Fin (inject_Z m))) l (Fin qa) = Fin q /\
      q == inject_Z (a + Zsum l).
Proof.
  induction l as [ | m l IH]; intros qa a Ha Hpos Hl Hmax.
  - exists qa. split; [reflexivity | ]. cbn [Zsum fold_right]. rewrite Z.add_0_r. exact Ha.
  - inversion Hl as [ | ? ? Hm Hl']; subst.
    pose proof (Zsum_nonneg l Hl') as Hs.
    cbn [Zsum fold_right] in Hmax. fold (Zsum l) in Hmax.
    cbn [fold_left fadd].
    destruct (round64_exact_small (qa + inject_Z m) (a + m) 0) as [r [Er Rr]].
    { rewrite Ha, inject_Z_plus. change (2 ^ 0) with 1. ring. }
    { change (2 ^ 53)%Z with 9007199254740992%Z in *. lia. }
    { lia. }
    { rewrite Ha, <- inject_Z_plus, Qabs_inject_Z.
      change 9007199254740992 with (inject_Z 9007199254740992).
      rewrite <- Zle_Qle. change (2 ^ 53)%Z with 9007199254740992%Z in *. lia. }
    rewrite Er.
    destruct (IH r (a + m)%Z) as [q [Eq Rq]].
    { rewrite Rr, Ha, inject_Z_plus. reflexivity. }
    { lia. }
    { exact Hl'. }
    { lia. }
    exists q. split; [exact Eq | ].
    rewrite Rq. cbn [Zsum fold_right]. fold (Zsum l).
    replace (a + m + Zsum l)%Z with (a + (m + Zsum l))%Z by lia. reflexivity.
Qed.

Lemma sum_minutes_exact (l : list Z) :
  Forall (fun m => (0 <= m)%Z) l -> (Zsum l <= 2 ^ 53)%Z ->
  exists q, sum_minutes l = Fin q /\ q == inject_Z (Zsum l).
Proof.
  intros Hl Hmax. unfold sum_minutes. rewrite of_Z_0.
  destruct (sum_minutes_exact_from l 0 0%Z) as [q [Eq Rq]];
    try assumption; try reflexivity; try lia.
  exists q. split; [exact Eq | rewrite Rq; reflexivity].
Qed.

(** The quotient of an exact sum by a count is the mean, correctly
    rounded. *)
Lemma mean_is_rounded (l : list Z) (n : nat) :
  Forall (fun m => (0 <= m)%Z) l -> (Zsum l <= 2 ^ 53)%Z ->
  (1 <= n)%nat -> (Z.of_nat n <= 2 ^ 53)%Z ->
  exists q,
    fdiv (sum_minutes l) (of_nat n) = Fin q /\
    0 <= q /\
    Qabs (q - inject_Z (Zsum l) / inject_Z (Z.of_nat n))
    <= inject_Z (Zsum l) / inject_Z (Z.of_nat n) * (1 # 9007199254740992).
Proof.
  intros Hl Hmax Hn Hn'.
  destruct (sum_minutes_exact l Hl Hmax) as [s [Es Rs]].
  destruct (of_nat_exact n Hn') as [qn [En Rn]].
  pose proof (Zsum_nonneg l Hl) as Hs.
  rewrite Es, En.
  assert (Bn : 1 <= qn <= 9007199254740992).
  { rewrite Rn. change 1 with (inject_Z 1).
    change 9007199254740992 with (inject_Z (2 ^ 53)). rewrite <- !Zle_Qle. lia. }
  assert (Nz : Qeq_bool qn 0 = false).
  { destruct (Qeq_bool qn 0) eqn:E; [ | reflexivity].
    apply Qeq_bool_iff in E. lra. }
  cbn [fdiv]. rewrite Nz.
  assert (Ex : inject_Z (Zsum l) / inject_Z (Z.of_nat n) == s / qn)
    by (rewrite Rs, Rn; reflexivity).
  cut (exists q, round64 (s / qn) = Fin q /\ 0 <= q /\
                 Qabs (q - s / qn) <= s / qn * (1 # 9007199254740992)).
  { intros [q [Eq [Pq Rq]]]. exists q. split; [exact Eq | ].
    split; [exact Pq | ]. rewrite Ex. exact Rq. }
  destruct (Z.eq_dec (Zsum l) 0) as [S0 | Spos].
  - assert (Z0 : s / qn == 0).
    { rewrite Rs, S0. change (inject_Z 0) with 0. field. lra. }
    rewrite (round64_zero _ Z0). exists 0. split; [reflexivity | ].
    rewrite Z0. split; [lra | ]. vm_compute. discriminate.
  - assert (Bs : 1 <= s <= 9007199254740992).
    { rewrite Rs. change 1 with (inject_Z 1).
      change 9007199254740992 with (inject_Z (2 ^ 53)). rewrite <- !Zle_Qle. lia. }
    assert (Bx : (1 # 9007199254740992) <= s / qn <= 9007199254740992).
    { split.
      - apply Qle_shift_div_l; lra.
      - apply Qle_shift_div_r; lra. }
    destruct (round64_rel (s / qn)) as [q [Eq Rq]].
    { rewrite Qabs_pos by lra.
      apply Qle_trans with (1 # 9007199254740992); [vm_compute; discriminate | lra]. }
    { rewrite Qabs_pos by lra.
      apply Qle_lt_trans with 9007199254740992; [lra | vm_compute; reflexivity]. }
    exists q. split; [exact Eq | ].
    rewrite (Qabs_pos (s / qn)) in Rq by lra.
    setoid_replace (2 ^ (-53)) with (1 # 9007199254740992) in Rq by reflexivity.
    split; [ | exact Rq].
    apply Qabs_Qle_condition in Rq. lra.
Qed.

Lemma valid_records_durations (host : Host) (rows : list RawRow) :
  Forall (fun r => (0 <= waitingTime r)%Z /\ (0 <= handlingTime r)%Z)
         (valid_records host rows).
Proof.
  apply Forall_forall. intros r Hin.
  apply valid_records_In in Hin. destruct Hin as [row [_ Hr]].
  destruct (transformRow_inv host row r Hr)
    as (ts & td & ta & _ & _ & _ & _ & _ & _ & _ & _ & _ & _ & _ & _ & Hw & Hh & _).
  split; eapply minutesBetween_nonneg; eassumption.
Qed.

Lemma Zsum_filter_le (f : ParsedRow -> Z) (p : ParsedRow -> bool) (l : list ParsedRow) :
  Forall (fun r => (0 <= f r)%Z) l ->
  (Zsum (map f (filter p l)) <= Zsum (map f l))%Z.
Proof.
  induction 1 as [ | r l Hr Hl IH]; [cbn; lia | ].
  cbn [filter map]. destruct (p r); cbn [map Zsum fold_right];
    fold (Zsum (map f l)); [fold (Zsum (map f (filter p l))) | ]; lia.
Qed.

Lemma Forall_map_filter (f : ParsedRow -> Z) (p : ParsedRow -> bool) (l : list ParsedRow) :
  Forall (fun r => (0 <= f r)%Z) l ->
  Forall (fun m => (0 <= m)%Z) (map f (filter p l)).
Proof.
  intros H. apply Forall_forall. intros m Hm.
  apply in_map_iff in Hm. destruct Hm as [r [<- Hr]].
  apply filter_In in Hr. destruct Hr as [Hr _].
  rewrite Forall_forall in H. apply H, Hr.
Qed.

Lemma Forall_map_nonneg (f : ParsedRow -> Z) (l : list ParsedRow) :
  Forall (fun r => (0 <= f r)%Z) l ->
  Forall (fun m => (0 <= m)%Z) (map f l).
Proof.
  intros H. apply Forall_forall. intros m Hm.
  apply in_map_iff in Hm. destruct Hm as [r [<- Hr]].
  rewrite Forall_forall in H. apply H, Hr.
Qed.

(** X15.  While the minutes of a sheet add up to at most [2^53], the
    sums are exact, so the team's average waiting time and every agent's
    average handling time are the exact means rounded once to a double:
    non-negative and within a relative error of [2^-53]. *)
Theorem averages_are_rounded_means
  (host : Host) (rows : list RawRow)
  (am : list AgentMetrics) (tm : TeamMetrics) :
  let parsed := valid_records host rows in
  aggregate host parsed = Some (am, tm) ->
  parsed <> [] ->
  (Z.of_nat (length parsed) <= 2 ^ 53)%Z ->
  (Zsum (map waitingTime parsed) <= 2 ^ 53)%Z ->
  (Zsum (map handlingTime parsed) <= 2 ^ 53)%Z ->
  (exists q,
      averageWaitingTime tm = Fin q /\ 0 <= q /\
      Qabs (q - inject_Z (Zsum (map waitingTime parsed))
                / inject_Z (Z.of_nat (length parsed)))
      <= inject_Z (Zsum (map waitingTime parsed))
         / inject_Z (Z.of_nat (length parsed)) * (1 # 9007199254740992))
  /\ (forall a, In a am ->
      let mine := records_of (am_userName a) parsed in
      exists q,
        averageHandlingTime a = Fin q /\ 0 <= q /\
        Qabs (q - inject_Z (Zsum (map handlingTime mine))
                  / inject_Z (Z.of_nat (length mine)))
        <= inject_Z (Zsum (map handlingTime mine))
           / inject_Z (Z.of_nat (length mine)) * (1 # 9007199254740992)).
Proof.
  intros parsed H Hne Hn Hw Hh.
  pose proof (valid_records_durations host rows) as D. fold parsed in D.
  assert (Dw : Forall (fun r => (0 <= waitingTime r)%Z) parsed)
    by (eapply Forall_impl; [ | exact D]; cbv beta; intros r [A _]; exact A).
  assert (Dh : Forall (fun r => (0 <= handlingTime r)%Z) parsed)
    by (eapply Forall_impl; [ | exact D]; cbv beta; intros r [_ A]; exact A).
  split.
  - destruct (aggregate_inv host parsed am tm H) as (st & E & _ & _ & -> & _).
    destruct (aggregate_rows_fields host _ _ _ E) as (_ & _ & W & _).
    cbn [initial_AggState waitingSum] in W. rewrite W.
    change (fold_left _ (map waitingTime parsed) (of_Z 0))
      with (sum_minutes (map waitingTime parsed)).
    apply mean_is_rounded.
    + apply Forall_map_nonneg, Dw.
    + exact Hw.
    + destruct parsed; [congruence | cbn [length]; lia].
    + exact Hn.
  - intros a Hin mine.
    destruct (agent_metrics_are_per_agent_aux host parsed am tm a H Hin)
      as (H1 & Ht & Ha & _).
    rewrite Ha. unfold requests_of in *. fold mine. fold mine in Ht.
    apply mean_is_rounded.
    + apply Forall_map_filter, Dh.
    + eapply Z.le_trans; [apply Zsum_filter_le, Dh | exact Hh].
    + rewrite <- Ht. exact H1.
    + pose proof (length_filter_le (fun r => jsstring_eqb (userName r) (am_userName a)) parsed).
      unfold mine, records_of. lia.
Qed.

Lemma averages_are_rounded_means_witness :
  exists am tm q,
    aggregate utc_host (valid_records utc_host rows_two_agents) = Some (am, tm) /\
    averageWaitingTime tm = Fin q /\ 0 <= q.
Proof.
  destruct (aggregate utc_host (valid_records utc_host rows_two_agents))
    as [[am tm] | ] eqn:E; [ | vm_compute in E; discriminate E].
  destruct (averages_are_rounded_means utc_host rows_two_agents am tm E)
    as [[q [Eq [Pq _]]] _].
  - vm_compute. discriminate.
  - vm_compute. discriminate.
  - vm_compute. discriminate.
  - vm_compute. discriminate.
  - exists am, tm, q. split; [reflexivity | split; assumption].
Defined.

(** ** The order of the agents *)

Lemma sort_insert_filter {A : Type} (cmp : A -> A -> Z) (p : A -> bool)
      (x : A) (l : list A) :
  (forall a b, p a = true -> p b = true -> (cmp a b <= 0)%Z) ->
  filter p (sort_insert cmp x l) = filter p (x :: l).
Proof.
  intros H. induction l as [ | y l IH]; cbn [sort_insert]; [reflexivity | ].
  destruct (cmp x y <=? 0)%Z eqn:E; [reflexivity | ].
  cbn [filter]. rewrite IH. cbn [filter].
  destruct (p x) eqn:Px; destruct (p y) eqn:Py; try reflexivity.
  apply Z.leb_gt in E. specialize (H x y Px Py). lia.
Qed.

(** The sort is stable: elements the comparator holds equal keep their
    order. *)
Lemma Array_sort_filter {A : Type} (cmp : A -> A -> Z) (p : A -> bool) (l : list A) :
  (forall a b, p a = true -> p b = true -> (cmp a b <= 0)%Z) ->
  filter p (Array_sort cmp l) = filter p l.
Proof.
  intros H. induction l as [ | x l IH]; cbn [Array_sort]; [reflexivity | ].
  rewrite (sort_insert_filter cmp p x _ H). cbn [filter]. rewrite IH. reflexivity.
Qed.

Lemma StronglySorted_weaken {A : Type} (R S : A -> A -> Prop) (l : list A) :
  (forall a b, R a b -> S a b) -> StronglySorted R l -> StronglySorted S l.
Proof.
  intros H. induction 1 as [ | x l Hl IH Hx]; constructor; [exact IH | ].
  apply Forall_impl with (2 := Hx). apply H.
Qed.

Lemma agent_entries_total (host : Host) (parsed : list ParsedRow) (st : AggState) :
  aggregate_rows host initial_AggState parsed = Some st ->
  forall k v, In (k, v) (agentMap st) -> total v = requests_of k parsed.
Proof.
  intros E k v Hin.
  destruct (aggregate_rows_agentMap host _ _ _ E) as [N _]; [constructor | ].
  destruct (aggregate_rows_fields host _ _ _ E) as (_ & G & _).
  pose proof (G k) as Gk. cbn [initial_AggState agentMap Map_get] in Gk.
  rewrite (Map_get_In _ _ _ N Hin) in Gk.
  destruct (agent_fold_fields (records_of k parsed) None) as (T & _).
  rewrite <- Gk in T. cbn [total_or_zero Nat.add] in T. exact T.
Qed.

Lemma ties_of_entries (parsed : list ParsedRow) (n : nat) (m : AgentMap) :
  (forall k v, In (k, v) m -> total v = requests_of k parsed) ->
  map am_userName (filter (fun a => (totalRequests a =? n)%nat) (map metrics_of_entry m))
  = filter (fun name => (requests_of name parsed =? n)%nat) (keys m).
Proof.
  induction m as [ | [k v] m IH]; intros H; [reflexivity | ].
  cbn [map filter keys fst metrics_of_entry totalRequests].
  rewrite (H k v) by (left; reflexivity).
  fold (keys m). 
  destruct (requests_of k parsed =? n)%nat; cbn [map am_userName];
    rewrite IH by (intros k' v' Hin; apply H; right; exact Hin); reflexivity.
Qed.

(** X16.  The agent table is in descending order of [totalRequests],
    and agents with the same number of requests stand in the order in
    which their names first appear in the records. *)
Theorem agents_are_ranked
  (host : Host) (parsed : list ParsedRow)
  (am : list AgentMetrics) (tm : TeamMetrics) :
  aggregate host parsed = Some (am, tm) ->
  StronglySorted (fun a b => (totalRequests b <= totalRequests a)%nat) am
  /\ forall n,
       map am_userName (filter (fun a => (totalRequests a =? n)%nat) am)
       = filter (fun name => (requests_of name parsed =? n)%nat)
                (first_seen (map userName parsed)).
Proof.
  intros H.
  destruct (aggregate_inv host parsed am tm H) as (st & E & -> & _).
  split.
  - apply StronglySorted_weaken
      with (R := fun a b => (by_totalRequests_desc a b <= 0)%Z).
    + unfold by_totalRequests_desc. intros; lia.
    + apply Array_sort_sorted; unfold by_totalRequests_desc; intros; lia.
  - intros n.
    rewrite Array_sort_filter.
    + rewrite (ties_of_entries parsed n _ (agent_entries_total host parsed st E)).
      destruct (aggregate_rows_fields host _ _ _ E) as (K & _).
      rewrite K. reflexivity.
    + intros a b Ha Hb. apply Nat.eqb_eq in Ha, Hb.
      unfold by_totalRequests_desc. lia.
Qed.

Lemma agents_are_ranked_witness :
  exists am tm,
    aggregate utc_host (valid_records utc_host rows_two_agents) = Some (am, tm) /\
    StronglySorted (fun a b => (totalRequests b <= totalRequests a)%nat) am.
Proof.
  destruct (aggregate utc_host (valid_records utc_host rows_two_agents))
    as [[am tm] | ] eqn:E; [ | vm_compute in E; discriminate E].
  exists am, tm. split; [reflexivity | ].
  exact (proj1 (agents_are_ranked utc_host _ am tm E)).
Defined.

(** ** The histogram of the hours *)

Lemma bump_seq (c : nat -> nat) :
  forall n s i,
    (i < n)%nat ->
    bump (map (fun h => {| hour := h; count := c h |}) (seq s n)) i
    = Some (map (fun h => {| hour := h;
                             count := if (h =? s + i)%nat then S (c h) else c h |})
                (seq s n)).
Proof.
  induction n as [ | n IH]; intros s i Hi; [lia | ].
  cbn [seq map]. destruct i as [ | i]; cbn [bump hour count].
  - rewrite Nat.add_0_r, Nat.eqb_refl. f_equal. f_equal.
    apply map_ext_in. intros h Hh. apply in_seq in Hh.
    destruct (Nat.eqb_spec h s); [lia | reflexivity].
  - rewrite (IH (S s) i) by lia. cbn [option_map]. f_equal.
    destruct (Nat.eqb_spec s (s + S i)); [lia | ]. f_equal.
    apply map_ext. intros h. replace (S s + i)%nat with (s + S i)%nat by lia.
    reflexivity.
Qed.

Lemma sent_in_hour_nil (host : Host) (h : nat) : sent_in_hour host [] h = 0%nat.
Proof. reflexivity. Qed.

Lemma sent_in_hour_cons (host : Host) (row : ParsedRow) (rows : list ParsedRow)
      (h : nat) (t : TimeValue) :
  sentDate row = Date_of t ->
  sent_in_hour host (row :: rows) h
  = if (h =? Z.to_nat (getHours host t))%nat
    then S (sent_in_hour host rows h) else sent_in_hour host rows h.
Proof.
  intros E. unfold sent_in_hour, sent_hour. cbn [filter]. rewrite E.
  pose proof (getHours_range host t) as R.
  destruct (Z.eqb_spec (getHours host t) (Z.of_nat h));
    destruct (Nat.eqb_spec h (Z.to_nat (getHours host t))); try lia; reflexivity.
Qed.

Lemma aggregate_rows_histogram (host : Host) (parsed : list ParsedRow) :
  forall st st' (c : nat -> nat),
    aggregate_rows host st parsed = Some st' ->
    hourBuckets st = map (fun h => {| hour := h; count := c h |}) (seq 0 24) ->
    hourBuckets st'
    = map (fun h => {| hour := h; count := (c h + sent_in_hour host parsed h)%nat |})
          (seq 0 24).
Proof.
  induction parsed as [ | row parsed IH]; intros st st' c H Hb.
  - cbn [aggregate_rows] in H. apply Some_inj in H. subst st'. rewrite Hb.
    apply map_ext. intros h. rewrite sent_in_hour_nil, Nat.add_0_r. reflexivity.
  - cbn [aggregate_rows] in H.
    destruct (aggregate_row host st row) as [st1 | ] eqn:E1; [ | discriminate H].
    destruct (aggregate_row_step host st st1 row E1)
      as (v & t & _ & _ & _ & _ & Et & Eb).
    pose proof (getHours_range host t) as R.
    rewrite Hb, bump_seq in Eb by lia. apply Some_inj in Eb.
    rewrite (IH st1 st' _ H (eq_sym Eb)).
    apply map_ext. intros h. f_equal.
    rewrite (sent_in_hour_cons host row parsed h t Et). cbn [Nat.add].
    destruct (h =? Z.to_nat (getHours host t))%nat; lia.
Qed.

(** The buckets the aggregator fills are the histogram of the hours of
    sending. *)
Lemma aggregate_histogram (host : Host) (parsed : list ParsedRow) (st : AggState) :
  aggregate_rows host initial_AggState parsed = Some st ->
  hourBuckets st = histogram host parsed.
Proof.
  intros H.
  apply (aggregate_rows_histogram host parsed _ _ (fun _ => 0%nat) H).
  reflexivity.
Qed.

Lemma histogram_In (host : Host) (parsed : list ParsedRow) (item : HourCount) :
  In item (histogram host parsed) <->
  (hour item < 24)%nat /\ count item = sent_in_hour host parsed (hour item).
Proof.
  unfold histogram. rewrite in_map_iff. split.
  - intros [h [<- Hh]]. apply in_seq in Hh. cbn [hour count]. split; [lia | reflexivity].
  - intros [Hh Hc]. exists (hour item). split.
    + destruct item as [h c]. cbn [hour count] in *. rewrite Hc. reflexivity.
    + apply in_seq. lia.
Qed.

Lemma histogram_by_hour (c : nat -> nat) (n s : nat) :
  StronglySorted (fun a b => (hour a < hour b)%nat)
                 (map (fun h => {| hour := h; count := c h |}) (seq s n)).
Proof.
  revert s. induction n as [ | n IH]; intros s; cbn [seq map]; constructor.
  - apply IH.
  - apply Forall_forall. intros item Hin. apply in_map_iff in Hin.
    destruct Hin as [h [<- Hh]]. apply in_seq in Hh. cbn [hour]. lia.
Qed.

Lemma busier_sorted (l : list HourCount) :
  StronglySorted (fun a b => (count b <= count a)%nat) l ->
  (forall n, StronglySorted (fun a b => (hour a < hour b)%nat)
                            (filter (fun a => (count a =? n)%nat) l)) ->
  StronglySorted busier l.
Proof.
  induction 1 as [ | x l Hl IH Hx]; intros Hn; constructor.
  - apply IH. intros n. specialize (Hn n). cbn [filter] in Hn.
    destruct (count x =? n)%nat; [ | exact Hn].
    inversion Hn; assumption.
  - apply Forall_forall. intros y Hy. rewrite Forall_forall in Hx.
    specialize (Hx y Hy). unfold busier.
    destruct (Nat.eq_dec (count y) (count x)) as [E | NE]; [right | left; lia].
    split; [exact E | ].
    specialize (Hn (count x)). cbn [filter] in Hn. rewrite Nat.eqb_refl in Hn.
    inversion Hn as [ | ? ? _ F]; subst.
    rewrite Forall_forall in F. apply F. apply filter_In. split; [exact Hy | ].
    apply Nat.eqb_eq. exact E.
Qed.

Lemma In_firstn {A : Type} (n : nat) (l : list A) (x : A) :
  In x (firstn n l) -> In x l.
Proof.
  intros H. rewrite <- (firstn_skipn n l). apply in_or_app. left. exact H.
Qed.

Lemma StronglySorted_app_inv {A : Type} (R : A -> A -> Prop) (l1 l2 : list A) :
  StronglySorted R (l1 ++ l2) ->
  forall x y, In x l1 -> In y l2 -> R x y.
Proof.
  induction l1 as [ | a l1 IH]; cbn [app]; intros H x y Hx Hy; [destruct Hx | ].
  inversion H as [ | ? ? Hs F]; subst.
  destruct Hx as [<- | Hx].
  - rewrite Forall_forall in F. apply F, in_or_app. right. exact Hy.
  - apply (IH Hs x y Hx Hy).
Qed.

Lemma filter_drops {A : Type} (p : A -> bool) (l : list A) :
  (length (filter p l) < length l)%nat -> exists x, In x l /\ p x = false.
Proof.
  induction l as [ | a l IH]; cbn [filter length]; intros H; [lia | ].
  destruct (p a) eqn:Pa.
  - cbn [length] in H. destruct IH as [x [Hx Px]]; [lia | ].
    exists x. split; [right; exact Hx | exact Px].
  - exists a. split; [left; reflexivity | exact Pa].
Qed.

Lemma sorted_histogram (host : Host) (parsed : list ParsedRow) :
  StronglySorted busier (Array_sort by_count_desc (histogram host parsed)).
Proof.
  apply busier_sorted.
  - apply StronglySorted_weaken with (R := fun a b => (by_count_desc a b <= 0)%Z).
    + unfold by_count_desc. intros; lia.
    + apply Array_sort_sorted; unfold by_count_desc; intros; lia.
  - intros n. rewrite Array_sort_filter.
    + apply StronglySorted_filter. apply histogram_by_hour.
    + intros a b Ha Hb. apply Nat.eqb_eq in Ha, Hb. unfold by_count_desc. lia.
Qed.

Lemma peakHours_aux (host : Host) (parsed : list ParsedRow)
      (am : list AgentMetrics) (tm : TeamMetrics) :
  aggregate host parsed = Some (am, tm) ->
  peakHours tm
  = filter (fun item => (0 <? count item)%nat)
           (firstn 3 (Array_sort by_count_desc (histogram host parsed))).
Proof.
  intros H. destruct (aggregate_inv host parsed am tm H) as (st & E & _ & -> & _).
  rewrite (aggregate_histogram host parsed st E). reflexivity.
Qed.

(** X17.  The [peakHours] of the team are the up to three busiest hours
    of sending: each entry is an hour of the day with the number of
    records sent in that hour, which is not 0; the entries are ordered by
    that number, the earlier hour first among equal numbers; every hour
    left out comes after every entry in this order; and when fewer than
    three entries are listed, no record was sent in any other hour. *)
Theorem peakHours_are_the_busiest_hours
  (host : Host) (parsed : list ParsedRow)
  (am : list AgentMetrics) (tm : TeamMetrics) :
  aggregate host parsed = Some (am, tm) ->
  (forall item, In item (peakHours tm) ->
     (hour item < 24)%nat /\
     count item = sent_in_hour host parsed (hour item) /\
     (0 < count item)%nat)
  /\ StronglySorted busier (peakHours tm)
  /\ (forall h, (h < 24)%nat -> ~ In h (map hour (peakHours tm)) ->
        (forall item, In item (peakHours tm) ->
           busier item {| hour := h; count := sent_in_hour host parsed h |})
        /\ ((length (peakHours tm) < 3)%nat -> sent_in_hour host parsed h = 0%nat)).
Proof.
  intros H. rewrite (peakHours_aux host parsed am tm H).
  set (sorted := Array_sort by_count_desc (histogram host parsed)).
  pose proof (sorted_histogram host parsed) as Ssorted. fold sorted in Ssorted.
  pose proof (Array_sort_perm by_count_desc (histogram host parsed)) as P.
  fold sorted in P.
  split; [ | split].
  - intros item Hin. apply filter_In in Hin. destruct Hin as [Hin Hpos].
    apply In_firstn in Hin. apply (Permutation_in _ P) in Hin.
    apply histogram_In in Hin. destruct Hin as [Hh Hc].
    apply Nat.ltb_lt in Hpos. repeat split; assumption.
  - apply StronglySorted_filter, StronglySorted_firstn, Ssorted.
  - intros h Hh Hout.
    set (mine := {| hour := h; count := sent_in_hour host parsed h |}).
    assert (Hmine : In mine sorted).
    { apply (Permutation_in _ (Permutation_sym P)). apply histogram_In.
      split; [exact Hh | reflexivity]. }
    rewrite <- (firstn_skipn 3 sorted) in Hmine, Ssorted.
    apply in_app_or in Hmine. destruct Hmine as [Hfirst | Hlater].
    + (* among the first three, so left out for its count of 0 *)
      assert (Z0 : sent_in_hour host parsed h = 0%nat).
      { destruct (sent_in_hour host parsed h) as [ | c] eqn:Ec; [reflexivity | ].
        exfalso. apply Hout. apply in_map_iff. exists mine. split; [reflexivity | ].
        apply filter_In. split; [exact Hfirst | ].
        unfold mine. cbn [count]. reflexivity. }
      split; [ | intros _; exact Z0].
      intros item Hin. apply filter_In in Hin. destruct Hin as [_ Hpos].
      apply Nat.ltb_lt in Hpos. left. unfold mine. cbn [count]. lia.
    + split.
      * intros item Hin. apply filter_In in Hin. destruct Hin as [Hin _].
        apply (StronglySorted_app_inv _ _ _ Ssorted item mine Hin Hlater).
      * intros Hshort.
        assert (L : length (firstn 3 sorted) = 3%nat).
        { rewrite length_firstn, (Permutation_length P).
          unfold histogram. rewrite length_map, length_seq. reflexivity. }
        destruct (filter_drops (fun item => (0 <? count item)%nat) (firstn 3 sorted))
          as [x [Hx Px]]; [lia | ].
        apply Nat.ltb_ge in Px.
        pose proof (StronglySorted_app_inv _ _ _ Ssorted x mine Hx Hlater) as B.
        unfold busier, mine in B. cbn [count hour] in B. lia.
Qed.

Lemma peakHours_are_the_busiest_hours_witness :
  exists am tm,
    aggregate utc_host (valid_records utc_host rows_two_agents) = Some (am, tm) /\
    StronglySorted busier (peakHours tm).
Proof.
  destruct (aggregate utc_host (valid_records utc_host rows_two_agents))
    as [[am tm] | ] eqn:E; [ | vm_compute in E; discriminate E].
  exists am, tm. split; [reflexivity | ].
  exact (proj1 (proj2 (peakHours_are_the_busiest_hours utc_host _ am tm E))).
Defined.

(** ** A run as a whole *)

Lemma handleFileChange_published (host : Host) (f : File) (st : AppState) :
  error (handleFileChange host (Some f) st) = None ->
  exists p,
    tryBlock host f = inr p /\
    handleFileChange host (Some f) st
    = {| error := None; fileName := Some (file_name f);
         parsedRows := pub_parsed p; agents := pub_agentMetrics p;
         teamMetrics := Some (pub_teamStats p); skippedCount := pub_skipped p |}.
Proof.
  unfold handleFileChange. cbv zeta.
  destruct (tryBlock host f) as [[message | ] | p] eqn:Et; cbn; intros H;
    [discriminate H | discriminate H | ].
  exists p. split; reflexivity.
Qed.

Lemma handleFileChange_valid (host : Host) (f : File) (rows : list RawRow)
      (st : AppState) :
  passes_pre_row_checks f rows ->
  valid_records host rows <> [] ->
  exists am tm,
    aggregate host (valid_records host rows) = Some (am, tm) /\
    handleFileChange host (Some f) st
    = {| error := None; fileName := Some (file_name f);
         parsedRows := valid_records host rows; agents := am;
         teamMetrics := Some tm; skippedCount := skipped_rows host rows |}.
Proof.
  intros Hpre Hv.
  destruct (tryBlock_valid host f rows Hpre Hv) as (am & tm & Ha & Et).
  exists am, tm. split; [exact Ha | ].
  unfold handleFileChange. cbv zeta. rewrite Et. reflexivity.
Qed.

(** X18.  A run on a file ends without an error exactly when the file
    passes the pre-row checks and at least one row of the sheet is valid;
    the aggregation itself never fails.  The state then holds the file's
    name, the valid records in the order of the sheet, the number of the
    other rows, and the metrics of exactly these records. *)
Theorem run_succeeds_iff (host : Host) (f : File) (st : AppState) :
  (error (handleFileChange host (Some f) st) = None <->
   exists rows, passes_pre_row_checks f rows /\ valid_records host rows <> [])
  /\ (forall rows,
        passes_pre_row_checks f rows -> valid_records host rows <> [] ->
        fileName (handleFileChange host (Some f) st) = Some (file_name f) /\
        parsedRows (handleFileChange host (Some f) st) = valid_records host rows /\
        skippedCount (handleFileChange host (Some f) st) = skipped_rows host rows /\
        exists tm,
          teamMetrics (handleFileChange host (Some f) st) = Some tm /\
          aggregate host (valid_records host rows)
          = Some (agents (handleFileChange host (Some f) st), tm)).
Proof.
  split; [split | ].
  - intros H. destruct (handleFileChange_published host f st H) as [p [Et _]].
    destruct (tryBlock_published host f p Et) as [Hne [rows (Hpre & Hp & _)]].
    exists rows. split; [exact Hpre | rewrite <- Hp; exact Hne].
  - intros [rows [Hpre Hv]].
    destruct (handleFileChange_valid host f rows st Hpre Hv) as (am & tm & _ & ->).
    reflexivity.
  - intros rows Hpre Hv.
    destruct (handleFileChange_valid host f rows st Hpre Hv) as (am & tm & Ha & ->).
    cbn [fileName parsedRows skippedCount teamMetrics agents].
    repeat split. exists tm. split; [reflexivity | exact Ha].
Qed.

(** ** The charts *)

Lemma list_sum_bumped (c : nat -> nat) (i : nat) :
  forall n s,
    list_sum (map (fun h => if (h =? i)%nat then S (c h) else c h) (seq s n))
    = ((if ((s <=? i) && (i <? s + n))%nat then 1 else 0)
       + list_sum (map c (seq s n)))%nat.
Proof.
  induction n as [ | n IH]; intros s.
  - cbn [seq map list_sum fold_right].
    destruct (Nat.leb_spec s i); destruct (Nat.ltb_spec i (s + 0)); cbn [andb]; lia.
  - cbn [seq map]. rewrite !list_sum_cons, IH.
    destruct (Nat.eqb_spec s i);
      destruct (Nat.leb_spec s i); destruct (Nat.ltb_spec i (s + S n));
      destruct (Nat.leb_spec (S s) i); destruct (Nat.ltb_spec i (S s + n));
      cbn [andb]; lia.
Qed.

(** Every record with a valid date of sending is counted in one hour. *)
Lemma histogram_total (host : Host) (parsed : list ParsedRow) :
  Forall (fun r => exists t, sentDate r = Date_of t) parsed ->
  list_sum (map (sent_in_hour host parsed) (seq 0 24)) = length parsed.
Proof.
  induction 1 as [ | row parsed [t Et] _ IH]; [reflexivity | ].
  pose proof (getHours_range host t) as R.
  rewrite (map_ext _ _ (fun h => sent_in_hour_cons host row parsed h t Et)).
  rewrite (list_sum_bumped (sent_in_hour host parsed) (Z.to_nat (getHours host t)) 24 0).
  rewrite IH. cbn [length].
  destruct (Nat.ltb_spec (Z.to_nat (getHours host t)) (0 + 24)); cbn [Nat.leb andb]; lia.
Qed.

Lemma nth_histogram (host : Host) (parsed : list ParsedRow) (h : nat) :
  (h < 24)%nat ->
  nth h (map (sent_in_hour host parsed) (seq 0 24)) 0%nat = sent_in_hour host parsed h.
Proof.
  intros Hh.
  rewrite (nth_indep _ 0%nat (sent_in_hour host parsed 0)) by (rewrite length_map, length_seq; exact Hh).
  rewrite map_nth, seq_nth by exact Hh. reflexivity.
Qed.

(** X19.  After a run without an error the charts agree with the
    tables.  The hour chart has 24 values that add up to the number of
    records, and at every hour of [peakHours] it shows that entry's
    count; no value of the chart exceeds the count of the first entry.
    The two agent charts list every agent once, in the order of the
    table, and the values of the request chart add up to the number of
    records. *)
Theorem charts_agree_with_the_tables (host : Host) (f : File) (st : AppState) :
  error (handleFileChange host (Some f) st) = None ->
  exists tm,
    teamMetrics (handleFileChange host (Some f) st) = Some tm /\
    length (peakData_counts host (handleFileChange host (Some f) st)) = 24%nat /\
    list_sum (peakData_counts host (handleFileChange host (Some f) st))
    = length (parsedRows (handleFileChange host (Some f) st)) /\
    (forall item, In item (peakHours tm) ->
       nth (hour item) (peakData_counts host (handleFileChange host (Some f) st)) 0%nat
       = count item) /\
    (forall h, (h < 24)%nat ->
       (nth h (peakData_counts host (handleFileChange host (Some f) st)) 0%nat
        <= count (hd {| hour := 0; count := 0 |} (peakHours tm)))%nat) /\
    NoDup (barData_labels (handleFileChange host (Some f) st)) /\
    (forall name, In name (barData_labels (handleFileChange host (Some f) st)) <->
                  In name (map userName (parsedRows (handleFileChange host (Some f) st)))) /\
    length (barData_data (handleFileChange host (Some f) st))
    = length (barData_labels (handleFileChange host (Some f) st)) /\
    length (handlingData_data (handleFileChange host (Some f) st))
    = length (barData_labels (handleFileChange host (Some f) st)) /\
    list_sum (barData_data (handleFileChange host (Some f) st))
    = length (parsedRows (handleFileChange host (Some f) st)).
Proof.
  intros H.
  destruct (handleFileChange_published host f st H) as [p [Et ->]].
  destruct (tryBlock_published host f p Et) as [Hne [rows (_ & Hp & _ & Ha)]].
  exists (pub_teamStats p).
  unfold peakData_counts, barData_labels, barData_data, handlingData_data.
  cbn [teamMetrics parsedRows agents].
  split; [reflexivity | ].
  split; [rewrite length_map, length_seq; reflexivity | ].
  split; [apply histogram_total; rewrite Hp; apply valid_records_sentDate | ].
  pose proof (peakHours_aux host _ _ _ Ha) as Hpk.
  pose proof (sorted_histogram host (pub_parsed p)) as Ssorted.
  pose proof (Array_sort_perm by_count_desc (histogram host (pub_parsed p))) as P.
  split; [ | split].
  - intros item Hin. rewrite Hpk in Hin.
    apply filter_In in Hin. destruct Hin as [Hin _].
    apply In_firstn in Hin. apply (Permutation_in _ P) in Hin.
    apply histogram_In in Hin. destruct Hin as [Hh Hc].
    rewrite nth_histogram by exact Hh. symmetry. exact Hc.
  - intros h Hh. rewrite nth_histogram by exact Hh.
    assert (Hmine : In {| hour := h; count := sent_in_hour host (pub_parsed p) h |}
                       (Array_sort by_count_desc (histogram host (pub_parsed p)))).
    { apply (Permutation_in _ (Permutation_sym P)). apply histogram_In.
      split; [exact Hh | reflexivity]. }
    rewrite Hpk. revert Ssorted Hmine.
    generalize (Array_sort by_count_desc (histogram host (pub_parsed p))).
    intros [ | x l] Ssorted Hmine; [destruct Hmine | ].
    cbn [firstn filter].
    assert (Hx : (sent_in_hour host (pub_parsed p) h <= count x)%nat).
    { destruct Hmine as [-> | Hl]; [cbn [count]; lia | ].
      inversion Ssorted as [ | ? ? _ F]; subst.
      rewrite Forall_forall in F. specialize (F _ Hl).
      unfold busier in F. cbn [count hour] in F. lia. }
    destruct (0 <? count x)%nat eqn:Epos; [cbn [hd]; exact Hx | ].
    apply Nat.ltb_ge in Epos. lia.
  - destruct (aggregate_inv host _ _ _ Ha) as (ast & E & Eam & _).
    destruct (aggregate_rows_agentMap host _ _ _ E) as [N [K T]]; [constructor | ].
    pose proof (Array_sort_perm by_totalRequests_desc
                  (map metrics_of_entry (agentMap ast))) as Pa.
    rewrite <- Eam in Pa.
    assert (Pk : Permutation (map am_userName (pub_agentMetrics p)) (keys (agentMap ast))).
    { rewrite <- metrics_userName. apply Permutation_map. exact Pa. }
    split; [ | split; [ | split; [ | split]]].
    + apply (Permutation_NoDup (Permutation_sym Pk)). exact N.
    + intros name.
      assert (K' : In name (keys (agentMap ast)) <->
                   In name (map userName (pub_parsed p))).
      { rewrite K. cbn [initial_AggState agentMap keys map In]. tauto. }
      rewrite <- K'.
      split; apply Permutation_in; [ | symmetry]; exact Pk.
    + rewrite !length_map. reflexivity.
    + rewrite !length_map. reflexivity.
    + apply (aggregate_totalRequests host _ _ _ Ha).
Qed.

Lemma charts_agree_with_the_tables_witness :
  exists tm,
    teamMetrics (handleFileChange utc_host (Some file_two_agents) initial_AppState)
    = Some tm /\
    length (peakData_counts utc_host
              (handleFileChange utc_host (Some file_two_agents) initial_AppState))
    = 24%nat.
Proof.
  destruct (charts_agree_with_the_tables utc_host file_two_agents initial_AppState)
    as [tm [Htm [Hlen _]]].
  - vm_compute. reflexivity.
  - exists tm. split; assumption.
Defined.

(** ** Day-counts out of range *)

(** Rounding a value of magnitude 1 or more gives an infinity of its
    sign or a value within a relative error of [2^-53]. *)
Lemma round64_big (x : Q) :
  1 <= Qabs x ->
  match round64 x with
  | NaN => False
  | Inf s => s = Qneg x
  | Fin r => Qabs (r - x) <= Qabs x * (1 # 9007199254740992)
  end.
Proof.
  intros Hlo.
  assert (NZ : ~ x == 0).
  { intros E. rewrite E in Hlo. change (Qabs 0) with 0 in Hlo. lra. }
  pose proof (round64_raw_error x) as E.
  assert (Hulp : 2 ^ ulp_exp x * (1 # 2) <= Qabs x * (1 # 9007199254740992)).
  { setoid_replace (1 # 9007199254740992) with (2 ^ (-53)) by reflexivity.
    pose proof (Qpow2_pos (-53)) as P53.
    destruct (ulp_exp_lower x NZ) as [Eq | Lo].
    - rewrite Eq.
      setoid_replace (2 ^ (-1074) * (1 # 2)) with (2 ^ (-1022) * 2 ^ (-53))
        by (vm_compute; reflexivity).
      apply Qmult_le_compat_r; [ | lra].
      apply Qle_trans with 1; [vm_compute; discriminate | exact Hlo].
    - setoid_replace (2 ^ ulp_exp x * (1 # 2)) with (2 ^ (ulp_exp x + 52) * 2 ^ (-53)).
      + apply Qmult_le_compat_r; lra.
      + rewrite Qpow2_add.
        setoid_replace (2 ^ (-53)) with ((1 # 2) * / 2 ^ 52) by (vm_compute; reflexivity).
        field. }
  unfold round64.
  destruct (Qeq_bool x 0) eqn:E0; [apply Qeq_bool_iff in E0; contradiction | ].
  cbv zeta.
  set (r0 := inject_Z (rne (x / 2 ^ ulp_exp x)) * 2 ^ ulp_exp x) in *.
  destruct (Qle_bool (2 ^ 1024) (Qabs r0)).
  - unfold Qneg. f_equal.
    destruct (Qle_bool 0 r0) eqn:Er; destruct (Qle_bool 0 x) eqn:Ex; try reflexivity; exfalso.
    + apply Qle_bool_iff in Er.
      assert (x < 0) by (destruct (Qlt_le_dec x 0) as [L | L];
                         [exact L | apply Qle_bool_iff in L; congruence]).
      revert E Hulp Hlo. apply Qabs_case; apply Qabs_case; intros; lra.
    + apply Qle_bool_iff in Ex.
      assert (r0 < 0) by (destruct (Qlt_le_dec r0 0) as [L | L];
                          [exact L | apply Qle_bool_iff in L; congruence]).
      revert E Hulp Hlo. apply Qabs_case; apply Qabs_case; intros; lra.
  - rewrite (Qred_correct r0). lra.
Qed.

Lemma signed_abs (s : bool) (x b : Q) :
  0 <= b -> b <= signed s x -> Qabs x == signed s x /\ Qneg x = s \/ (x == 0 /\ b == 0).
Proof.
  intros Hb H. destruct (Qeq_dec x 0) as [Z0 | NZ].
  - right. split; [exact Z0 | ]. destruct s; cbn [signed] in H; lra.
  - left. destruct s; cbn [signed] in *.
    + split; [apply Qabs_neg; lra | apply Qneg_true; lra].
    + split; [apply Qabs_pos; lra | apply Qneg_false; lra].
Qed.

Lemma round64_beyond (s : bool) (x b b' : Q) :
  1 <= b -> b <= signed s x ->
  b' <= b * (1 - (1 # 9007199254740992)) ->
  beyond s (round64 x) b'.
Proof.
  intros Hb Hx Hb'.
  destruct (signed_abs s x b) as [[Ea En] | [Z0 B0]]; [lra | exact Hx | | lra].
  pose proof (round64_big x) as R. rewrite Ea in R.
  specialize (R ltac:(lra)).
  destruct (round64 x) as [ | t | r]; cbn [beyond].
  - exact R.
  - rewrite R. exact En.
  - apply Qabs_Qle_condition in R.
    destruct s; cbn [signed] in *; lra.
Qed.

Lemma fmul_beyond (s : bool) (n : number) (b c b' : Q) :
  beyond s n b -> 0 < c -> 0 <= b -> 1 <= b * c ->
  b' <= b * c * (1 - (1 # 9007199254740992)) ->
  beyond s (fmul n (Fin c)) b'.
Proof.
  intros Hn Hc Hb Hbc Hb'.
  destruct n as [ | t | r]; cbn [beyond] in Hn; [destruct Hn | | ].
  - cbn [fmul].
    destruct (Qeq_bool c 0) eqn:E; [apply Qeq_bool_iff in E; lra | ].
    rewrite (Qneg_false c) by lra. rewrite xorb_false_r. exact Hn.
  - cbn [fmul]. apply (round64_beyond s (r * c) (b * c) b' Hbc); [ | exact Hb'].
    assert (M : b * c <= signed s r * c) by (apply Qmult_le_compat_r; lra).
    destruct s; cbn [signed] in *; lra.
Qed.

Lemma fadd_beyond (s : bool) (n : number) (e b b' : Q) :
  beyond s n b -> 1 <= b + signed s e ->
  b' <= (b + signed s e) * (1 - (1 # 9007199254740992)) ->
  beyond s (fadd (Fin e) n) b'.
Proof.
  intros Hn Hb Hb'.
  destruct n as [ | t | r]; cbn [beyond] in Hn; [destruct Hn | exact Hn | ].
  cbn [fadd]. apply (round64_beyond s (e + r) (b + signed s e) b' Hb); [ | exact Hb'].
  destruct s; cbn [signed] in *; lra.
Qed.

Lemma TimeClip_beyond (s : bool) (n : number) (b : Q) :
  beyond s n b -> inject_Z max_time < b -> TimeClip n = Invalid_Date.
Proof.
  intros Hn Hb. destruct n as [ | t | r]; cbn [beyond] in Hn; try reflexivity.
  unfold TimeClip.
  destruct (Qle_bool (Qabs r) (inject_Z max_time)) eqn:E; [ | reflexivity].
  apply Qle_bool_iff in E. exfalso.
  revert E. destruct s; cbn [signed] in Hn; apply Qabs_case; intros; lra.
Qed.

Lemma parseDate_beyond (host : Host) (s : bool) (v b : Q) :
  b <= signed s v -> 99974433 <= b <= 100025570 ->
  8640000086400000 <= b * 86400000 + signed s (inject_Z excel_epoch) ->
  parseDate host (Some (CNumber (Fin v))) = None.
Proof.
  intros Hv Hb Hfar.
  unfold parseDate. cbv zeta.
  rewrite excelEpoch_value, of_Z_24, of_Z_60, of_Z_1000. cbn [getTime].
  assert (B0 : beyond s (Fin v) b) by exact Hv.
  assert (B1 : beyond s (fmul (Fin v) (Fin 24)) (b * 24 - 1)).
  { apply (fmul_beyond s _ b 24); [exact B0 | | | | ]; lra. }
  assert (B2 : beyond s (fmul (fmul (Fin v) (Fin 24)) (Fin 60)) (b * 1440 - 61)).
  { apply (fmul_beyond s _ (b * 24 - 1) 60); [exact B1 | | | | ]; lra. }
  assert (B3 : beyond s (fmul (fmul (fmul (Fin v) (Fin 24)) (Fin 60)) (Fin 60))
                      (b * 86400 - 3661)).
  { apply (fmul_beyond s _ (b * 1440 - 61) 60); [exact B2 | | | | ]; lra. }
  assert (B4 : beyond s (fmul (fmul (fmul (fmul (Fin v) (Fin 24)) (Fin 60)) (Fin 60))
                              (Fin 1000))
                      (b * 86400000 - 3662000)).
  { apply (fmul_beyond s _ (b * 86400 - 3661) 1000); [exact B3 | | | | ]; lra. }
  assert (B5 : beyond s (fadd (Fin (inject_Z (ms t_epoch)))
                              (fmul (fmul (fmul (fmul (Fin v) (Fin 24)) (Fin 60)) (Fin 60))
                                    (Fin 1000)))
                      8640000000000001).
  { apply (fadd_beyond s _ _ (b * 86400000 - 3662000)); [exact B4 | | ];
      change (ms t_epoch) with excel_epoch;
      assert (Hs : - (2209161600000) <= signed s (inject_Z excel_epoch) <= 2209161600000)
        by (destruct s; cbn [signed]; split; vm_compute; discriminate);
      lra. }
  rewrite (TimeClip_beyond s _ _ B5); [reflexivity | ].
  vm_compute. reflexivity.
Qed.

(** X20.  A numeric day-count of 100,025,570 or more, or of -99,974,433
    or less, is more than 100,000,000 days from the start of 1970, the
    range of a date: [parseDate] gives [null] for it, so the row is
    skipped. *)
Theorem parseDate_rejects_far_day_counts (host : Host) (v : Q) :
  100025570 <= v \/ v <= - (99974433) ->
  parseDate host (Some (CNumber (Fin v))) = None
  /\ forall row,
       row_get row col_sentDate = Some (CNumber (Fin v)) ->
       transformRow host row = None.
Proof.
  intros H.
  assert (E : parseDate host (Some (CNumber (Fin v))) = None).
  { destruct H as [H | H].
    - apply (parseDate_beyond host false v 100025570); cbn [signed];
        [exact H | lra | vm_compute; discriminate].
    - apply (parseDate_beyond host true v 99974433); cbn [signed];
        [lra | lra | vm_compute; discriminate]. }
  split; [exact E | ].
  intros row Hrow. unfold transformRow. cbv zeta. rewrite Hrow, E.
  repeat match goal with
         | |- context [match ?x with _ => _ end] => destruct x; try reflexivity
         end.
Qed.

(** ** Formatted numbers *)

Lemma low_digits_value (fuel : nat) :
  forall n, (n < 10 ^ N.of_nat fuel)%N -> low_value (low_digits fuel n) = n.
Proof.
  induction fuel as [ | fuel IH]; intros n Hn.
  - change (10 ^ N.of_nat 0)%N with 1%N in Hn. cbn [low_digits low_value fold_right]. lia.
  - cbn [low_digits]. unfold low_value. cbn [fold_right]. fold (low_value).
    pose proof (N.div_mod' n 10) as D.
    destruct (N.eqb_spec (n / 10) 0) as [E | NE].
    + cbn [fold_right]. lia.
    + fold (low_value (low_digits fuel (n / 10))). rewrite IH; [lia | ].
      rewrite Nat2N.inj_succ, N.pow_succ_r' in Hn.
      apply N.Div0.div_lt_upper_bound. exact Hn.
Qed.

Lemma low_digits_range (fuel : nat) :
  forall n, Forall (fun d => (d < 10)%N) (low_digits fuel n).
Proof.
  induction fuel as [ | fuel IH]; intros n; cbn [low_digits]; constructor.
  - apply N.mod_lt. discriminate.
  - destruct (n / 10 =? 0)%N; [constructor | apply IH].
Qed.

Lemma decimal_value_app (a b : jsstring) :
  decimal_value (a ++ b)
  = fold_left (fun acc c => (10 * acc + (c - 48))%N) b (decimal_value a).
Proof. unfold decimal_value. apply fold_left_app. Qed.

Lemma decimal_value_rev (l : list N) :
  decimal_value (map (fun d => (48 + d)%N) (rev l)) = low_value l.
Proof.
  induction l as [ | d l IH]; [reflexivity | ].
  cbn [rev]. rewrite map_app, decimal_value_app, IH.
  cbn [map fold_left low_value fold_right]. fold (low_value l). lia.
Qed.

Lemma enough_fuel (n : N) : (n < 10 ^ N.of_nat (S (N.to_nat (N.log2 n))))%N.
Proof.
  rewrite Nat2N.inj_succ, N2Nat.id.
  destruct (N.eq_dec n 0) as [-> | NZ]; [reflexivity | ].
  destruct (N.log2_spec n) as [_ U]; [lia | ].
  apply N.lt_le_trans with (1 := U).
  apply N.pow_le_mono_l. lia.
Qed.

(** The digits of a number read back as the number. *)
Lemma decimal_digits_value (n : N) : decimal_value (decimal_digits n) = n.
Proof.
  unfold decimal_digits. rewrite decimal_value_rev.
  apply low_digits_value, enough_fuel.
Qed.

Lemma decimal_digits_ascii (n : N) : forallb is_ascii_digit (decimal_digits n) = true.
Proof.
  unfold decimal_digits. apply forallb_forall. intros c Hc.
  apply in_map_iff in Hc. destruct Hc as [d [<- Hd]].
  apply in_rev in Hd.
  pose proof (low_digits_range (S (N.to_nat (N.log2 n))) n) as R.
  rewrite Forall_forall in R. specialize (R d Hd).
  unfold is_ascii_digit. apply andb_true_iff. split; apply N.leb_le; lia.
Qed.

Lemma decimal_digits_one (d : N) : (d < 10)%N -> decimal_digits d = [(48 + d)%N].
Proof.
  intros H.
  assert (C : In d [0; 1; 2; 3; 4; 5; 6; 7; 8; 9]%N).
  { cbn [In]. lia. }
  cbn [In] in C.
  repeat (destruct C as [<- | C]; [vm_compute; reflexivity | ]). destruct C.
Qed.

(** X21.  A finite value that is not negative and is below [10^21]
    prints with [toFixed(1)] as the digits of a whole number, a point and
    one more digit; the digits read back as that whole number, and the
    number printed is within 0.05 of the value.  [formatMinutes] and
    [formatPercentage] append their unit to this text; a value of at most
    100 prints with a whole part of at most 100. *)
Theorem formatted_numbers_read_back (host : Host) (q : Q) :
  0 <= q -> q < inject_Z (10 ^ 21) ->
  exists whole tenth : N,
    (tenth < 10)%N /\
    toFixed1 host (Fin q) = decimal_digits whole ++ [46; 48 + tenth]%N /\
    formatMinutes host (Fin q)
    = decimal_digits whole ++ [46; 48 + tenth]%N ++ txt_minutes_suffix /\
    formatPercentage host (Fin q) = decimal_digits whole ++ [46; 48 + tenth; 37]%N /\
    forallb is_ascii_digit (decimal_digits whole) = true /\
    decimal_value (decimal_digits whole) = whole /\
    Qabs (inject_Z (Z.of_N whole) + inject_Z (Z.of_N tenth) * (1 # 10) - q) <= 1 # 20 /\
    (q <= 100 -> (whole <= 100)%N).
Proof.
  intros Hpos Hmax.
  set (F := Qfloor (q * 10 + (1 # 2))).
  pose proof (Qfloor_le (q * 10 + (1 # 2))) as L.
  pose proof (Qlt_floor (q * 10 + (1 # 2))) as U.
  fold F in L, U. rewrite inject_Z_plus in U. change (inject_Z 1) with 1 in U.
  assert (F0 : (0 <= F)%Z).
  { assert (Q0 : inject_Z (-1) < inject_Z F)
      by (change (inject_Z (-1)) with (- (1)); lra).
    rewrite <- Zlt_Qlt in Q0. lia. }
  set (n := Z.to_N F).
  assert (En : Z.of_N n = F) by (unfold n; lia).
  pose proof (N.div_mod' n 10) as D.
  assert (T : (n mod 10 < 10)%N) by (apply N.mod_lt; discriminate).
  assert (Et : toFixed1 host (Fin q)
               = decimal_digits (n / 10) ++ [46; 48 + n mod 10]%N).
  { unfold toFixed1.
    assert (Ea : Qabs q == q) by (apply Qabs_pos; exact Hpos).
    destruct (Qle_bool (inject_Z (10 ^ 21)) (Qabs q)) eqn:E.
    - apply Qle_bool_iff in E. rewrite Ea in E. lra.
    - cbv zeta. rewrite (Qneg_false q Hpos).
      assert (Ef : Qfloor (Qabs q * 10 + (1 # 2)) = F).
      { unfold F. apply Qfloor_comp. rewrite Ea. reflexivity. }
      rewrite Ef. fold n. rewrite (decimal_digits_one (n mod 10) T). reflexivity. }
  exists (n / 10)%N, (n mod 10)%N.
  split; [exact T | ].
  split; [exact Et | ].
  split; [unfold formatMinutes; rewrite Et, <- app_assoc; reflexivity | ].
  split; [unfold formatPercentage; rewrite Et, <- app_assoc; reflexivity | ].
  split; [apply decimal_digits_ascii | ].
  split; [apply decimal_digits_value | ].
  assert (Ez : (10 * Z.of_N (n / 10) + Z.of_N (n mod 10) = F)%Z) by lia.
  assert (Eq' : inject_Z (Z.of_N (n / 10)) * 10 + inject_Z (Z.of_N (n mod 10))
                == inject_Z F).
  { rewrite <- Ez, inject_Z_plus, inject_Z_mult. change (inject_Z 10) with 10. ring. }
  split.
  - apply Qabs_Qle_condition. lra.
  - intros H100.
    assert (Q1 : inject_Z F < inject_Z 1001)
      by (change (inject_Z 1001) with 1001; lra).
    rewrite <- Zlt_Qlt in Q1.
    assert (Hn : (n < 1001)%N) by lia.
    clearbody n. clear - D Hn.
    set (whole := (n / 10)%N) in *. set (tenth := (n mod 10)%N) in *.
    clearbody whole tenth. lia.
Qed.

Lemma formatted_numbers_read_back_witness :
  exists whole tenth : N,
    formatPercentage utc_host (Fin 50) = decimal_digits whole ++ [46; 48 + tenth; 37]%N.
Proof.
  destruct (formatted_numbers_read_back utc_host 50) as (whole & tenth & _ & _ & _ & E & _).
  - vm_compute. discriminate.
  - vm_compute. reflexivity.
  - exists whole, tenth. exact E.
Defined.

Lemma parseDate_rejects_far_day_counts_witness :
  parseDate utc_host (Some (CNumber (Fin 100025570))) = None.
Proof.
  apply (parseDate_rejects_far_day_counts utc_host 100025570).
  left. apply Qle_refl.
Defined.

(** ** The causes of an error *)

(** X22.  An error message left by a run on a file names the first
    check that failed: reading the file threw (an [Error] gives its own
    message, anything else the unexpected-error message), the workbook has
    no sheet [ag-grid], the sheet has no rows, a required column is
    missing from the first row, or no row is valid.  The aggregation is
    never the cause. *)
Theorem error_names_the_first_failed_check
  (host : Host) (f : File) (st : AppState) (message : jsstring) :
  error (handleFileChange host (Some f) st) = Some message ->
  file_read f = inl (ErrorObject message)
  \/ (file_read f = inl NotAnError /\ message = msg_unexpected)
  \/ (exists workbook,
        file_read f = inr workbook /\ Sheets workbook sheet_name = None /\
        message = msg_missing_sheet)
  \/ (exists workbook,
        file_read f = inr workbook /\ Sheets workbook sheet_name = Some [] /\
        message = msg_no_rows)
  \/ (exists workbook rows,
        file_read f = inr workbook /\ Sheets workbook sheet_name = Some rows /\
        rows <> [] /\ missingColumns rows <> [] /\
        message = msg_missing_columns_prefix
                    ++ join arabic_comma_space (missingColumns rows) ++ [46%N])
  \/ (exists rows,
        passes_pre_row_checks f rows /\ valid_records host rows = [] /\
        message = msg_no_valid_rows).
Proof.
  unfold handleFileChange. cbv zeta.
  destruct (tryBlock host f) as [[m | ] | p] eqn:Et;
    cbn [error setError setParsedRows setAgents setTeamMetrics setSkippedCount setFileName];
    intros H; [ | | discriminate H].
  - apply Some_inj in H. subst m. revert Et. unfold tryBlock.
    destruct (file_read f) as [e | wb] eqn:Er.
    { intros Et. left. congruence. }
    destruct (Sheets wb sheet_name) as [rows | ] eqn:Es.
    2:{ intros Et. right. right. left. exists wb. repeat split; congruence. }
    destruct rows as [ | row0 rows].
    { intros Et. right. right. right. left. exists wb. repeat split; congruence. }
    destruct (missingColumns (row0 :: rows)) as [ | c cs] eqn:Em.
    2:{ intros Et. right. right. right. right. left. exists wb, (row0 :: rows).
        rewrite Em. repeat split; try discriminate; congruence. }
    rewrite processRows_spec.
    destruct (valid_records host (row0 :: rows)) as [ | r rs] eqn:Ev.
    { intros Et. right. right. right. right. right. exists (row0 :: rows).
      split; [ | split; [exact Ev | congruence]].
      exists wb. repeat split; try assumption. discriminate. }
    destruct (aggregate_Some host (row0 :: rows)) as [ast [Ea _]].
    unfold aggregate. rewrite <- Ev, Ea. intros Et. discriminate Et.
  - apply Some_inj in H. subst message. right. left. split; [ | reflexivity].
    revert Et. unfold tryBlock.
    destruct (file_read f) as [e | wb] eqn:Er; [intros Et; congruence | ].
    destruct (Sheets wb sheet_name) as [rows | ]; [ | intros Et; discriminate Et].
    destruct rows as [ | row0 rows]; [intros Et; discriminate Et | ].
    destruct (missingColumns (row0 :: rows)); [ | intros Et; discriminate Et].
    rewrite processRows_spec.
    destruct (valid_records host (row0 :: rows)) as [ | r rs] eqn:Ev;
      [intros Et; discriminate Et | ].
    destruct (aggregate_Some host (row0 :: rows)) as [ast [Ea _]].
    unfold aggregate. rewrite <- Ev, Ea. intros Et. discriminate Et.
Qed.

Lemma error_names_the_first_failed_check_witness :
  file_read file_blank = inl (ErrorObject msg_no_valid_rows)
  \/ (file_read file_blank = inl NotAnError /\ msg_no_valid_rows = msg_unexpected)
  \/ (exists workbook,
        file_read file_blank = inr workbook /\ Sheets workbook sheet_name = None /\
        msg_no_valid_rows = msg_missing_sheet)
  \/ (exists workbook,
        file_read file_blank = inr workbook /\ Sheets workbook sheet_name = Some [] /\
        msg_no_valid_rows = msg_no_rows)
  \/ (exists workbook rows,
        file_read file_blank = inr workbook /\ Sheets workbook sheet_name = Some rows /\
        rows <> [] /\ missingColumns rows <> [] /\
        msg_no_valid_rows
        = msg_missing_columns_prefix
            ++ join arabic_comma_space (missingColumns rows) ++ [46%N])
  \/ (exists rows,
        passes_pre_row_checks file_blank rows /\ valid_records utc_host rows = [] /\
        msg_no_valid_rows = msg_no_valid_rows).
Proof.
  apply (error_names_the_first_failed_check utc_host file_blank initial_AppState).
  vm_compute. reflexivity.
Defined.
